(** * self-tracker: the selector learning and matching engine

    A shallow embedding of [selector_map_numbers.py] (the report parser, the
    in-page scoring script [SELECTOR_JS], [learn_selectors],
    [apply_selectors], [_read_records_file] and the batch loop of [main]),
    of [_date_from_url] (also in [records.py]) and of the registry of
    [records.py].

    Conventions of the model.
    - Text is a [string] of 8-bit characters.  Python's and JavaScript's
      character predicates (whitespace, digits, lower-casing) are written out
      for that range.
    - A Python [float] is a binary64 value ([PrimFloat.float]); [float(s)] is
      the correctly rounded value of the decimal numeral [s].
    - The numbers of the in-page script (layout boxes, scores) are kept
      abstract in a signature [Js.Builtins], instantiated by binary64 floats
      (what the browser computes) and by the real numbers.
    - A Python [dict] is an association list in insertion order.
    - A call that can raise returns an [option]: [None] is the exception.
      Where the model does not cover every input of a call (a URL whose
      escapes decode outside Latin-1 or whose host is in brackets, a record
      that holds a placeholder of the script), the call returns an
      [outcome]: [Returns], [Raises], or [Beyond] for the inputs left out.
    - The Python library is that of CPython 3.12 with its defaults. *)

From Stdlib Require Import ZArith List String Ascii Bool Lia Arith Sorted.
From Stdlib Require Import Permutation.
From Stdlib Require Import DecimalString Floats SpecFloat Reals Lra.
From Stdlib Require DecimalNat.
Import ListNotations.

Local Open Scope string_scope.
Local Open Scope bool_scope.
Set Warnings "-register-all".

(* ================================================================= *)
(** ** Characters and strings *)

Module Str.

Definition code (c : ascii) : nat := nat_of_ascii c.

Definition in_range (lo hi : nat) (c : ascii) : bool :=
  (lo <=? code c)%nat && (code c <=? hi)%nat.

(** [0-9] *)
Definition is_digit (c : ascii) : bool := in_range 48 57 c.
Definition is_upper (c : ascii) : bool := in_range 65 90 c.
Definition is_lower (c : ascii) : bool := in_range 97 122 c.
(** [A-Za-z] *)
Definition is_alpha (c : ascii) : bool := is_upper c || is_lower c.

(** Python's [str.isspace] / [\s] on code points below 256. *)
Definition py_isspace (c : ascii) : bool :=
  in_range 9 13 c || in_range 28 32 c
  || (code c =? 133)%nat || (code c =? 160)%nat.

(** ECMAScript's WhiteSpace and LineTerminator on code points below 256
    (what [String.prototype.trim] removes). *)
Definition js_isspace (c : ascii) : bool :=
  in_range 9 13 c || (code c =? 32)%nat || (code c =? 160)%nat.

(** [str.lower] / [toLowerCase] on one character (Latin-1 range). *)
Definition lower_char (c : ascii) : ascii :=
  if is_upper c
     || (in_range 192 222 c && negb (code c =? 215)%nat)
  then ascii_of_nat (code c + 32) else c.

Fixpoint map (f : ascii -> ascii) (s : string) : string :=
  match s with
  | EmptyString => EmptyString
  | String c s' => String (f c) (map f s')
  end.

Definition lower (s : string) : string := map lower_char s.

Fixpoint lstrip (sp : ascii -> bool) (s : string) : string :=
  match s with
  | String c s' => if sp c then lstrip sp s' else s
  | EmptyString => EmptyString
  end.

(** Drops the trailing characters satisfying [sp]. *)
Fixpoint rstrip (sp : ascii -> bool) (s : string) : string :=
  match s with
  | EmptyString => EmptyString
  | String c s' =>
      match rstrip sp s' with
      | EmptyString => if sp c then EmptyString else String c EmptyString
      | r => String c r
      end
  end.

Definition strip (sp : ascii -> bool) (s : string) : string :=
  rstrip sp (lstrip sp s).

(** [s.startswith(p)] *)
Definition startswith (p s : string) : bool := String.prefix p s.

(** [s.includes(n)] / [n in s] *)
Fixpoint includes (n s : string) : bool :=
  String.prefix n s
  || match s with
     | EmptyString => false
     | String _ s' => includes n s'
     end.

Fixpoint existsb (p : ascii -> bool) (s : string) : bool :=
  match s with
  | EmptyString => false
  | String c s' => p c || existsb p s'
  end.

Fixpoint forallb (p : ascii -> bool) (s : string) : bool :=
  match s with
  | EmptyString => true
  | String c s' => p c && forallb p s'
  end.

(** The first [n] characters. *)
Fixpoint take (n : nat) (s : string) : string :=
  match n, s with
  | S n', String c s' => String c (take n' s')
  | _, _ => EmptyString
  end.

(** Truthiness of a string (Python and JavaScript): non-empty. *)
Definition truthy (s : string) : bool :=
  match s with EmptyString => false | _ => true end.

(** [sep.join(parts)] *)
Fixpoint join (sep : string) (parts : list string) : string :=
  match parts with
  | [] => EmptyString
  | [p] => p
  | p :: ps => p ++ sep ++ join sep ps
  end.

(** [s.split(sep, 1)] on a one-character separator: the text before the first
    separator and, when there is one, the text after it. *)
Fixpoint split1 (sep : ascii) (s : string) : string * option string :=
  match s with
  | EmptyString => (EmptyString, None)
  | String c s' =>
      if Ascii.eqb c sep then (EmptyString, Some s')
      else let '(a, b) := split1 sep s' in (String c a, b)
  end.

(** [s.split(sep)] on a one-character separator. *)
Fixpoint split (sep : ascii) (s : string) : list string :=
  match s with
  | EmptyString => [EmptyString]
  | String c s' =>
      if Ascii.eqb c sep then EmptyString :: split sep s'
      else match split sep s' with
           | [] => [String c EmptyString]
           | p :: ps => String c p :: ps
           end
  end.

(** Decimal rendering of a natural number. *)
Definition of_nat (n : nat) : string :=
  NilZero.string_of_uint (Nat.to_uint n).

End Str.

(* ================================================================= *)
(** ** Regular expressions ([re]): a backtracking matcher

    The patterns of the program only repeat character classes, so the
    repetition is structural on the subject.  Alternatives are tried in the
    order of Python's engine: greedy repetition takes the longest run first
    and gives characters back one at a time; an optional group is tried
    before it is skipped. *)

Module Re.

Inductive regex : Type :=
| Cls (p : ascii -> bool)          (* one character of a class *)
| Star (p : ascii -> bool)         (* [p*], greedy *)
| Plus (p : ascii -> bool)         (* [p+], greedy *)
| Seq (r1 r2 : regex)
| Opt (r : regex)                  (* [r?], greedy *)
| Group (n : nat) (r : regex)      (* capturing group number [n] *)
| Bol                              (* [^] *)
| Eol.                             (* [$] *)

Definition captures := list (nat * string).

Section Matcher.
Context {R : Type}.

(** A continuation receives the position reached, the rest of the subject
    and the groups captured so far. *)
Definition cont := nat -> string -> captures -> option R.

Fixpoint star (p : ascii -> bool) (pos : nat) (s : string)
         (caps : captures) (k : cont) : option R :=
  match s with
  | String c s' =>
      if p c then
        match star p (S pos) s' caps k with
        | Some r => Some r
        | None => k pos s caps
        end
      else k pos s caps
  | EmptyString => k pos s caps
  end.

Fixpoint run (r : regex) (pos : nat) (s : string)
         (caps : captures) (k : cont) : option R :=
  match r with
  | Cls p =>
      match s with
      | String c s' => if p c then k (S pos) s' caps else None
      | EmptyString => None
      end
  | Star p => star p pos s caps k
  | Plus p =>
      match s with
      | String c s' => if p c then star p (S pos) s' caps k else None
      | EmptyString => None
      end
  | Seq r1 r2 =>
      run r1 pos s caps (fun pos' s' caps' => run r2 pos' s' caps' k)
  | Opt r1 =>
      match run r1 pos s caps k with
      | Some x => Some x
      | None => k pos s caps
      end
  | Group n r1 =>
      run r1 pos s caps
          (fun pos' s' caps' => k pos' s' ((n, Str.take (pos' - pos) s) :: caps'))
  | Bol => if (pos =? 0)%nat then k pos s caps else None
  | Eol =>
      match s with
      | EmptyString => k pos s caps
      | String c EmptyString =>
          if Ascii.eqb c "010" then k pos s caps else None
      | _ => None
      end
  end.
End Matcher.

(** A match object: [group(0)] and the numbered groups. *)
Record match_obj : Type := MatchObj {
  whole : string;
  groups : captures
}.

Fixpoint lookup (n : nat) (caps : captures) : option string :=
  match caps with
  | [] => None
  | (m, v) :: caps' => if (m =? n)%nat then Some v else lookup n caps'
  end.

(** [m.group(n)] for a group that took part in the match. *)
Definition group (n : nat) (m : match_obj) : string :=
  match n with
  | O => whole m
  | _ => match lookup n (groups m) with Some v => v | None => EmptyString end
  end.

Definition match_at (r : regex) (pos : nat) (s : string) : option match_obj :=
  run r pos s []
      (fun pos' _ caps => Some (MatchObj (Str.take (pos' - pos) s) caps)).

(** [re.match(r, s)]: a match starting at the first character. *)
Definition rmatch (r : regex) (s : string) : option match_obj :=
  match_at r 0 s.

Fixpoint search_from (r : regex) (pos : nat) (s : string) : option match_obj :=
  match match_at r pos s with
  | Some m => Some m
  | None =>
      match s with
      | EmptyString => None
      | String _ s' => search_from r (S pos) s'
      end
  end.

(** [re.search(r, s)]: the match at the leftmost position that has one. *)
Definition search (r : regex) (s : string) : option match_obj :=
  search_from r 0 s.

End Re.

(* ================================================================= *)
(** ** The report parser ([parse_important]) *)

Module Parser.

Definition is_sign (c : ascii) : bool :=
  Ascii.eqb c "-" || Ascii.eqb c "+".
Definition is_dot (c : ascii) : bool := Ascii.eqb c ".".
Definition is_colon (c : ascii) : bool := Ascii.eqb c ":".
(** [.]: any character but a newline *)
Definition any_char (c : ascii) : bool := negb (Ascii.eqb c "010").
(** [[A-Za-z /]] *)
Definition label_char (c : ascii) : bool :=
  Str.is_alpha c || Ascii.eqb c " " || Ascii.eqb c "/".
(** [[a-zA-Z%]] *)
Definition unit_char (c : ascii) : bool :=
  Str.is_alpha c || Ascii.eqb c "%".

(** [NumberRe = re.compile(r"[-+]?\d+(?:\.\d+)?")] *)
Definition NumberRe : Re.regex :=
  Re.Seq (Re.Opt (Re.Cls is_sign))
         (Re.Seq (Re.Plus Str.is_digit)
                 (Re.Opt (Re.Seq (Re.Cls is_dot) (Re.Plus Str.is_digit)))).

(** [r"^\s*([A-Za-z /]+)\s*:?\s*(.+)$"] *)
Definition LineRe : Re.regex :=
  Re.Seq Re.Bol
  (Re.Seq (Re.Star Str.py_isspace)
  (Re.Seq (Re.Group 1 (Re.Plus label_char))
  (Re.Seq (Re.Star Str.py_isspace)
  (Re.Seq (Re.Opt (Re.Cls is_colon))
  (Re.Seq (Re.Star Str.py_isspace)
  (Re.Seq (Re.Group 2 (Re.Plus any_char))
          Re.Eol)))))).

(** [r"[a-zA-Z%]+$"] *)
Definition UnitRe : Re.regex :=
  Re.Seq (Re.Plus unit_char) Re.Eol.

(** The value of a run of decimal digits, most significant first. *)
Fixpoint digits_value (acc : Z) (s : string) : option Z :=
  match s with
  | EmptyString => Some acc
  | String c s' =>
      if Str.is_digit c
      then digits_value (10 * acc + Z.of_nat (Str.code c - 48)) s'
      else None
  end.

(** The binary64 value nearest to [(-1)^neg * m / 10^k] (ties to even). *)
Definition round_decimal (neg : bool) (m : Z) (k : nat) : float :=
  match m with
  | Zpos p =>
      SF2Prim (SFdiv prec emax
                     (S754_finite neg p 0)
                     (S754_finite false (Z.to_pos (10 ^ Z.of_nat k)) 0))
  | _ => if neg then (-0)%float else 0%float
  end.

(** The value of an unsigned decimal numeral [\d+(\.\d+)?], negated when
    [neg]; [None] when [body] is not of that form. *)
Definition pyfloat_body (neg : bool) (body : string) : option float :=
  let '(ip, fp) := Str.split1 "." body in
  let frac := match fp with Some f => f | None => EmptyString end in
  if negb (Str.truthy ip) then None
  else if match fp with Some EmptyString => true | _ => false end then None
  else
    match digits_value 0 (ip ++ frac) with
    | Some m => Some (round_decimal neg m (String.length frac))
    | None => None
    end.

(** [float(s)] on a decimal numeral [[-+]?\d+(\.\d+)?], the only form the
    program passes to it; [None] outside that form. *)
Definition pyfloat (s : string) : option float :=
  match s with
  | String "-" r => pyfloat_body true r
  | String "+" r => pyfloat_body false r
  | _ => pyfloat_body false s
  end.

Record LabelValue : Type := mkLabelValue {
  label : string;
  value_str : string;
  value_float : option float;
  unit : option string
}.

(** One iteration of the loop of [parse_important]: [None] is [continue]. *)
Definition parse_line (raw : string) : option LabelValue :=
  let s := Str.strip Str.py_isspace raw in
  if negb (Str.truthy s) then None
  else if Str.startswith "name:" (Str.lower s)
          || Str.startswith "gender:" (Str.lower s) then None
  else if Str.startswith "time/date" (Str.lower s) then None
  else
    match Re.rmatch LineRe s with
    | None => None
    | Some m =>
        let label := Str.strip Str.py_isspace (Re.group 1 m) in
        let rest := Str.strip Str.py_isspace (Re.group 2 m) in
        match Re.search NumberRe rest with
        | None => None
        | Some mnum =>
            let value_str := Re.group 0 mnum in
            let value_float := pyfloat value_str in
            let unit_m := Re.search UnitRe rest in
            let unit :=
              match unit_m with
              | Some u => Some (Re.group 0 u)
              | None => None
              end in
            Some (mkLabelValue label value_str value_float unit)
        end
    end.

(** [parse_important], on the lines of the report
    ([imp_path.read_text(...).splitlines()]). *)
Fixpoint parse_important (lines : list string) : list LabelValue :=
  match lines with
  | [] => []
  | raw :: lines' =>
      match parse_line raw with
      | Some lv => lv :: parse_important lines'
      | None => parse_important lines'
      end
  end.

End Parser.


(* ================================================================= *)
(** ** The browser's built-ins used by the in-page script

    JavaScript numbers with the operations the script applies to them, and
    [CSS.escape].  [ltb] and [leb] are [<] and [<=]. *)

Module Js.

Record Builtins : Type := mkBuiltins {
  num : Type;
  lit : Z -> num;                       (* an integer literal *)
  add : num -> num -> num;
  sub : num -> num -> num;
  mul : num -> num -> num;
  div : num -> num -> num;
  sqrt : num -> num;                    (* Math.sqrt *)
  max : num -> num -> num;              (* Math.max *)
  ltb : num -> num -> bool;
  leb : num -> num -> bool;
  CSS_escape : string -> string
}.

(** A number that compares with itself: every number but NaN. *)
Definition comparable (B : Builtins) (a : num B) : Prop := leb B a a = true.

(** What the ordering properties of the script rely on.  These are facts of
    IEEE 754 arithmetic on binary64 (comparisons order the numbers other than
    NaN; addition, division and square root are correctly rounded, hence
    monotone), stated so that NaN is never compared; the real numbers have
    them as well. *)
Record Laws (B : Builtins) : Prop := mkLaws {
  leb_comparable : forall a b,
      leb B a b = true -> comparable B a /\ comparable B b;
  leb_trans : forall a b c,
      leb B a b = true -> leb B b c = true -> leb B a c = true;
  leb_total : forall a b,
      comparable B a -> comparable B b ->
      leb B a b = true \/ leb B b a = true;
  ltb_leb : forall a b,
      comparable B a -> comparable B b -> ltb B a b = negb (leb B b a);
  sub_pos : forall a b,
      comparable B a -> comparable B b ->
      ltb B (lit B 0) (sub B b a) = ltb B a b;
  lit_mono : forall m n,
      (0 <= m <= n)%Z -> (n < 2 ^ 53)%Z -> leb B (lit B m) (lit B n) = true;
  add_lit_r : forall z a b,
      leb B a b = true -> leb B (add B (lit B z) a) (add B (lit B z) b) = true;
  add_lit_l : forall z a b,
      leb B a b = true -> leb B (add B a (lit B z)) (add B b (lit B z)) = true;
  div_lit_anti : forall z a b,
      (0 <= z)%Z -> leb B (lit B 1) a = true -> leb B a b = true ->
      leb B (div B (lit B z) b) (div B (lit B z) a) = true;
  sqrt_mono : forall a b,
      leb B (lit B 0) a = true -> leb B a b = true ->
      leb B (sqrt B a) (sqrt B b) = true;
  max_spec : forall a b,
      comparable B a -> comparable B b ->
      (leb B a b = true /\ max B a b = b)
      \/ (leb B b a = true /\ max B a b = a)
}.

(** binary64 literals of the script (all are small non-negative integers). *)
Definition float_lit (z : Z) : float :=
  match z with
  | Zneg _ => PrimFloat.opp (PrimFloat.of_uint63 (Uint63.of_Z (- z)))
  | _ => PrimFloat.of_uint63 (Uint63.of_Z z)
  end.

(** [Math.max] on two numbers: NaN if either is NaN. *)
Definition float_max (a b : float) : float :=
  if PrimFloat.is_nan a || PrimFloat.is_nan b then PrimFloat.nan
  else if PrimFloat.ltb a b then b else a.

(** The browser's numbers: binary64. *)
Definition FloatBuiltins (esc : string -> string) : Builtins :=
  mkBuiltins float float_lit PrimFloat.add PrimFloat.sub PrimFloat.mul
             PrimFloat.div PrimFloat.sqrt float_max
             PrimFloat.ltb PrimFloat.leb esc.

Definition Rltb (a b : R) : bool := if Rlt_dec a b then true else false.
Definition Rleb (a b : R) : bool := if Rle_dec a b then true else false.

(** The same operations on the real numbers. *)
Definition RealBuiltins (esc : string -> string) : Builtins :=
  mkBuiltins R IZR Rplus Rminus Rmult Rdiv R_sqrt.sqrt Rmax Rltb Rleb esc.

End Js.

(* ================================================================= *)
(** ** The rendered document *)

Module Dom.
Section WithBuiltins.
Context (B : Js.Builtins).

(** [getBoundingClientRect()] *)
Record Rect : Type := mkRect {
  x : Js.num B;
  y : Js.num B;
  width : Js.num B;
  height : Js.num B
}.

(** An element with what the script reads from it: its attributes, its
    computed style, its layout box, its text and its element children. *)
Inductive Element : Type := mkElement {
  tagName : string;
  id : string;
  classList : list string;
  visibility : string;            (* getComputedStyle(el).visibility *)
  display : string;               (* getComputedStyle(el).display *)
  rect : Rect;
  innerText : string;
  textContent : string;
  children : list Element
}.

Record Document : Type := mkDocument {
  documentElement : Element
}.

(** An element of a document is named by the child indices that lead to it
    from the root, innermost first; [[]] is the root.  Two references are the
    same node ([===]) when the indices agree. *)
Definition handle : Type := list nat.

Fixpoint get (e : Element) (path : list nat) : option Element :=
  match path with
  | [] => Some e
  | i :: path' =>
      match nth_error (children e) i with
      | Some c => get c path'
      | None => None
      end
  end.

Definition resolve (doc : Document) (h : handle) : option Element :=
  get (documentElement doc) (rev h).

(** [el.parentElement]; the root has none. *)
Definition parentElement (h : handle) : option handle :=
  match h with
  | [] => None
  | _ :: ph => Some ph
  end.

Definition has_tag (t : string) (e : Element) : bool :=
  String.eqb (Str.lower (tagName e)) t.

Fixpoint find_index {A : Type} (p : A -> bool) (i : nat) (l : list A) : option nat :=
  match l with
  | [] => None
  | a :: l' => if p a then Some i else find_index p (S i) l'
  end.

(** [document.body]: the first [body] or [frameset] child of the [html]
    root. *)
Definition body (doc : Document) : option handle :=
  if has_tag "html" (documentElement doc) then
    match find_index (fun e => has_tag "body" e || has_tag "frameset" e)
                     0 (children (documentElement doc)) with
    | Some i => Some [i]
    | None => None
    end
  else None.

Definition handle_eqb (h1 h2 : handle) : bool :=
  if list_eq_dec Nat.eq_dec h1 h2 then true else false.

(** The elements below [e] (and [e] itself when [self]) in document order;
    with [only_in_body], only those with a [body] ancestor. *)
Fixpoint walk (only_in_body : bool) (inb : bool) (h : handle) (e : Element)
  : list handle :=
  match e with
  | mkElement tag _ _ _ _ _ _ _ cs =>
      ((if negb only_in_body || inb then [h] else [])
       ++ (fix go (i : nat) (cs : list Element) : list handle :=
             match cs with
             | [] => []
             | c :: cs' =>
                 walk only_in_body
                      (inb || String.eqb (Str.lower tag) "body") (i :: h) c
                 ++ go (S i) cs'
             end) 0 cs)%list
  end.

(** [document.querySelectorAll('*')] *)
Definition all_elements (doc : Document) : list handle :=
  walk false false [] (documentElement doc).

(** [document.querySelectorAll('body *')] *)
Definition body_descendants (doc : Document) : list handle :=
  walk true false [] (documentElement doc).

End WithBuiltins.

Arguments mkRect {B}.
Arguments mkElement {B}.
Arguments mkDocument {B}.
Arguments x {B}.
Arguments y {B}.
Arguments width {B}.
Arguments height {B}.
Arguments tagName {B}.
Arguments id {B}.
Arguments classList {B}.
Arguments visibility {B}.
Arguments display {B}.
Arguments rect {B}.
Arguments innerText {B}.
Arguments textContent {B}.
Arguments children {B}.
Arguments documentElement {B}.
Arguments get {B}.
Arguments resolve {B}.
Arguments has_tag {B}.
Arguments body {B}.
Arguments walk {B}.
Arguments all_elements {B}.
Arguments body_descendants {B}.

End Dom.

(* ================================================================= *)
(** ** The in-page script [SELECTOR_JS] *)

Module Script.
Import Dom.

(** The match classes of [containsNumberLike]; its [false] is [None]. *)
Inductive tier : Type := exact | exact_unit | partial.

(** JavaScript's [a || b] on strings. *)
Definition js_or (a b : string) : string :=
  if Str.truthy a then a else b.

Definition trim (s : string) : string := Str.strip Str.js_isspace s.

Definition containsNumberLike (text n unit : string) : option tier :=
  if negb (Str.truthy text) then None
  else
    let t := trim text in
    if String.eqb t n then Some exact
    else if Str.truthy unit
            && (String.eqb t (n ++ unit) || String.eqb t (n ++ " " ++ unit))
    then Some exact_unit
    else if Str.includes n t then Some partial
    else None.

Section WithBuiltins.
Context {B : Js.Builtins}.

Local Abbreviation num := (Js.num B).
Local Abbreviation Element := (Dom.Element B).
Local Abbreviation Document := (Dom.Document B).
Local Abbreviation Rect := (Dom.Rect B).

Definition areaScore (rect : Rect) : num :=
  let area := Js.max B (Js.lit B 1) (Js.mul B (width rect) (height rect)) in
  Js.div B (Js.lit B 1000) (Js.max B (Js.lit B 1) (Js.sqrt B area)).

Definition isVisible (el : Element) : bool :=
  if String.eqb (visibility el) "hidden" || String.eqb (display el) "none"
  then false
  else if Js.leb B (width (rect el)) (Js.lit B 0)
          || Js.leb B (height (rect el)) (Js.lit B 0)
  then false
  else true.

Definition textOf (el : Element) : string :=
  trim (js_or (innerText el) (js_or (textContent el) "")).

Definition hasNeighborLabel (doc : Document) (el : handle) (label : string)
  : bool :=
  if negb (Str.truthy label) then false
  else
    match parentElement el with
    | None => false
    | Some ph =>
        match resolve doc ph with
        | None => false
        | Some parent =>
            let near := js_or (innerText parent) (js_or (textContent parent) "") in
            Str.includes (Str.lower label) (Str.lower near)
        end
    end.

(** The class part of a path segment: the first two class names that are
    non-empty and hold no digit, each escaped and prefixed with a dot. *)
Definition class_part (cur : Element) : string :=
  if (0 <? List.length (classList cur))%nat then
    Str.join ""
      (List.map (fun c => "." ++ Js.CSS_escape B c)
         (firstn 2
            (filter (fun c => Str.truthy c && negb (Str.existsb Str.is_digit c))
                    (classList cur))))
  else "".

(** The [:nth-of-type(idx)] part: the position of the [i]-th child of
    [parent] among the children with its tag, from 1. *)
Definition nth_part (parent cur : Element) (i : nat) : string :=
  let tag := Str.lower (tagName cur) in
  let before :=
    filter (fun x => String.eqb (Str.lower (tagName x)) tag)
           (firstn i (children parent)) in
  let idx := (List.length before + 1)%nat in
  ":nth-of-type(" ++ Str.of_nat idx ++ ")".

(** One round of the loop of [cssPath]: the segment of [cur]. *)
Definition segment (doc : Document) (h : handle) (cur : Element) : string :=
  let part := Str.lower (tagName cur) ++ class_part cur in
  match h with
  | i :: ph =>
      match resolve doc ph with
      | Some parent => part ++ nth_part parent cur i
      | None => part
      end
  | [] => part
  end.

Definition is_body (doc : Document) (h : handle) : bool :=
  match body doc with
  | Some b => handle_eqb h b
  | None => false
  end.

(** The [while] loop of [cssPath], started at [cur = h] with the segments
    [parts] collected so far. *)
Fixpoint cssPath_loop (doc : Document) (h : handle) (parts : list string)
  : list string :=
  match resolve doc h with
  | None => parts
  | Some cur =>
      if is_body doc h then parts
      else
        let parts' := segment doc h cur :: parts in
        match h with
        | [] => parts'
        | _ :: ph =>
            if (6 <? List.length parts')%nat then parts'
            else cssPath_loop doc ph parts'
        end
  end.

(** Whether [cssPath] takes the identifier branch at [el]. *)
Definition unique_id (doc : Document) (el : Element) : bool :=
  Str.truthy (id el)
  && (List.length
        (filter (fun h => match resolve doc h with
                          | Some e => String.eqb (id e) (id el)
                          | None => false
                          end)
                (all_elements doc)) =? 1)%nat.

(** The structural segments of the path of [el]: none in the identifier
    branch. *)
Definition cssPath_parts (doc : Document) (el : handle) : list string :=
  match resolve doc el with
  | None => []
  | Some e => if unique_id doc e then [] else cssPath_loop doc el []
  end.

Definition cssPath (doc : Document) (el : handle) : string :=
  match resolve doc el with
  | None => ""
  | Some e =>
      if unique_id doc e then "#" ++ Js.CSS_escape B (id e)
      else Str.join " > " (cssPath_loop doc el [])
  end.

Record Candidate : Type := mkCandidate {
  elText : string;
  path : string;
  crect : Rect;
  score : num
}.

Definition base_score (m : tier) : Z :=
  match m with
  | exact => 60
  | exact_unit => 45
  | partial => 10
  end.

(** The score of a match of class [m] with layout box [r]; [near] is the
    outcome of [hasNeighborLabel]. *)
Definition score_of (m : tier) (r : Rect) (near : bool) : num :=
  let score := Js.add B (Js.lit B (base_score m)) (areaScore r) in
  if near then Js.add B score (Js.lit B 20) else score.

(** The leaf elements under the body. *)
Definition elements (doc : Document) : list handle :=
  filter (fun h => match resolve doc h with
                   | Some el => (List.length (children el) =? 0)%nat
                   | None => false
                   end)
         (body_descendants doc).

(** One round of the candidate loop: [None] is [continue]. *)
Definition candidate_of (doc : Document) (numStr labelStr unitStr : string)
           (h : handle) : option Candidate :=
  match resolve doc h with
  | None => None
  | Some el =>
      if negb (isVisible el) then None
      else
        let t := textOf el in
        match containsNumberLike t numStr unitStr with
        | None => None
        | Some m =>
            let r := rect el in
            let sc := score_of m r (hasNeighborLabel doc h labelStr) in
            Some (mkCandidate t (cssPath doc h) r sc)
        end
  end.

Fixpoint collect (doc : Document) (numStr labelStr unitStr : string)
         (els : list handle) : list Candidate :=
  match els with
  | [] => []
  | h :: els' =>
      match candidate_of doc numStr labelStr unitStr h with
      | Some c => c :: collect doc numStr labelStr unitStr els'
      | None => collect doc numStr labelStr unitStr els'
      end
  end.

(** The comparator [(a, b) => b.score - a.score]. *)
Definition by_score (a b : Candidate) : num :=
  Js.sub B (score b) (score a).

(** [Array.prototype.sort(cmp)]: the stable sort ECMAScript requires, written
    as an insertion sort.  [x] stays in front of the elements it does not
    compare greater than. *)
Fixpoint insert {A : Type} (cmp : A -> A -> num) (a : A) (l : list A)
  : list A :=
  match l with
  | [] => [a]
  | b :: l' =>
      if Js.ltb B (Js.lit B 0) (cmp a b) then b :: insert cmp a l'
      else a :: l
  end.

Fixpoint sort {A : Type} (cmp : A -> A -> num) (l : list A) : list A :=
  match l with
  | [] => []
  | a :: l' => insert cmp a (sort cmp l')
  end.

(** The whole script, with its three placeholders as arguments. *)
Definition SELECTOR_JS (doc : Document) (numStr labelStr unitStr : string)
  : list Candidate :=
  let candidates := collect doc numStr labelStr unitStr (elements doc) in
  firstn 5 (sort by_score candidates).

End WithBuiltins.
End Script.

(* ================================================================= *)
(** ** Python dictionaries: association lists in insertion order *)

Module Dict.

Definition dict (V : Type) : Type := list (string * V).

(** [d.get(k)] *)
Fixpoint get {V : Type} (k : string) (d : dict V) : option V :=
  match d with
  | [] => None
  | (k', v) :: d' => if String.eqb k' k then Some v else get k d'
  end.

(** [d[k] = v]: a key already present keeps its place. *)
Fixpoint set {V : Type} (k : string) (v : V) (d : dict V) : dict V :=
  match d with
  | [] => [(k, v)]
  | (k', v') :: d' =>
      if String.eqb k' k then (k, v) :: d' else (k', v') :: set k v d'
  end.

Definition keys {V : Type} (d : dict V) : list string := List.map fst d.

End Dict.

(* ================================================================= *)
(** ** The outcome of a call *)

Module Outcome.

(** A call returns a value or raises; [Beyond] stands for the inputs on
    which the model does not say what the call does. *)
Inductive outcome (A : Type) : Type :=
| Returns (a : A)
| Raises
| Beyond.

Arguments Returns {A} a.
Arguments Raises {A}.
Arguments Beyond {A}.

End Outcome.

(* ================================================================= *)
(** ** [learn_selectors] and [apply_selectors] *)

Module Mapper.
Import Outcome.
Import Parser.

(** A page after navigation: its document, and the browser's resolution of a
    selector to the first element that matches it ([None] when the selector
    matches nothing or is not valid). *)
Record Page (B : Js.Builtins) : Type := mkPage {
  document : Dom.Document B;
  query : string -> option Dom.handle
}.
Arguments mkPage {B}.
Arguments document {B}.
Arguments query {B}.

Section WithBrowser.
Context {B : Js.Builtins}.
(** [page.goto(url, wait_until="networkidle")] on a fresh page; [None] when
    it raises. *)
Context (goto : string -> option (Page B)).

(** [page.eval_on_selector(sel, "el => (el.innerText || el.textContent ||
    '').trim()")]; [None] when it raises. *)
Definition eval_on_selector (page : Page B) (sel : string) : option string :=
  match query page sel with
  | Some h =>
      match Dom.resolve (document page) h with
      | Some el => Some (Script.textOf el)
      | None => None
      end
  | None => None
  end.

(** The script text, as far as the replacements of [learn_selectors] see
    it.  [SELECTOR_JS] holds each placeholder once, as the right-hand side
    of one of its first three definitions ([numStr], [labelStr], [unitStr]);
    a constant is a placeholder still in place, or the JSON form of a text
    put in its place. *)
Inductive constant : Type :=
| Placeholder (name : string)
| Json (s : string).                    (* json.dumps(s) *)

(** The three constants of [SELECTOR_JS], in order. *)
Definition TEMPLATE : list constant :=
  [Placeholder "__NUM_STR__"; Placeholder "__LABEL_STR__";
   Placeholder "__UNIT_STR__"].

(** [js.replace(name, json.dumps(s))] on the constants.  [json.dumps]
    quotes a text and leaves its letters and underscores as they are, so
    the replacement also acts inside a text put in earlier when that text
    holds [name]; what is left is then no longer the script with three
    quoted constants (it is another program, or no program at all):
    [None]. *)
Fixpoint replace_constants (name s : string) (cs : list constant)
  : option (list constant) :=
  match cs with
  | [] => Some []
  | c :: cs' =>
      match (match c with
             | Placeholder n =>
                 Some (if String.eqb n name then Json s else c)
             | Json q => if Str.includes name q then None else Some c
             end),
            replace_constants name s cs' with
      | Some c', Some r => Some (c' :: r)
      | _, _ => None
      end
  end.

Definition replace (name s : string) (js : option (list constant))
  : option (list constant) :=
  match js with
  | Some cs => replace_constants name s cs
  | None => None
  end.

(** [SELECTOR_JS.replace("__NUM_STR__", json.dumps(lv.value_str))
    .replace("__LABEL_STR__", json.dumps(lv.label))
    .replace("__UNIT_STR__", json.dumps(lv.unit or ""))] *)
Definition script_of (lv : LabelValue) : option (list constant) :=
  replace "__UNIT_STR__" (match unit lv with Some u => u | None => "" end)
    (replace "__LABEL_STR__" (label lv)
       (replace "__NUM_STR__" (value_str lv) (Some TEMPLATE))).

(** The records for which no replacement acts inside a text put in
    earlier: the three constants of the script are then the three texts of
    the record. *)
Definition plain (lv : LabelValue) : bool :=
  negb (Str.includes "__LABEL_STR__" (value_str lv))
  && negb (Str.includes "__UNIT_STR__" (value_str lv))
  && negb (Str.includes "__UNIT_STR__" (label lv)).

(** [page.evaluate(js)] for the script text built from [lv]; [Beyond] when
    the text is not the script with three quoted constants. *)
Definition evaluate (page : Page B) (lv : LabelValue)
  : outcome (list (Script.Candidate (B := B))) :=
  match script_of lv with
  | Some [Json numStr; Json labelStr; Json unitStr] =>
      Returns (Script.SELECTOR_JS (document page) numStr labelStr unitStr)
  | _ => Beyond
  end.

Definition entry (selector expect : string) : Dict.dict string :=
  [("selector", selector); ("type", "text"); ("expect", expect)].

(** The body of the loop of [learn_selectors] after [page.evaluate]: the
    entry stored for [lv] when the script returned [topk]. *)
Definition learn_entry (topk : list (Script.Candidate (B := B)))
           (lv : LabelValue) : Dict.dict string :=
  match topk with
  | best :: _ =>
      if Str.truthy (Script.path best)
      then entry (Script.path best) (value_str lv)
      else entry "" (value_str lv)
  | [] => entry "" (value_str lv)
  end.

Fixpoint learn_loop (page : Page B) (labels : list LabelValue)
         (selectors : Dict.dict (Dict.dict string))
  : outcome (Dict.dict (Dict.dict string)) :=
  match labels with
  | [] => Returns selectors
  | lv :: labels' =>
      match evaluate page lv with
      | Returns topk =>
          learn_loop page labels'
                     (Dict.set (label lv) (learn_entry topk lv) selectors)
      | Raises => Raises
      | Beyond => Beyond
      end
  end.

(** [learn_selectors(url, labels)]; it raises when navigation does. *)
Definition learn_selectors (url : string) (labels : list LabelValue)
  : outcome (Dict.dict (Dict.dict string)) :=
  match goto url with
  | Some page => learn_loop page labels []
  | None => Raises
  end.

(** The number read from a text: the [if t:] block of [apply_selectors]. *)
Definition number_in (t : string) : option float :=
  if Str.truthy t then
    match Re.search NumberRe t with
    | Some m => pyfloat (Re.group 0 m)
    | None => None
    end
  else None.

(** The body of the loop of [apply_selectors]: the value for one entry, and
    the selectors handed to [page.eval_on_selector] on the way. *)
Definition apply_entry (page : Page B) (meta : Dict.dict string)
  : option float * list string :=
  let sel := match Dict.get "selector" meta with
             | Some s => s
             | None => ""
             end in
  if Str.truthy sel then
    match eval_on_selector page sel with
    | Some t => (number_in t, [sel])
    | None => (None, [sel])              (* except Exception: val = None *)
    end
  else (number_in "", []).

Fixpoint apply_loop (page : Page B) (selectors : Dict.dict (Dict.dict string))
         (results : Dict.dict (option float)) (calls : list string)
  : Dict.dict (option float) * list string :=
  match selectors with
  | [] => (results, calls)
  | (label, meta) :: selectors' =>
      let '(val, c) := apply_entry page meta in
      apply_loop page selectors' (Dict.set label val results) (calls ++ c)%list
  end.

(** [apply_selectors] together with the sequence of selectors it resolved. *)
Definition apply_run (url : string) (selectors : Dict.dict (Dict.dict string))
  : option (Dict.dict (option float) * list string) :=
  match goto url with
  | Some page => Some (apply_loop page selectors [] [])
  | None => None
  end.

(** [apply_selectors(url, selectors)]; [None] when navigation raises. *)
Definition apply_selectors (url : string)
           (selectors : Dict.dict (Dict.dict string))
  : option (Dict.dict (option float)) :=
  option_map fst (apply_run url selectors).

End WithBrowser.
End Mapper.

(* ================================================================= *)
(** ** [_date_from_url]

    The functions of [urllib.parse] and [datetime] it calls are written out
    for ASCII text, after CPython 3.12. *)

Module Records.
Import Outcome.

Local Open Scope Z_scope.

(** *** [urlparse(url).query] *)

(** [scheme_chars]: letters, digits, [+], [-] and [.] *)
Definition scheme_char (c : ascii) : bool :=
  Str.is_alpha c || Str.is_digit c
  || Ascii.eqb c "+" || Ascii.eqb c "-" || Ascii.eqb c ".".

(** C0 controls and the space, stripped from the front of a URL. *)
Definition c0_or_space (c : ascii) : bool := (Str.code c <=? 32)%nat.

(** Tab, carriage return and newline, removed from a URL. *)
Definition unsafe_char (c : ascii) : bool :=
  Ascii.eqb c "009" || Ascii.eqb c "013" || Ascii.eqb c "010".

Fixpoint remove (p : ascii -> bool) (s : string) : string :=
  match s with
  | EmptyString => EmptyString
  | String c s' => if p c then remove p s' else String c (remove p s')
  end.

(** The text before the first character satisfying [p], and the text from
    that character on. *)
Fixpoint break (p : ascii -> bool) (s : string) : string * string :=
  match s with
  | EmptyString => (EmptyString, EmptyString)
  | String c s' =>
      if p c then (EmptyString, s)
      else let '(a, b) := break p s' in (String c a, b)
  end.

(** The URL without its scheme, when it has one. *)
Definition drop_scheme (url : string) : string :=
  match Str.split1 ":" url with
  | (String c0 _ as sch, Some rest) =>
      if Str.is_alpha c0 && Str.forallb scheme_char sch then rest else url
  | _ => url
  end.

Definition has_char (c : ascii) (s : string) : bool :=
  Str.existsb (Ascii.eqb c) s.

(** [urlsplit]'s checks of the network location.  A bracket without its
    partner is [ValueError("Invalid IPv6 URL")].  With both brackets the
    host between them is validated by [ipaddress] (and [ValueError] raised
    for what is no IPv6 or IPvFuture address), which the model leaves out.
    The check of a location outside ASCII ([_checknetloc]) never raises on
    Latin-1 text: no Latin-1 character normalizes to one of [/?#@:]. *)
Definition check_netloc (netloc : string) : outcome unit :=
  if has_char "[" netloc && has_char "]" netloc then Beyond
  else if has_char "[" netloc || has_char "]" netloc then Raises
  else Returns tt.

(** [urlparse(url).query]; it raises when [urlsplit] raises [ValueError]. *)
Definition url_query (url : string) : outcome string :=
  let url := Str.lstrip c0_or_space url in
  let url := remove unsafe_char url in
  let url := drop_scheme url in
  let '(netloc, url) :=
    match url with
    | String "/" (String "/" rest) =>
        break (fun c => Ascii.eqb c "/" || Ascii.eqb c "?" || Ascii.eqb c "#")
              rest
    | _ => (EmptyString, url)
    end in
  match check_netloc netloc with
  | Raises => Raises
  | Beyond => Beyond
  | Returns _ =>
      let '(url, _) := Str.split1 "#" url in
      match Str.split1 "?" url with
      | (_, Some query) => Returns query
      | (_, None) => Returns EmptyString
      end
  end.

(** *** [parse_qs] *)

Definition hex_digit (c : ascii) : option nat :=
  if Str.is_digit c then Some (Str.code c - 48)%nat
  else if Str.in_range 65 70 c then Some (Str.code c - 55)%nat
  else if Str.in_range 97 102 c then Some (Str.code c - 87)%nat
  else None.

(** [unquote(s, encoding='utf-8', errors='replace')]: the [%XX] escapes are
    replaced by the bytes they encode and the bytes decoded as UTF-8; a [%]
    that starts no escape is kept.  A byte below 128 is that character; the
    bytes C2 or C3 followed by a byte from 80 to BF are one character from
    U+0080 to U+00FF.  Every other byte of an escape decodes to a character
    outside Latin-1 or to U+FFFD: [None], the text is not one of the
    model. *)
Fixpoint unquote (s : string) : option string :=
  match s with
  | String "%" (String a (String b s') as u) =>
      match hex_digit a, hex_digit b with
      | Some h, Some l =>
          let v := (16 * h + l)%nat in
          if (v <? 128)%nat
          then option_map (String (ascii_of_nat v)) (unquote s')
          else if (v =? 194)%nat || (v =? 195)%nat then
            match s' with
            | String "%" (String a2 (String b2 s'')) =>
                match hex_digit a2, hex_digit b2 with
                | Some h2, Some l2 =>
                    let w := (16 * h2 + l2)%nat in
                    if (128 <=? w)%nat && (w <=? 191)%nat
                    then option_map
                           (String (ascii_of_nat ((v - 194) * 64 + w)))
                           (unquote s'')
                    else None
                | _, _ => None
                end
            | _ => None
            end
          else None
      | _, _ => option_map (String "%") (unquote u)
      end
  | String c s' => option_map (String c) (unquote s')
  | EmptyString => Some EmptyString
  end.

(** [s.replace('+', ' ')] *)
Definition plus_to_space (s : string) : string :=
  Str.map (fun c => if Ascii.eqb c "+" then " "%char else c) s.

(** [parse_qsl(qs)] with its defaults: fields are separated by [&], a field
    without [=] or with an empty value is dropped.  [None] when a name or a
    value decodes to a text that is not one of the model. *)
Fixpoint parse_qsl_fields (fields : list string)
  : option (list (string * string)) :=
  match fields with
  | [] => Some []
  | name_value :: fields' =>
      if negb (Str.truthy name_value) then parse_qsl_fields fields'
      else
        match Str.split1 "=" name_value with
        | (name, Some value) =>
            if Str.truthy value
            then
              match unquote (plus_to_space name),
                    unquote (plus_to_space value),
                    parse_qsl_fields fields' with
              | Some n, Some v, Some pairs => Some ((n, v) :: pairs)
              | _, _, _ => None
              end
            else parse_qsl_fields fields'
        | (_, None) => parse_qsl_fields fields'
        end
  end.

Definition parse_qsl (qs : string) : option (list (string * string)) :=
  parse_qsl_fields (Str.split "&" qs).

Fixpoint parse_qs_pairs (pairs : list (string * string))
         (parsed : Dict.dict (list string)) : Dict.dict (list string) :=
  match pairs with
  | [] => parsed
  | (name, value) :: pairs' =>
      parse_qs_pairs pairs'
        (match Dict.get name parsed with
         | Some vs => Dict.set name (vs ++ [value])%list parsed
         | None => Dict.set name [value] parsed
         end)
  end.

(** [parse_qs(qs)]: every name with the list of its values, in order. *)
Definition parse_qs (qs : string) : option (Dict.dict (list string)) :=
  match parse_qsl qs with
  | Some pairs => Some (parse_qs_pairs pairs [])
  | None => None
  end.

(** *** [int(s)] *)

(** Digits with single underscores between them. *)
Fixpoint int_digits (acc : Z) (after_digit : bool) (s : string) : option Z :=
  match s with
  | EmptyString => if after_digit then Some acc else None
  | String c s' =>
      if Str.is_digit c
      then int_digits (10 * acc + Z.of_nat (Str.code c - 48)) true s'
      else if Ascii.eqb c "_" && after_digit
      then match s' with
           | String d _ => if Str.is_digit d then int_digits acc false s' else None
           | EmptyString => None
           end
      else None
  end.

(** What [int] skips at both ends of a text: the whitespace of ASCII (tab
    to carriage return, and the space) and, outside ASCII, the Unicode
    whitespace (U+0085 and U+00A0 in Latin-1).  The separators U+001C to
    U+001F are not skipped. *)
Definition int_space (c : ascii) : bool :=
  Str.in_range 9 13 c || (Str.code c =? 32)%nat
  || (Str.code c =? 133)%nat || (Str.code c =? 160)%nat.

(** The number of decimal digits of [s]. *)
Fixpoint count_digits (s : string) : nat :=
  match s with
  | EmptyString => O
  | String c s' =>
      if Str.is_digit c then S (count_digits s') else count_digits s'
  end.

(** [sys.get_int_max_str_digits()] *)
Definition max_str_digits : nat := 4300.

(** The value of an unsigned numeral; [ValueError] ([None]) also when it has
    more than [max_str_digits] digits. *)
Definition int_body (r : string) : option Z :=
  match int_digits 0 false r with
  | Some v => if (max_str_digits <? count_digits r)%nat then None else Some v
  | None => None
  end.

(** [int(s)] in base 10; [None] is [ValueError]. *)
Definition pyint (s : string) : option Z :=
  match Str.strip int_space s with
  | String "-" r => option_map Z.opp (int_body r)
  | String "+" r => int_body r
  | r => int_body r
  end.

(** *** [datetime.fromtimestamp(ts, tz=timezone.utc).date().isoformat()] *)

Record date : Type := mkDate { year : Z; month : Z; day : Z }.

Definition is_leap (y : Z) : bool :=
  (y mod 4 =? 0) && (negb (y mod 100 =? 0) || (y mod 400 =? 0)).

Definition days_in_month (y m : Z) : Z :=
  if m =? 2 then (if is_leap y then 29 else 28)
  else if (m =? 4) || (m =? 6) || (m =? 9) || (m =? 11) then 30
  else 31.

(** [_DAYS_BEFORE_MONTH] *)
Definition days_before_month_table (m : Z) : Z :=
  nth (Z.to_nat m) [0; 0; 31; 59; 90; 120; 151; 181; 212; 243; 273; 304; 334] 0.

(** [_ord2ymd]: the date of a proleptic Gregorian ordinal (day 1 is
    0001-01-01). *)
Definition ord2ymd (n : Z) : date :=
  let n := n - 1 in
  let n400 := n / 146097 in
  let n := n mod 146097 in
  let y := n400 * 400 + 1 in
  let n100 := n / 36524 in
  let n := n mod 36524 in
  let n4 := n / 1461 in
  let n := n mod 1461 in
  let n1 := n / 365 in
  let n := n mod 365 in
  let y := y + n100 * 100 + n4 * 4 + n1 in
  if (n1 =? 4) || (n100 =? 4) then mkDate (y - 1) 12 31
  else
    let leapyear := (n1 =? 3) && (negb (n4 =? 24) || (n100 =? 3)) in
    let m := Z.shiftr (n + 50) 5 in
    let preceding :=
      days_before_month_table m
      + (if (2 <? m) && leapyear then 1 else 0) in
    if n <? preceding then
      let m := m - 1 in
      let preceding :=
        preceding
        - ((if m =? 2 then 28
            else if (m =? 4) || (m =? 6) || (m =? 9) || (m =? 11) then 30
            else 31)
           + (if (m =? 2) && leapyear then 1 else 0)) in
      mkDate y m (n - preceding + 1)
    else mkDate y m (n - preceding + 1).

(** The ordinal of 1970-01-01. *)
Definition epoch_ordinal : Z := 719163.

Definition MINYEAR : Z := 1.
Definition MAXYEAR : Z := 9999.

(** [datetime.fromtimestamp(ts, tz=timezone.utc).date()]; [None] when the
    year is outside [MINYEAR..MAXYEAR] and the call raises. *)
Definition utc_date (ts : Z) : option date :=
  let d := ord2ymd (epoch_ordinal + ts / 86400) in
  if (MINYEAR <=? year d) && (year d <=? MAXYEAR) then Some d else None.

Fixpoint repeat0 (n : nat) : string :=
  match n with
  | O => EmptyString
  | S n' => String "0" (repeat0 n')
  end.

(** ["%0<w>d"] on a non-negative number *)
Definition zero_pad (w : nat) (z : Z) : string :=
  let s := Str.of_nat (Z.to_nat z) in
  repeat0 (w - String.length s) ++ s.

(** [date.isoformat()] *)
Definition isoformat (d : date) : string :=
  zero_pad 4 (year d) ++ "-" ++ zero_pad 2 (month d) ++ "-" ++ zero_pad 2 (day d).

(** The [if t_vals:] block of [_date_from_url]. *)
Definition date_of_values (t_vals : option (list string)) : string :=
  match t_vals with
  | Some (t0 :: _) =>
      match pyint t0 with
      | Some ts =>
          match utc_date ts with
          | Some d => isoformat d
          | None => "unknown"
          end
      | None => "unknown"
      end
  | _ => "unknown"
  end.

(** [_date_from_url(url)]; it raises when [urlparse] does, which the
    function does not catch. *)
Definition _date_from_url (url : string) : outcome string :=
  match url_query url with
  | Raises => Raises
  | Beyond => Beyond
  | Returns query =>
      match parse_qs query with
      | Some qs => Returns (date_of_values (Dict.get "t" qs))
      | None => Beyond
      end
  end.

End Records.

(* ================================================================= *)
(** ** Notions used to state the properties *)

Module Notions.

Section Learnt.
Context {B : Js.Builtins}.

(** What the script returns when its three constants are the value text,
    the label and the unit (or the empty text) of [lv]. *)
Definition found (page : Mapper.Page B) (lv : Parser.LabelValue)
  : list (Script.Candidate (B := B)) :=
  Script.SELECTOR_JS (Mapper.document page) (Parser.value_str lv)
    (Parser.label lv)
    (match Parser.unit lv with Some u => u | None => "" end).

(** The map after the entries of [labels] are stored in [selectors], one
    after the other, each with what the script finds for it. *)
Fixpoint learnt (page : Mapper.Page B) (labels : list Parser.LabelValue)
         (selectors : Dict.dict (Dict.dict string))
  : Dict.dict (Dict.dict string) :=
  match labels with
  | [] => selectors
  | lv :: labels' =>
      learnt page labels'
             (Dict.set (Parser.label lv)
                       (Mapper.learn_entry (found page lv) lv) selectors)
  end.

End Learnt.

(** The last record of [labels] whose label is [k]. *)
Fixpoint last_with (k : string) (labels : list Parser.LabelValue)
  : option Parser.LabelValue :=
  match labels with
  | [] => None
  | lv :: labels' =>
      match last_with k labels' with
      | Some lv' => Some lv'
      | None => if String.eqb (Parser.label lv) k then Some lv else None
      end
  end.

(** *** Numerals *)

(** A non-empty run of decimal digits. *)
Definition digits (s : string) : bool :=
  Str.truthy s && Str.forallb Str.is_digit s.

(** The texts the number pattern matches in full: an optional sign, digits,
    and optionally a dot followed by digits. *)
Definition numeral (n : string) : Prop :=
  exists sg ip fr,
    n = sg ++ ip ++ fr
    /\ (sg = "" \/ sg = "+" \/ sg = "-")
    /\ digits ip = true
    /\ (fr = "" \/ exists fp, fr = String "." fp /\ digits fp = true).

(** A text after which a numeral cannot go on: it is empty or starts with
    neither a digit nor a dot. *)
Definition ends_number (rest : string) : bool :=
  match rest with
  | EmptyString => true
  | String c _ => negb (Str.is_digit c) && negb (Parser.is_dot c)
  end.

(** A unit as the report parser produces it: letters and percent signs. *)
Definition unit_word (u : option string) : Prop :=
  forall s, u = Some s -> Str.forallb Parser.unit_char s = true.

(** A record as the report parser produces it. *)
Definition well_formed (lv : Parser.LabelValue) : Prop :=
  numeral (Parser.value_str lv) /\ unit_word (Parser.unit lv).

(** *** Calendar dates *)

Local Open Scope Z_scope.

(** The days before 1 January of year [y] (proleptic Gregorian calendar). *)
Definition days_before_year (y : Z) : Z :=
  let p := y - 1 in p * 365 + p / 4 - p / 100 + p / 400.

(** The days of year [y] before the first of month [m]. *)
Definition days_before_month (y m : Z) : Z :=
  Records.days_before_month_table m
  + (if (2 <? m) && Records.is_leap y then 1 else 0).

(** The ordinal of a date: day 1 is 0001-01-01. *)
Definition ymd2ord (d : Records.date) : Z :=
  days_before_year (Records.year d)
  + days_before_month (Records.year d) (Records.month d)
  + Records.day d.

(** A date of the calendar. *)
Definition valid_date (d : Records.date) : bool :=
  (1 <=? Records.month d) && (Records.month d <=? 12)
  && (1 <=? Records.day d)
  && (Records.day d <=? Records.days_in_month (Records.year d) (Records.month d)).

(** The same date, [q] cycles of 400 years later. *)
Definition later400 (q : Z) (d : Records.date) : Records.date :=
  Records.mkDate (Records.year d + 400 * q) (Records.month d) (Records.day d).

(** The month and the day of the [n]-th day (from 0) of a year, as
    [_ord2ymd] finds them from an estimate of the month. *)
Definition month_day (leapyear : bool) (n : Z) : Z * Z :=
  let m := Z.shiftr (n + 50) 5 in
  let preceding :=
    Records.days_before_month_table m
    + (if (2 <? m) && leapyear then 1 else 0) in
  if n <? preceding then
    let m := m - 1 in
    let preceding :=
      preceding
      - ((if m =? 2 then 28
          else if (m =? 4) || (m =? 6) || (m =? 9) || (m =? 11) then 30
          else 31)
         + (if (m =? 2) && leapyear then 1 else 0)) in
    (m, n - preceding + 1)
  else (m, n - preceding + 1).

(** What is checked, by evaluation, on each day [n] of a year: the month and
    the day found are those of the [n]-th day. *)
Definition year_day_ok (leapyear : bool) (n : Z) : bool :=
  let '(m, d) := month_day leapyear n in
  (Records.days_before_month_table m
   + (if (2 <? m) && leapyear then 1 else 0) + d =? n + 1)
  && (1 <=? m) && (m <=? 12) && (1 <=? d)
  && (d <=? (if m =? 2 then (if leapyear then 29 else 28)
             else if (m =? 4) || (m =? 6) || (m =? 9) || (m =? 11) then 30
             else 31)).

(** [f] holds on the [k] integers from [z] on. *)
Fixpoint all_from (f : Z -> bool) (k : nat) (z : Z) : bool :=
  match k with
  | O => true
  | S k' => if f z then all_from f k' (z + 1) else false
  end.

(** The timestamps [datetime] can represent in UTC:
    0001-01-01T00:00:00 to 9999-12-31T23:59:59. *)
Definition representable (ts : Z) : Prop :=
  -62135596800 <= ts <= 253402300799.

Local Close Scope Z_scope.

Section Scores.
Context {B : Js.Builtins}.

(** The area of a layout box: [rect.width * rect.height]. *)
Definition area (r : Dom.Rect B) : Js.num B :=
  Js.mul B (Dom.width r) (Dom.height r).

(** The comparator of a descending sort on [key]:
    [(a, b) => key(b) - key(a)]. *)
Definition by_key {A : Type} (key : A -> Js.num B) (a b : A) : Js.num B :=
  Js.sub B (key b) (key a).

(** [a] is not below [b] on [key]. *)
Definition key_ge {A : Type} (key : A -> Js.num B) (a b : A) : Prop :=
  Js.leb B (key b) (key a) = true.

(** The key of [a] is [v]. *)
Definition key_is {A : Type} (key : A -> Js.num B) (v : Js.num B) (a : A)
  : bool :=
  Js.leb B v (key a) && Js.leb B (key a) v.

(** Every layout box of the document has an area that is a number (not
    NaN). *)
Definition boxes_comparable (doc : Dom.Document B) : Prop :=
  forall h el,
    Dom.resolve doc h = Some el -> Js.comparable B (area (Dom.rect el)).

(** [a] does not score lower than [b]. *)
Definition not_lower (a b : Script.Candidate (B := B)) : Prop :=
  Js.leb B (Script.score b) (Script.score a) = true.

(** The candidate's score is [v]. *)
Definition scores (v : Js.num B) (c : Script.Candidate (B := B)) : bool :=
  Js.leb B v (Script.score c) && Js.leb B (Script.score c) v.

End Scores.

End Notions.

(* ================================================================= *)
(** ** The selectors [cssPath] writes, and the elements they select *)

Module Css.
Import Dom.

Section WithBuiltins.
Context {B : Js.Builtins}.

Local Abbreviation Element := (Dom.Element B).
Local Abbreviation Document := (Dom.Document B).

(** A compound selector [tag.c1.c2:nth-of-type(n)]: a type, class names,
    and optionally a position among the siblings of that type. *)
Record compound : Type := mkCompound {
  ctag : string;
  ccls : list string;
  cnth : option nat
}.

(** The two forms of selector [cssPath] writes: [#ident], and compounds
    joined by the child combinator [>], here innermost first. *)
Inductive selector : Type :=
| ById (ident : string)
| ByPath (cs : list compound).

Definition render_compound (c : compound) : string :=
  ctag c
  ++ Str.join "" (List.map (fun k => "." ++ Js.CSS_escape B k) (ccls c))
  ++ match cnth c with
     | Some n => ":nth-of-type(" ++ Str.of_nat n ++ ")"
     | None => ""
     end.

(** The text of a selector. *)
Definition render (s : selector) : string :=
  match s with
  | ById ident => "#" ++ Js.CSS_escape B ident
  | ByPath cs => Str.join " > " (rev (List.map render_compound cs))
  end.

(** The position, from 1, of the [i]-th child of [parent] among the
    children of its type. *)
Definition type_index (parent cur : Element) (i : nat) : nat :=
  (List.length
     (filter (fun x => String.eqb (Str.lower (tagName x))
                                  (Str.lower (tagName cur)))
             (firstn i (children parent))) + 1)%nat.

(** Whether the element at [h] matches a compound: it has the type and
    every class, and sits at the position among its siblings of that type
    (the root, without siblings, is the first of its type). *)
Definition matches_compound (doc : Document) (c : compound) (h : handle)
  : bool :=
  match resolve doc h with
  | None => false
  | Some e =>
      String.eqb (Str.lower (tagName e)) (ctag c)
      && forallb (fun k => existsb (String.eqb k) (classList e)) (ccls c)
      && match cnth c with
         | None => true
         | Some n =>
             match h with
             | i :: ph =>
                 match resolve doc ph with
                 | Some parent => (type_index parent e i =? n)%nat
                 | None => false
                 end
             | [] => (n =? 1)%nat
             end
         end
  end.

(** [A > B]: the element matches [B] and its parent matches [A]. *)
Fixpoint matches_path (doc : Document) (cs : list compound) (h : handle)
  : bool :=
  match cs with
  | [] => false
  | c :: cs' =>
      matches_compound doc c h
      && match cs' with
         | [] => true
         | _ :: _ =>
             match h with
             | _ :: ph => matches_path doc cs' ph
             | [] => false
             end
         end
  end.

Definition matches (doc : Document) (s : selector) (h : handle) : bool :=
  match s with
  | ById ident =>
      match resolve doc h with
      | Some e => String.eqb (id e) ident
      | None => false
      end
  | ByPath cs => matches_path doc cs h
  end.

(** [document.querySelector]: the first element, in document order, that
    the selector matches. *)
Definition select (doc : Document) (s : selector) : option handle :=
  find (matches doc s) (all_elements doc).

(** The compound [cssPath] writes for the element [cur] at [h]. *)
Definition compound_of (doc : Document) (h : handle) (cur : Element)
  : compound :=
  mkCompound
    (Str.lower (tagName cur))
    (firstn 2
       (filter (fun c => Str.truthy c && negb (Str.existsb Str.is_digit c))
               (classList cur)))
    (match h with
     | i :: ph =>
         match resolve doc ph with
         | Some parent => Some (type_index parent cur i)
         | None => None
         end
     | [] => None
     end).

(** The compounds [cssPath] collects from [h] upwards when it has [n]
    already, innermost first. *)
Fixpoint chain (doc : Document) (h : handle) (n : nat) : list compound :=
  match resolve doc h with
  | None => []
  | Some cur =>
      if Script.is_body doc h then []
      else
        let c := compound_of doc h cur in
        match h with
        | [] => [c]
        | _ :: ph =>
            if (6 <? S n)%nat then [c] else c :: chain doc ph (S n)
        end
  end.

(** The selector whose text is [cssPath(el)]. *)
Definition selector_at (doc : Document) (h : handle) : selector :=
  match resolve doc h with
  | None => ByPath []
  | Some e =>
      if Script.unique_id doc e then ById (id e)
      else ByPath (chain doc h 0)
  end.

(** The element at [h] is the first one, in document order, that its own
    selector matches. *)
Definition first_to_match (doc : Document) (h : handle) : Prop :=
  exists before after,
    all_elements doc = (before ++ h :: after)%list
    /\ forallb (fun h' => negb (matches doc (selector_at doc h) h')) before
       = true.

(** A browser that is handed the texts of the selectors [known] only, and
    resolves each as [document.querySelector] does. *)
Definition resolver (doc : Document) (known : list selector) (sel : string)
  : option handle :=
  match find (fun s => String.eqb (render s) sel) known with
  | Some s => select doc s
  | None => None
  end.

End WithBuiltins.

Arguments render_compound : clear implicits.
Arguments render : clear implicits.

End Css.

(* ================================================================= *)
(** ** Sample pages *)

Module Samples.
Import Dom.

(** binary64 numbers; the class names and identifiers of the samples are
    plain words, which [CSS.escape] leaves as they are. *)
Definition FB : Js.Builtins := Js.FloatBuiltins (fun s => s).
Definition RB : Js.Builtins := Js.RealBuiltins (fun s => s).

Definition box (B : Js.Builtins) (w h : Z) : Rect B :=
  mkRect (Js.lit B 0) (Js.lit B 0) (Js.lit B w) (Js.lit B h).

(** A displayed element whose [innerText] and [textContent] agree. *)
Definition node (B : Js.Builtins) (tag ident : string) (cls : list string)
           (w h : Z) (text : string) (kids : list (Element B)) : Element B :=
  mkElement tag ident cls "visible" "block" (box B w h) text text kids.

(** A body-composition report:
<<
  <html><head><title>Report</title></head>
  <body>
    <div class="row"><span class="label">Weight</span><span class="value">62.5kg</span></div>
    <div class="row"><span class="label">Height</span><span class="value">171.0 cm</span></div>
    <p>BMI 21.4 (normal 18.5-24.9)</p>
  </body></html>
>> *)
Definition report (B : Js.Builtins) : Document B :=
  mkDocument
    (node B "HTML" "" [] 1280 4000 "Report Weight62.5kg Height171.0 cm BMI 21.4 (normal 18.5-24.9)"
       [ node B "HEAD" "" [] 0 0 "Report" [ node B "TITLE" "" [] 0 0 "Report" [] ];
         node B "BODY" "" [] 1280 4000 "Weight62.5kg Height171.0 cm BMI 21.4 (normal 18.5-24.9)"
           [ node B "DIV" "" ["row"] 1280 20 "Weight62.5kg"
               [ node B "SPAN" "" ["label"] 60 20 "Weight" [];
                 node B "SPAN" "" ["value"] 50 20 "62.5kg" [] ];
             node B "DIV" "" ["row"] 1280 20 "Height171.0 cm"
               [ node B "SPAN" "" ["label"] 60 20 "Height" [];
                 node B "SPAN" "" ["value"] 70 20 "171.0 cm" [] ];
             node B "P" "" [] 1280 20 "BMI 21.4 (normal 18.5-24.9)" [] ] ]).

(** The browser's resolution of the selectors that occur on [report]. *)
Definition report_query (sel : string) : option handle :=
  if String.eqb sel "div.row:nth-of-type(1) > span.value:nth-of-type(2)"
  then Some [1; 0; 1]%nat
  else if String.eqb sel "div.row:nth-of-type(2) > span.value:nth-of-type(2)"
  then Some [1; 1; 1]%nat
  else if String.eqb sel "p:nth-of-type(1)"
  then Some [2; 1]%nat
  else None.

Definition report_page (B : Js.Builtins) : Mapper.Page B :=
  Mapper.mkPage (report B) report_query.

(** A browser in which every navigation ends on [report_page]. *)
Definition report_goto (B : Js.Builtins) (url : string)
  : option (Mapper.Page B) :=
  Some (report_page B).

Definition report_url : string := "https://example.org/report?id=1&t=1758251593".

(** The report text the page was rendered from. *)
Definition report_lines : list string :=
  ["Name: A. Person"; "Weight: 62.5 kg"; "Height: 171.0 cm"; "Normal from: 18.5"].

(** The record of the line "Weight: 62.5 kg", and the candidate the script
    ranks first for it on [report]. *)
Definition weight : Parser.LabelValue :=
  Parser.mkLabelValue "Weight" "62.5" (Some 62.5%float) (Some "kg").

Definition weight_winner : Script.Candidate (B := FB) :=
  Script.mkCandidate
    "62.5kg" "div.row:nth-of-type(1) > span.value:nth-of-type(2)"
    (box FB 50 20) (Script.score_of Script.exact_unit (box FB 50 20) true).

(** A stored map with one learnt selector and one recorded miss. *)
Definition stored : Dict.dict (Dict.dict string) :=
  [ ("Weight",
     Mapper.entry "div.row:nth-of-type(1) > span.value:nth-of-type(2)" "62.5");
    ("Height", Mapper.entry "" "171.0") ].

(** A value nested eight levels below the body. *)
Fixpoint nest (B : Js.Builtins) (n : nat) (leaf : Element B) : Element B :=
  match n with
  | O => leaf
  | S n' => node B "DIV" "" [] 100 20 "5" [nest B n' leaf]
  end.

Definition deep (B : Js.Builtins) : Document B :=
  mkDocument
    (node B "HTML" "" [] 1280 4000 "5"
       [ node B "HEAD" "" [] 0 0 "" [];
         node B "BODY" "" [] 1280 4000 "5"
           [ nest B 7 (node B "SPAN" "" [] 10 20 "5" []) ] ]).

Definition deep_leaf : handle := [0; 0; 0; 0; 0; 0; 0; 0; 1]%nat.

(** Two elements showing the same number: a small one, and a larger one
    that sits next to its label. *)
Definition small_box (B : Js.Builtins) : Rect B := box B 100 100.
Definition large_box (B : Js.Builtins) : Rect B := box B 200 200.

(** A page that shows the weight twice: large next to its label, small in a
    footer.
<<
  <body>
    <div><span>Weight</span><span class="big">62.5</span></div>
    <div><span>62.5</span></div>
  </body>
>> *)
Definition twice (B : Js.Builtins) : Document B :=
  mkDocument
    (node B "HTML" "" [] 1280 4000 "Weight 62.5 62.5"
       [ node B "HEAD" "" [] 0 0 "" [];
         node B "BODY" "" [] 1280 4000 "Weight 62.5 62.5"
           [ node B "DIV" "" [] 1280 200 "Weight 62.5"
               [ node B "SPAN" "" [] 100 200 "Weight" [];
                 mkElement "SPAN" "" ["big"] "visible" "inline"
                           (large_box B) "62.5" "62.5" [] ];
             node B "DIV" "" [] 1280 100 "62.5"
               [ mkElement "SPAN" "" [] "visible" "inline"
                           (small_box B) "62.5" "62.5" [] ] ] ]).

(** A page on which the path of the value also matches an earlier element.
<<
  <body>
    <section><div><span>11</span></div></section>
    <div><span>62.5</span></div>
  </body>
>> *)
Definition ambiguous (B : Js.Builtins) : Document B :=
  mkDocument
    (node B "HTML" "" [] 1280 4000 "11 62.5"
       [ node B "HEAD" "" [] 0 0 "" [];
         node B "BODY" "" [] 1280 4000 "11 62.5"
           [ node B "SECTION" "" [] 1280 20 "11"
               [ node B "DIV" "" [] 1280 20 "11"
                   [ node B "SPAN" "" [] 20 20 "11" [] ] ];
             node B "DIV" "" [] 1280 20 "62.5"
               [ node B "SPAN" "" [] 40 20 "62.5" [] ] ] ]).

(** The element showing 62.5 on [ambiguous]. *)
Definition ambiguous_value : handle := [0; 1; 1]%nat.

Definition ambiguous_page (B : Js.Builtins) : Mapper.Page B :=
  Mapper.mkPage (ambiguous B)
    (Css.resolver (ambiguous B)
       [Css.selector_at (ambiguous B) ambiguous_value]).

Definition ambiguous_goto (B : Js.Builtins) (url : string)
  : option (Mapper.Page B) :=
  Some (ambiguous_page B).

(** A page showing the text "10", and a record that is not one of the
    report parser: its unit is "0".
<<
  <body><p>10</p></body>
>> *)
Definition ten (B : Js.Builtins) : Document B :=
  mkDocument
    (node B "HTML" "" [] 1280 4000 "10"
       [ node B "HEAD" "" [] 0 0 "" [];
         node B "BODY" "" [] 1280 4000 "10"
           [ node B "P" "" [] 1280 20 "10" [] ] ]).

Definition ten_value : handle := [0; 1]%nat.

Definition ten_page (B : Js.Builtins) : Mapper.Page B :=
  Mapper.mkPage (ten B)
    (Css.resolver (ten B) [Css.selector_at (ten B) ten_value]).

Definition ten_goto (B : Js.Builtins) (url : string)
  : option (Mapper.Page B) :=
  Some (ten_page B).

Definition one_with_unit_zero : Parser.LabelValue :=
  Parser.mkLabelValue "Count" "1" (Some 1%float) (Some "0").

(** A page that shows the value seven times, in items of several widths.
<<
  <body><ul>
    <li>62.5</li> (50 wide)   <li>62.5</li> (50 wide)   <li>62.5</li> (40 wide)
    <li>62.5</li> (50 wide)   <li>62.5</li> (100 wide)  <li>62.5</li> (40 wide)
    <li>62.5</li> (200 wide)
  </ul></body>
>> *)
Definition crowded (B : Js.Builtins) : Document B :=
  mkDocument
    (node B "HTML" "" [] 1280 4000 "62.5 62.5 62.5 62.5 62.5 62.5 62.5"
       [ node B "HEAD" "" [] 0 0 "" [];
         node B "BODY" "" [] 1280 4000 "62.5 62.5 62.5 62.5 62.5 62.5 62.5"
           [ node B "UL" "" [] 1280 140 "62.5 62.5 62.5 62.5 62.5 62.5 62.5"
               [ node B "LI" "" [] 50 20 "62.5" [];
                 node B "LI" "" [] 50 20 "62.5" [];
                 node B "LI" "" [] 40 20 "62.5" [];
                 node B "LI" "" [] 50 20 "62.5" [];
                 node B "LI" "" [] 100 20 "62.5" [];
                 node B "LI" "" [] 40 20 "62.5" [];
                 node B "LI" "" [] 200 20 "62.5" [] ] ] ]).

(** A report that gives the weight twice, and a pulse the page does not
    show. *)
Definition repeated_lines : list string :=
  ["Weight: 60.0 kg"; "Height: 171.0 cm"; "Weight: 62.5 kg"; "Pulse: 70"].

End Samples.

(* ================================================================= *)
(** ** The records file and the batch loop of [main] *)

Module Batch.

(** The characters at which [str.splitlines] breaks a text (code points
    below 256); a carriage return followed by a newline is one break. *)
Definition is_linebreak (c : ascii) : bool :=
  Str.in_range 10 13 c || Str.in_range 28 30 c || (Str.code c =? 133)%nat.

(** [s.splitlines()], with [cur] the line read so far. *)
Fixpoint splitlines_from (s : string) (cur : string) : list string :=
  match s with
  | EmptyString => if Str.truthy cur then [cur] else []
  | String c s' =>
      if Ascii.eqb c "013" then
        match s' with
        | String "010" s'' => cur :: splitlines_from s'' EmptyString
        | _ => cur :: splitlines_from s' EmptyString
        end
      else if is_linebreak c then cur :: splitlines_from s' EmptyString
      else splitlines_from s' (cur ++ String c EmptyString)
  end.

Definition splitlines (s : string) : list string :=
  splitlines_from s EmptyString.

(** The loop of [_read_records_file] over the lines of the file. *)
Fixpoint read_records_lines (lines : list string) : list string :=
  match lines with
  | [] => []
  | raw :: lines' =>
      let s := Str.strip Str.py_isspace raw in
      if negb (Str.truthy s) || Str.startswith "#" s
      then read_records_lines lines'
      else s :: read_records_lines lines'
  end.

(** [_read_records_file(path)]; [file] is the text of the file, [None] when
    [path.exists()] is false. *)
Definition _read_records_file (file : option string) : list string :=
  match file with
  | None => []
  | Some text => read_records_lines (splitlines text)
  end.

(** [d.setdefault(k, []).append(x)] *)
Definition setdefault_append {V : Type} (k : string) (x : V)
           (d : Dict.dict (list V)) : Dict.dict (list V) :=
  match Dict.get k d with
  | Some l => Dict.set k (l ++ [x])%list d
  | None => Dict.set k [x] d
  end.

(** [{"url": u, "labels": res}] *)
Record url_record : Type := mkUrlRecord {
  url : string;
  labels : Dict.dict (option float)
}.

Section WithBrowser.
Context {B : Js.Builtins}.
Context (goto : string -> option (Mapper.Page B)).

(** The loop of [main] over the URLs of the records file, from the groups
    built so far; it raises when [apply_selectors] or [_date_from_url]
    does, which ends [main]. *)
Fixpoint group_records (template : Dict.dict (Dict.dict string))
         (urls : list string) (grouped : Dict.dict (list url_record))
  : Outcome.outcome (Dict.dict (list url_record)) :=
  match urls with
  | [] => Outcome.Returns grouped
  | u :: urls' =>
      match Mapper.apply_selectors goto u template with
      | None => Outcome.Raises
      | Some res =>
          match Records._date_from_url u with
          | Outcome.Raises => Outcome.Raises
          | Outcome.Beyond => Outcome.Beyond
          | Outcome.Returns d =>
              group_records template urls'
                            (setdefault_append d (mkUrlRecord u res) grouped)
          end
      end
  end.

End WithBrowser.
End Batch.

(* ================================================================= *)
(** ** The registry of report URLs ([records.py]) *)

Module Registry.

(** [RecordsType = Dict[str, List[str]]] *)
Definition RecordsType : Type := Dict.dict (list string).

(** [_add(record_map, url)]: the map after the call; it raises when
    [_date_from_url] does. *)
Definition _add (record_map : RecordsType) (url : string)
  : Outcome.outcome RecordsType :=
  match Records._date_from_url url with
  | Outcome.Returns d =>
      Outcome.Returns (Batch.setdefault_append d url record_map)
  | Outcome.Raises => Outcome.Raises
  | Outcome.Beyond => Outcome.Beyond
  end.

(** A sequence of [_add] calls on the same map, as at the top level of the
    module. *)
Fixpoint add_all (record_map : RecordsType) (urls : list string)
  : Outcome.outcome RecordsType :=
  match urls with
  | [] => Outcome.Returns record_map
  | u :: urls' =>
      match _add record_map u with
      | Outcome.Returns m => add_all m urls'
      | Outcome.Raises => Outcome.Raises
      | Outcome.Beyond => Outcome.Beyond
      end
  end.

(** The URLs registered in the module. *)
Definition registered : list string :=
  [ "https://www.fitmao.com/index.php?m=renti&a=print&iscan=1&origin=3&dzid=&f=en&id=1480724&rpkey=2391025a97cc5f206e3ae349918df2f93da64d86&t=1758251593";
    "https://www.fitmao.com/index.php?m=renti&a=print&iscan=1&origin=3&dzid=&f=en&id=1474622&rpkey=7cb62675e56528ff71c7a9145d064ed0e3795754&t=1757993136";
    "https://www.fitmao.com/index.php?m=renti&a=print&iscan=1&origin=3&dzid=&f=en&id=1469636&rpkey=ee82e5014e9f518e5eda37ad4a8a4d083620c3eb&t=1757765058";
    "https://www.fitmao.com/index.php?m=renti&a=print&iscan=1&origin=3&id=1488031&ishis=0&rpkey=8ee55553b10ef4e3a94df66fe5783a3040a196d5&f=en" ].

(** [RECORDS] after the four [_add] calls. *)
Definition RECORDS : Outcome.outcome RecordsType := add_all [] registered.

(** [get_records()] *)
Definition get_records : Outcome.outcome RecordsType := RECORDS.

End Registry.

(* ================================================================= *)
(** ** Further notions used to state properties *)

Module MoreNotions.

(** [n] occurs in [t]. *)
Definition occurs_in (n t : string) : Prop := exists a b, t = a ++ n ++ b.

(** Whether the date key of [u] is [d]. *)
Definition dated (d : string) (u : string) : bool :=
  match Records._date_from_url u with
  | Outcome.Returns d' => String.eqb d' d
  | _ => false
  end.

(** The date key of [u], for a URL that has one. *)
Definition date_key (u : string) : string :=
  match Records._date_from_url u with
  | Outcome.Returns d => d
  | _ => EmptyString
  end.

(** [_date_from_url] returns on [u]. *)
Definition has_key (u : string) : Prop :=
  exists d, Records._date_from_url u = Outcome.Returns d.

(** The URL loads and has a date key. *)
Definition grouped_url {B : Js.Builtins}
           (goto : string -> option (Mapper.Page B)) (u : string) : Prop :=
  goto u <> None /\ has_key u.

(** Grouping by a key, in list order: what a run of
    [setdefault(key, []).append(x)] builds from [d]. *)
Fixpoint group_by {A : Type} (key : A -> string) (xs : list A)
         (d : Dict.dict (list A)) : Dict.dict (list A) :=
  match xs with
  | [] => d
  | x :: xs' => group_by key xs' (Batch.setdefault_append (key x) x d)
  end.

(** The keys [ks] in order, without those in [seen] and without
    repetitions: the order in which a dictionary that starts with the keys
    [seen] gets its new keys when [ks] are inserted one by one. *)
Fixpoint first_occurrences (seen ks : list string) : list string :=
  match ks with
  | [] => []
  | k :: ks' =>
      if List.existsb (String.eqb k) seen then first_occurrences seen ks'
      else k :: first_occurrences (seen ++ [k]) ks'
  end.

(** The selector of a stored entry: [meta.get("selector") or ""]. *)
Definition selector_of (meta : Dict.dict string) : string :=
  match Dict.get "selector" meta with
  | Some s => s
  | None => EmptyString
  end.

(** *** Scanning a number by hand *)

(** The longest prefix of [s] made of characters in [p], and what follows
    it. *)
Fixpoint span (p : ascii -> bool) (s : string) : string :=
  match s with
  | String c s' => if p c then String c (span p s') else EmptyString
  | EmptyString => EmptyString
  end.

Fixpoint after (p : ascii -> bool) (s : string) : string :=
  match s with
  | String c s' => if p c then after p s' else s
  | EmptyString => EmptyString
  end.

Definition starts_with (p : ascii -> bool) (s : string) : bool :=
  match s with
  | String c _ => p c
  | EmptyString => false
  end.

(** The fraction at the front of [r]: a dot and the digits after it, when
    there is a dot followed by a digit. *)
Definition fraction (r : string) : string :=
  match r with
  | String c r1 =>
      if Parser.is_dot c && starts_with Str.is_digit r1
      then String c (span Str.is_digit r1)
      else EmptyString
  | EmptyString => EmptyString
  end.

(** The digits at the front of [s] and the fraction after them. *)
Definition unsigned_number (s : string) : string :=
  span Str.is_digit s ++ fraction (after Str.is_digit s).

(** The longest numeral at the front of [s], if [s] starts with one. *)
Definition number_at (s : string) : option string :=
  match s with
  | EmptyString => None
  | String c s1 =>
      if Parser.is_sign c then
        if starts_with Str.is_digit s1
        then Some (String c (unsigned_number s1))
        else None
      else if Str.is_digit c then Some (unsigned_number s)
      else None
  end.

(** [s] without its first [n] characters. *)
Fixpoint drop (n : nat) (s : string) : string :=
  match n, s with
  | S n', String _ s' => drop n' s'
  | _, _ => s
  end.

End MoreNotions.

(* ================================================================= *)
(** ** Notions used to state what a report line yields *)

Module LineNotions.

(** The lines [parse_important] skips by their start: name, gender and
    time/date, in any letter case. *)
Definition metadata (s : string) : bool :=
  Str.startswith "name:" (Str.lower s)
  || Str.startswith "gender:" (Str.lower s)
  || Str.startswith "time/date" (Str.lower s).

(** The longest suffix of [s] made of characters in [p]. *)
Fixpoint trailing (p : ascii -> bool) (s : string) : string :=
  match s with
  | EmptyString => EmptyString
  | String _ s' => if Str.forallb p s then s else trailing p s'
  end.

(** The characters of a numeral: signs, digits and the dot. *)
Definition numeral_char (c : ascii) : bool :=
  Parser.is_sign c || Str.is_digit c || Parser.is_dot c.

(** A text as an optional value: [None] when it is empty. *)
Definition nonempty (s : string) : option string :=
  if Str.truthy s then Some s else None.

(** Whether a line has what it takes to yield a record: stripped, it
    starts with a letter or a slash and is not a metadata line, and it has
    a decimal digit. *)
Definition qualifies (raw : string) : bool :=
  MoreNotions.starts_with Parser.label_char (Str.strip Str.py_isspace raw)
  && Str.existsb Str.is_digit raw
  && negb (metadata (Str.strip Str.py_isspace raw)).

(** The label of a line: the run of letters, spaces and slashes at the
    start of the stripped line, stripped. *)
Definition label_of (raw : string) : string :=
  Str.strip Str.py_isspace
    (MoreNotions.span Parser.label_char (Str.strip Str.py_isspace raw)).

(** The unit of a line: the letters and percent signs that end the stripped
    line, if any. *)
Definition unit_of (raw : string) : option string :=
  nonempty (trailing Parser.unit_char (Str.strip Str.py_isspace raw)).

End LineNotions.

(** A report text of two lines, the first one a name line. *)
Module MoreSamples.

Definition two_lines : string :=
  "Name: A. Person" ++ String "010" "Weight: 62.5 kg".

End MoreSamples.

(* ================================================================= *)
(** ** Notions used to state what the script collects *)

Module DomNotions.
Import Dom.

Section WithBuiltins.
Context {B : Js.Builtins}.

(** Whether an element met on the way from [e] along [path], the last one
    apart, is a [body]: the element at the end of [path] then has a [body]
    ancestor at or below [e]. *)
Fixpoint body_above (e : Element B) (path : list nat) : bool :=
  match path with
  | [] => false
  | i :: path' =>
      has_tag "body" e
      || match nth_error (children e) i with
         | Some c => body_above c path'
         | None => false
         end
  end.

(** The element [h] of [doc] has a [body] ancestor: what the selector
    [body *] asks for. *)
Definition under_body (doc : Document B) (h : handle) : bool :=
  body_above (documentElement doc) (rev h).

(** A leaf under a [body] that is displayed and whose text is not empty and
    contains [numStr]: what the script keeps as a candidate. *)
Definition shows (doc : Document B) (numStr : string) (h : handle)
           (el : Element B) : Prop :=
  resolve doc h = Some el
  /\ under_body doc h = true
  /\ children el = []
  /\ Script.isVisible el = true
  /\ Script.textOf el <> ""
  /\ MoreNotions.occurs_in numStr (Script.textOf el).

End WithBuiltins.
End DomNotions.

(* ================================================================= *)
(** ** Notions used to state how URLs are dated *)

Module DateNotions.

(** The timestamp [_date_from_url] reads: the integer value of the first
    [t] parameter of the query, if there is one. *)
Definition timestamp (url : string) : option Z :=
  match Records.url_query url with
  | Outcome.Returns query =>
      match Records.parse_qs query with
      | Some qs =>
          match Dict.get "t" qs with
          | Some (t0 :: _) => Records.pyint t0
          | _ => None
          end
      | None => None
      end
  | _ => None
  end.

(** A run of exactly [w] decimal digits. *)
Definition digit_field (w : nat) (s : string) : Prop :=
  String.length s = w /\ Str.forallb Str.is_digit s = true.

End DateNotions.

(* ================================================================= *)
(** * Properties *)

(** ** Strings *)

Module StrFacts.
Import Str.

Lemma rstrip_idem (sp : ascii -> bool) (s : string) :
  rstrip sp (rstrip sp s) = rstrip sp s.
Proof.
  induction s as [| c s IH]; simpl; [reflexivity |].
  destruct (rstrip sp s) as [| a r] eqn:E.
  - destruct (sp c) eqn:Ec; simpl; [reflexivity | now rewrite Ec].
  - change (rstrip sp (String c (String a r))) with
      (match rstrip sp (String a r) with
       | EmptyString => if sp c then EmptyString else String c EmptyString
       | r' => String c r'
       end).
    now rewrite IH.
Qed.

Lemma rstrip_keeps_head (sp : ascii -> bool) (c : ascii) (s : string) :
  sp c = false -> exists r, rstrip sp (String c s) = String c r.
Proof.
  intros Hc. simpl. destruct (rstrip sp s) as [| a r].
  - rewrite Hc. now exists EmptyString.
  - now exists (String a r).
Qed.

Lemma lstrip_head (sp : ascii -> bool) (s : string) (c : ascii) (r : string) :
  lstrip sp s = String c r -> sp c = false.
Proof.
  induction s as [| a s IH]; simpl; [discriminate |].
  destruct (sp a) eqn:Ea; [exact IH |].
  intros H. injection H as <- _. exact Ea.
Qed.

(** Stripping is idempotent: a stripped text has nothing left to strip. *)
Lemma strip_idem (sp : ascii -> bool) (s : string) :
  strip sp (strip sp s) = strip sp s.
Proof.
  unfold strip. destruct (lstrip sp s) as [| c u] eqn:E; [reflexivity |].
  pose proof (lstrip_head _ _ _ _ E) as Hc.
  destruct (rstrip_keeps_head sp c u Hc) as [r Hr].
  rewrite Hr. simpl lstrip. rewrite Hc. rewrite <- Hr. apply rstrip_idem.
Qed.

Lemma truthy_true (s : string) : truthy s = true <-> s <> EmptyString.
Proof. destruct s; simpl; split; congruence. Qed.

Lemma take_app (s r : string) : take (String.length s) (s ++ r) = s.
Proof. induction s as [| c s IH]; simpl; [now destruct r | now rewrite IH]. Qed.

Lemma append_assoc (a b c : string) : (a ++ b) ++ c = a ++ b ++ c.
Proof. induction a as [| x a IH]; simpl; [reflexivity | now rewrite IH]. Qed.

Lemma append_nil_r (a : string) : a ++ "" = a.
Proof. induction a as [| x a IH]; simpl; [reflexivity | now rewrite IH]. Qed.

Lemma length_append (a b : string) :
  String.length (a ++ b) = (String.length a + String.length b)%nat.
Proof. induction a as [| x a IH]; simpl; [reflexivity | now rewrite IH]. Qed.

Lemma forallb_append (p : ascii -> bool) (a b : string) :
  forallb p (a ++ b) = forallb p a && forallb p b.
Proof.
  induction a as [| x a IH]; simpl; [reflexivity |].
  now rewrite IH, andb_assoc.
Qed.

End StrFacts.

(* ================================================================= *)
(** ** The report parser *)

Module ParserSpec.
Import Parser.

(** C7. The report line "Weight: 62.5 kg" yields exactly the record with
    label "Weight", value_str "62.5", value_float 62.5 and unit "kg": the
    line pattern splits it into the label "Weight" and the remainder
    "62.5 kg"; the first match of the number pattern in the remainder is
    "62.5", whose float is 62.5; the trailing run of letters or percent signs
    of the remainder is "kg". *)
Theorem weight_line_parses :
  parse_important ["Weight: 62.5 kg"]
  = [mkLabelValue "Weight" "62.5" (Some 62.5%float) (Some "kg")]
  /\ option_map (fun m => (Re.group 1 m, Re.group 2 m))
                (Re.rmatch LineRe "Weight: 62.5 kg")
     = Some ("Weight", "62.5 kg")
  /\ option_map (Re.group 0) (Re.search NumberRe "62.5 kg") = Some "62.5"
  /\ pyfloat "62.5" = Some 62.5%float
  /\ option_map (Re.group 0) (Re.search UnitRe "62.5 kg") = Some "kg".
Proof. repeat split; vm_compute; reflexivity. Qed.

End ParserSpec.

(* ================================================================= *)
(** ** The in-page script *)

Module ScriptSpec.
Import Dom Script.

Section Paths.
Context {B : Js.Builtins}.

Lemma cssPath_loop_length (doc : Document B) (h : handle) :
  forall parts : list string,
    (List.length parts <= 6)%nat ->
    (List.length (cssPath_loop doc h parts) <= 7)%nat.
Proof.
  induction h as [| i ph IH]; intros parts Hlen; cbn [cssPath_loop].
  - destruct (resolve doc []); [| lia].
    destruct (is_body doc []); cbn [List.length]; lia.
  - destruct (resolve doc (i :: ph)) as [cur |]; [| lia].
    destruct (is_body doc (i :: ph)); [lia |].
    cbn [List.length].
    destruct (Nat.ltb_spec 6 (S (List.length parts))) as [Hgt | Hle].
    + cbn [List.length]; lia.
    + apply IH. cbn [List.length]; lia.
Qed.

(** C1, as the code has it. The path of any element has at most 7
    structural segments: the walk leaves the loop once more than 6 have been
    collected, that is with 7.  The path is either the identifier locator
    (no structural segment) or the segments joined by " > ". *)
Theorem cssPath_at_most_seven_segments (doc : Document B) (el : handle) :
  (List.length (cssPath_parts doc el) <= 7)%nat
  /\ (cssPath doc el = Str.join " > " (cssPath_parts doc el)
      \/ exists e, resolve doc el = Some e
                   /\ unique_id doc e = true
                   /\ cssPath doc el = "#" ++ Js.CSS_escape B (id e)).
Proof.
  unfold cssPath_parts, cssPath.
  destruct (resolve doc el) as [e |]; [| simpl; split; [lia | now left]].
  destruct (unique_id doc e) eqn:Hid.
  - simpl; split; [lia |]. right. now exists e.
  - split; [apply cssPath_loop_length; simpl; lia | now left].
Qed.

End Paths.

(** C1, counterexample. On a page where the value sits eight levels below
    the body, the path has 7 segments, more than 6. *)
Lemma cssPath_seven_segments :
  cssPath_parts (Samples.deep Samples.FB) Samples.deep_leaf
  = ["div:nth-of-type(1)"; "div:nth-of-type(1)"; "div:nth-of-type(1)";
     "div:nth-of-type(1)"; "div:nth-of-type(1)"; "div:nth-of-type(1)";
     "span:nth-of-type(1)"]
  /\ cssPath (Samples.deep Samples.FB) Samples.deep_leaf
     = Str.join " > " (cssPath_parts (Samples.deep Samples.FB) Samples.deep_leaf)
  /\ ~ (List.length (cssPath_parts (Samples.deep Samples.FB) Samples.deep_leaf)
        <= 6)%nat.
Proof.
  split; [vm_compute; reflexivity |].
  split; [vm_compute; reflexivity |].
  vm_compute. intros H. repeat (apply le_S_n in H). inversion H.
Qed.

(** *** Match classes *)

(** C5. On a non-empty text the four outcomes are checked in order: exact
    (the trimmed text is the numeral) before exact_unit (a unit is given and
    the trimmed text is the numeral followed by the unit, with or without a
    space) before partial (the numeral occurs in the trimmed text) before
    discard; the base scores are 60, 45 and 10.  The text "62.5kg" against
    "62.5" and "kg" is an exact_unit match, and an element whose text is a
    non-empty numeral is an exact match. *)
Theorem containsNumberLike_priority (text n unit : string) :
  text <> "" ->
  let t := trim text in
  (t = n -> containsNumberLike text n unit = Some exact)
  /\ (t <> n -> unit <> "" -> (t = n ++ unit \/ t = n ++ " " ++ unit) ->
      containsNumberLike text n unit = Some exact_unit)
  /\ (t <> n -> ~ (unit <> "" /\ (t = n ++ unit \/ t = n ++ " " ++ unit)) ->
      Str.includes n t = true ->
      containsNumberLike text n unit = Some partial)
  /\ (t <> n -> ~ (unit <> "" /\ (t = n ++ unit \/ t = n ++ " " ++ unit)) ->
      Str.includes n t = false ->
      containsNumberLike text n unit = None)
  /\ (base_score exact = 60 /\ base_score exact_unit = 45
      /\ base_score partial = 10)%Z
  /\ containsNumberLike "62.5kg" "62.5" "kg" = Some exact_unit
  /\ (forall (B : Js.Builtins) (doc : Document B) (label : string)
             (h : handle) (el : Element B),
         n <> "" -> resolve doc h = Some el -> isVisible el = true ->
         textOf el = n ->
         exists c, candidate_of doc n label unit h = Some c
                   /\ elText c = n
                   /\ score c = score_of exact (rect el)
                                         (hasNeighborLabel doc h label))
  /\ (forall (B : Js.Builtins) (r : Rect B),
         score_of exact r false = Js.add B (Js.lit B 60) (areaScore r)
         /\ score_of exact r true
            = Js.add B (Js.add B (Js.lit B 60) (areaScore r)) (Js.lit B 20)).
Proof.
  intros Htext t. unfold containsNumberLike.
  apply StrFacts.truthy_true in Htext. rewrite Htext. simpl negb. fold t.
  assert (Hunit : forall b : bool,
             Str.truthy unit && b = true <-> unit <> "" /\ b = true).
  { intros b. rewrite andb_true_iff, StrFacts.truthy_true. tauto. }
  assert (Hor : (String.eqb t (n ++ unit) || String.eqb t (n ++ " " ++ unit)) = true
                <-> (t = n ++ unit \/ t = n ++ " " ++ unit)).
  { rewrite orb_true_iff, !String.eqb_eq. tauto. }
  repeat split.
  - intros ->. now rewrite String.eqb_refl.
  - intros Hn Hu Ht. apply String.eqb_neq in Hn. rewrite Hn.
    destruct (Hunit (String.eqb t (n ++ unit) || String.eqb t (n ++ " " ++ unit)))
      as [_ ->]; [reflexivity | tauto].
  - intros Hn Hu Hi. apply String.eqb_neq in Hn. rewrite Hn.
    destruct (Str.truthy unit
              && (String.eqb t (n ++ unit) || String.eqb t (n ++ " " ++ unit)))
      eqn:E.
    + exfalso. apply Hu. apply Hunit in E. tauto.
    + now rewrite Hi.
  - intros Hn Hu Hi. apply String.eqb_neq in Hn. rewrite Hn.
    destruct (Str.truthy unit
              && (String.eqb t (n ++ unit) || String.eqb t (n ++ " " ++ unit)))
      eqn:E.
    + exfalso. apply Hu. apply Hunit in E. tauto.
    + now rewrite Hi.
  - intros B doc label h el Hn Hres Hvis Htxt.
    unfold candidate_of. rewrite Hres, Hvis. simpl negb.
    assert (Hx : containsNumberLike (textOf el) n unit = Some exact).
    { unfold containsNumberLike.
      assert (Htrim : trim (textOf el) = textOf el)
        by apply StrFacts.strip_idem.
      rewrite Htrim, Htxt.
      apply StrFacts.truthy_true in Hn. rewrite Hn. simpl negb.
      now rewrite String.eqb_refl. }
    rewrite Hx. eexists. split; [reflexivity |]. simpl. now split.
Qed.

End ScriptSpec.

(* ================================================================= *)
(** ** Dictionaries *)

Module DictFacts.
Import Dict.

Section Facts.
Context {V : Type}.
Implicit Types (d : dict V) (k : string) (v : V).

Lemma get_set_same k v d : get k (set k v d) = Some v.
Proof.
  induction d as [| [k' v'] d IH]; simpl.
  - now rewrite String.eqb_refl.
  - destruct (String.eqb k' k) eqn:E; simpl.
    + now rewrite String.eqb_refl.
    + now rewrite E.
Qed.

Lemma get_set_other k k' v d : k <> k' -> get k' (set k v d) = get k' d.
Proof.
  intros Hne. induction d as [| [k0 v0] d IH]; simpl.
  - apply String.eqb_neq in Hne. now rewrite Hne.
  - destruct (String.eqb k0 k) eqn:E; simpl.
    + apply String.eqb_eq in E. subst k0.
      apply String.eqb_neq in Hne. now rewrite Hne.
    + now rewrite IH.
Qed.

Lemma get_none k d : get k d = None <-> ~ In k (keys d).
Proof.
  induction d as [| [k' v'] d IH]; simpl; [tauto |].
  destruct (String.eqb k' k) eqn:E.
  - apply String.eqb_eq in E. split; [discriminate | tauto].
  - apply String.eqb_neq in E. rewrite IH. tauto.
Qed.

Lemma keys_set_absent k v d :
  ~ In k (keys d) -> keys (set k v d) = (keys d ++ [k])%list.
Proof.
  induction d as [| [k' v'] d IH]; simpl; intros Hn; [reflexivity |].
  destruct (String.eqb k' k) eqn:E.
  - apply String.eqb_eq in E. tauto.
  - simpl. rewrite IH; tauto.
Qed.

Lemma keys_set_present k v d : In k (keys d) -> keys (set k v d) = keys d.
Proof.
  induction d as [| [k' v'] d IH]; simpl; intros Hin; [tauto |].
  destruct (String.eqb k' k) eqn:E.
  - apply String.eqb_eq in E. now subst.
  - apply String.eqb_neq in E. simpl. rewrite IH; [reflexivity | tauto].
Qed.

Lemma in_keys_set k k' v d :
  In k' (keys (set k v d)) <-> k' = k \/ In k' (keys d).
Proof.
  destruct (in_dec string_dec k (keys d)) as [Hin | Hn].
  - rewrite keys_set_present by assumption.
    split; [tauto | intros [-> | H]; assumption].
  - rewrite keys_set_absent by assumption.
    rewrite in_app_iff. simpl. intuition congruence.
Qed.

Lemma NoDup_keys_set k v d : NoDup (keys d) -> NoDup (keys (set k v d)).
Proof.
  intros Hnd. destruct (in_dec string_dec k (keys d)) as [Hin | Hn].
  - now rewrite keys_set_present.
  - rewrite keys_set_absent by assumption.
    apply NoDup_incl_NoDup with (l := k :: keys d).
    + now constructor.
    + rewrite length_app. simpl. lia.
    + intros x. rewrite in_app_iff. simpl. tauto.
Qed.

End Facts.
End DictFacts.

(* ================================================================= *)
(** ** Learning and applying *)

Module MapperSpec.
Import Outcome Parser Mapper Dict.
Import Notions.

Section Loops.
Context {B : Js.Builtins}.

Lemma learn_loop_get (page : Page B) (k : string) (labels : list LabelValue) :
  forall d,
    get k (learnt page labels d)
    = match last_with k labels with
      | Some lv => Some (learn_entry (found page lv) lv)
      | None => get k d
      end.
Proof.
  induction labels as [| lv labels IH]; intros d; simpl; [reflexivity |].
  rewrite IH. destruct (last_with k labels); [reflexivity |].
  destruct (String.eqb (label lv) k) eqn:E.
  - apply String.eqb_eq in E. subst k. apply DictFacts.get_set_same.
  - apply String.eqb_neq in E. now apply DictFacts.get_set_other.
Qed.

Lemma learn_loop_keys (page : Page B) (labels : list LabelValue) :
  forall d,
    NoDup (keys d) ->
    NoDup (keys (learnt page labels d))
    /\ forall k, In k (keys (learnt page labels d))
                 <-> In k (keys d) \/ In k (List.map label labels).
Proof.
  induction labels as [| lv labels IH]; intros d Hnd; simpl.
  - split; [assumption | tauto].
  - destruct (IH (set (label lv) (learn_entry (found page lv) lv) d))
      as [H1 H2].
    { now apply DictFacts.NoDup_keys_set. }
    split; [assumption |]. intros k. rewrite H2, DictFacts.in_keys_set.
    intuition congruence.
Qed.

(** The three replacements leave the script with the three texts of the
    record as constants exactly on the records that are [plain]. *)
Lemma script_of_plain (lv : LabelValue) :
  script_of lv
  = if plain lv
    then Some [Json (value_str lv); Json (label lv);
               Json (match unit lv with Some u => u | None => "" end)]
    else None.
Proof.
  unfold script_of, plain, TEMPLATE.
  cbn [replace replace_constants].
  change ("__NUM_STR__" =? "__NUM_STR__") with true.
  change ("__LABEL_STR__" =? "__NUM_STR__") with false.
  change ("__UNIT_STR__" =? "__NUM_STR__") with false.
  cbv beta iota.
  destruct (Str.includes "__LABEL_STR__" (value_str lv)); [reflexivity |].
  change ("__LABEL_STR__" =? "__LABEL_STR__") with true.
  change ("__UNIT_STR__" =? "__LABEL_STR__") with false.
  cbn [replace replace_constants negb andb].
  destruct (Str.includes "__UNIT_STR__" (value_str lv)); [reflexivity |].
  destruct (Str.includes "__UNIT_STR__" (label lv)); [reflexivity |].
  change ("__UNIT_STR__" =? "__UNIT_STR__") with true.
  reflexivity.
Qed.

Lemma evaluate_eq (page : Page B) (lv : LabelValue) :
  evaluate page lv = if plain lv then Returns (found page lv) else Beyond.
Proof.
  unfold evaluate. rewrite script_of_plain. now destruct (plain lv).
Qed.

Lemma evaluate_plain (page : Page B) (lv : LabelValue) :
  plain lv = true -> evaluate page lv = Returns (found page lv).
Proof. rewrite evaluate_eq. now intros ->. Qed.

(** The loop returns exactly on records without a placeholder, and then
    with the map described by [learnt]; it never raises. *)
Lemma learn_loop_returns (page : Page B) (labels : list LabelValue) :
  forall d,
    (Forall (fun lv => plain lv = true) labels ->
     learn_loop page labels d = Returns (learnt page labels d))
    /\ (forall m,
           learn_loop page labels d = Returns m ->
           Forall (fun lv => plain lv = true) labels
           /\ m = learnt page labels d)
    /\ learn_loop page labels d <> Raises.
Proof.
  induction labels as [| lv labels IH]; intros d; cbn [learn_loop learnt].
  - split; [reflexivity |]. split; [| discriminate].
    intros m [= <-]. now split.
  - rewrite evaluate_eq.
    destruct (plain lv) eqn:Ep.
    + destruct (IH (set (label lv) (learn_entry (found page lv) lv) d))
        as (H1 & H2 & H3).
      split; [| split; [| exact H3]].
      * intros H. inversion H; subst. now apply H1.
      * intros m Hm. destruct (H2 m Hm) as [Hall ->].
        split; [now constructor | reflexivity].
    + split; [| split; [| discriminate]].
      * intros H. inversion H; subst. congruence.
      * discriminate.
Qed.


Lemma apply_loop_get (page : Page B) (k : string)
      (selectors : dict (dict string)) :
  NoDup (keys selectors) ->
  forall results calls,
    get k (fst (apply_loop page selectors results calls))
    = match get k selectors with
      | Some meta => Some (fst (apply_entry page meta))
      | None => get k results
      end.
Proof.
  induction selectors as [| [l meta] sels IH]; intros Hnd results calls;
    cbn [apply_loop get]; [reflexivity |].
  inversion Hnd as [| ? ? Hnotin Hnd']; subst.
  destruct (apply_entry page meta) as [val c] eqn:Ea.
  rewrite IH by assumption.
  destruct (String.eqb l k) eqn:E.
  - apply String.eqb_eq in E. subst k.
    apply DictFacts.get_none in Hnotin. rewrite Hnotin.
    cbv beta iota. rewrite Ea. apply DictFacts.get_set_same.
  - apply String.eqb_neq in E. cbv beta iota.
    destruct (get k sels); [reflexivity |].
    now apply DictFacts.get_set_other.
Qed.

Lemma apply_loop_keys (page : Page B) (selectors : dict (dict string)) :
  forall results calls,
    NoDup (keys results ++ keys selectors) ->
    keys (fst (apply_loop page selectors results calls))
    = (keys results ++ keys selectors)%list.
Proof.
  induction selectors as [| [l meta] sels IH]; intros results calls Hnd;
    cbn [apply_loop keys List.map fst].
  - now rewrite app_nil_r.
  - destruct (apply_entry page meta) as [val c].
    assert (Hl : ~ In l (keys results)).
    { intros Hin. apply NoDup_remove_2 in Hnd. apply Hnd.
      apply in_or_app. now left. }
    rewrite IH; rewrite DictFacts.keys_set_absent by assumption;
      rewrite <- app_assoc; simpl; [reflexivity | assumption].
Qed.

Lemma apply_loop_calls (page : Page B) (selectors : dict (dict string)) :
  forall results calls,
    snd (apply_loop page selectors results calls)
    = (calls ++ flat_map (fun lm => snd (apply_entry page (snd lm))) selectors)%list.
Proof.
  induction selectors as [| [l meta] sels IH]; intros results calls;
    cbn [apply_loop flat_map snd].
  - now rewrite app_nil_r.
  - destruct (apply_entry page meta) as [val c]. rewrite IH.
    now rewrite <- app_assoc.
Qed.

Lemma apply_entry_calls (page : Page B) (meta : dict string) :
  ~ In "" (snd (apply_entry page meta)).
Proof.
  unfold apply_entry.
  destruct (get "selector" meta) as [[| c s] |]; simpl; try tauto.
  destruct (eval_on_selector page (String c s)); simpl;
    intros [H | []]; discriminate.
Qed.



End Loops.

Section WithBrowser.
Context {B : Js.Builtins} (goto : string -> option (Page B)).

(** C9. When the page loads and no record holds a placeholder of the
    script (the records the model covers; those of the report parser are
    among them), learning returns a map with exactly one entry per
    distinct label of the input: its labels are those of the input, each
    once; the entry of a label is the one computed from the last input
    record with that label, so a later record overwrites an earlier one;
    every entry keeps the record's value_str as its expect value and has
    type "text"; when the script returns no winner, or a winner without a
    path, the entry is present with the empty selector.  The model gives
    no other map: when [learn_selectors] is [Returns], the page loaded, no
    record holds a placeholder, and the map is this one. *)
Theorem learn_one_entry_per_label
        (url : string) (page : Page B) (labels : list LabelValue) :
  goto url = Some page ->
  Forall (fun lv => plain lv = true) labels ->
  (exists selectors,
      learn_selectors goto url labels = Returns selectors
      /\ NoDup (keys selectors)
      /\ (forall k, In k (keys selectors) <-> In k (List.map label labels))
      /\ (forall k, get k selectors
                    = option_map (fun lv => learn_entry (found page lv) lv)
                                 (last_with k labels))
      /\ (forall lv, In lv labels ->
                     evaluate page lv = Returns (found page lv)))
  /\ (forall (topk : list (Script.Candidate (B := B))) lv,
         get "expect" (learn_entry topk lv) = Some (value_str lv)
         /\ get "type" (learn_entry topk lv) = Some "text"
         /\ (topk = [] -> learn_entry topk lv = entry "" (value_str lv))
         /\ (forall best rest,
                topk = best :: rest ->
                (Script.path best = "" ->
                 learn_entry topk lv = entry "" (value_str lv))
                /\ (Script.path best <> "" ->
                    learn_entry topk lv
                    = entry (Script.path best) (value_str lv))))
  /\ (forall url' labels' selectors,
         learn_selectors goto url' labels' = Returns selectors ->
         exists page',
           goto url' = Some page'
           /\ Forall (fun lv => plain lv = true) labels'
           /\ selectors = learnt page' labels' []).
Proof.
  intros Hgo Hplain. split; [| split].
  - unfold learn_selectors. rewrite Hgo.
    exists (learnt page labels []).
    destruct (learn_loop_keys page labels []) as [Hnd Hkeys]; [constructor |].
    split; [now apply learn_loop_returns |]. split; [assumption |].
    split; [intros k; rewrite Hkeys; simpl; tauto |].
    split.
    + intros k. rewrite learn_loop_get. simpl.
      now destruct (last_with k labels).
    + intros lv Hin. apply evaluate_plain.
      rewrite Forall_forall in Hplain. now apply Hplain.
  - intros topk lv. unfold learn_entry.
    destruct topk as [| best rest].
    + repeat split; discriminate.
    + destruct (Str.truthy (Script.path best)) eqn:Et.
      * apply StrFacts.truthy_true in Et.
        split; [reflexivity |]. split; [reflexivity |].
        split; [discriminate |].
        intros b r [= <- <-]. split; [tauto | reflexivity].
      * assert (Hp : Script.path best = "")
          by (destruct (Script.path best); [reflexivity | discriminate]).
        split; [reflexivity |]. split; [reflexivity |].
        split; [discriminate |].
        intros b r [= <- <-]. split; [reflexivity | tauto].
  - intros url' labels' selectors. unfold learn_selectors.
    destruct (goto url') as [page' |]; [| discriminate].
    intros H. apply learn_loop_returns in H. destruct H as [Hall ->].
    now exists page'.
Qed.

(** C4. An entry whose selector is the empty string yields null for its
    label on every page that loads: the step for that entry resolves no
    selector, the whole run returns (it does not raise), the result for the
    label is null, and the empty selector is never handed to the page. *)
Theorem empty_selector_yields_null
        (url : string) (page : Page B) (selectors : dict (dict string))
        (label : string) (meta : dict string) :
  goto url = Some page ->
  NoDup (keys selectors) ->
  get label selectors = Some meta ->
  get "selector" meta = Some "" ->
  apply_entry page meta = (None, [])
  /\ exists results calls,
      apply_run goto url selectors = Some (results, calls)
      /\ apply_selectors goto url selectors = Some results
      /\ get label results = Some None
      /\ ~ In "" calls.
Proof.
  intros Hgo Hnd Hget Hsel.
  assert (He : apply_entry page meta = (None, [])).
  { unfold apply_entry. now rewrite Hsel. }
  split; [exact He |].
  unfold apply_selectors, apply_run. rewrite Hgo.
  destruct (apply_loop page selectors [] []) as [results calls] eqn:El.
  exists results, calls. repeat split.
  - pose proof (apply_loop_get page label selectors Hnd [] []) as H.
    rewrite El, Hget, He in H. exact H.
  - pose proof (apply_loop_calls page selectors [] []) as H.
    rewrite El in H. simpl in H. subst calls.
    rewrite in_flat_map. intros [[l m] [_ Hin]].
    now apply (apply_entry_calls page m).
Qed.

(** C10. When the page loads, applying a map returns a result whose labels
    are exactly the labels of the map, in the same order; the value of a
    label is decided by that label's entry alone; and an entry whose
    selector fails to resolve (the page raises) gives null. *)
Theorem apply_keeps_label_set
        (url : string) (page : Page B) (selectors : dict (dict string)) :
  goto url = Some page ->
  NoDup (keys selectors) ->
  exists results,
    apply_selectors goto url selectors = Some results
    /\ keys results = keys selectors
    /\ (forall label meta,
           get label selectors = Some meta ->
           get label results = Some (fst (apply_entry page meta)))
    /\ (forall label, get label selectors = None -> get label results = None)
    /\ (forall meta sel,
           get "selector" meta = Some sel ->
           eval_on_selector page sel = None ->
           fst (apply_entry page meta) = None).
Proof.
  intros Hgo Hnd. unfold apply_selectors, apply_run. rewrite Hgo. simpl.
  eexists. split; [reflexivity |]. repeat split.
  - now rewrite apply_loop_keys.
  - intros label meta Hget. rewrite apply_loop_get by assumption.
    now rewrite Hget.
  - intros label Hget. rewrite apply_loop_get by assumption.
    now rewrite Hget.
  - intros meta sel Hsel Hev. unfold apply_entry. rewrite Hsel.
    destruct (Str.truthy sel); [now rewrite Hev | reflexivity].
Qed.

End WithBrowser.
End MapperSpec.

(* ================================================================= *)
(** ** Numbers *)

Module JsFacts.
Import Js.

Lemma Rleb_true (a b : R) : Rleb a b = true <-> (a <= b)%R.
Proof. unfold Rleb. destruct (Rle_dec a b); split; (congruence || tauto). Qed.

Lemma Rltb_true (a b : R) : Rltb a b = true <-> (a < b)%R.
Proof. unfold Rltb. destruct (Rlt_dec a b); split; (congruence || tauto). Qed.

(** The real numbers satisfy the laws. *)
Lemma real_laws (esc : string -> string) : Laws (RealBuiltins esc).
Proof.
  constructor; unfold comparable; simpl.
  - intros a b _. rewrite !Rleb_true. lra.
  - intros a b c. rewrite !Rleb_true. lra.
  - intros a b _ _. rewrite !Rleb_true. lra.
  - intros a b _ _. unfold Rltb, Rleb.
    destruct (Rlt_dec a b), (Rle_dec b a); simpl; (reflexivity || lra).
  - intros a b _ _. unfold Rltb.
    destruct (Rlt_dec 0 (b - a)), (Rlt_dec a b); (reflexivity || lra).
  - intros m n Hmn _. apply Rleb_true. apply IZR_le. lia.
  - intros z a b. rewrite !Rleb_true. lra.
  - intros z a b. rewrite !Rleb_true. lra.
  - intros z a b Hz. rewrite !Rleb_true. intros Ha Hab.
    unfold Rdiv. apply Rmult_le_compat_l; [now apply IZR_le |].
    apply Rinv_le_contravar; lra.
  - intros a b _. rewrite !Rleb_true. apply sqrt_le_1_alt.
  - intros a b _ _. rewrite !Rleb_true.
    destruct (Rle_dec a b) as [Hab | Hab].
    + left. split; [assumption | now apply Rmax_right].
    + right. split; [lra | apply Rmax_left; lra].
Qed.

Section Order.
Context {B : Builtins} (L : Laws B).

Lemma lit_comparable (z : Z) :
  (0 <= z < 2 ^ 53)%Z -> comparable B (lit B z).
Proof. intros Hz. apply (lit_mono B L); lia. Qed.

Lemma max_ge_l (a b : num B) :
  comparable B a -> comparable B b -> leb B a (max B a b) = true.
Proof.
  intros Ha Hb.
  destruct (max_spec B L a b Ha Hb) as [[H ->] | [H ->]]; assumption.
Qed.

Lemma max_ge_r (a b : num B) :
  comparable B a -> comparable B b -> leb B b (max B a b) = true.
Proof.
  intros Ha Hb.
  destruct (max_spec B L a b Ha Hb) as [[H ->] | [H ->]]; assumption.
Qed.

Lemma max_mono_r (c a b : num B) :
  comparable B c -> leb B a b = true ->
  leb B (max B c a) (max B c b) = true.
Proof.
  intros Hc Hab. destruct (leb_comparable B L a b Hab) as [Ha Hb].
  destruct (max_spec B L c a Hc Ha) as [[Hca ->] | [Hac ->]];
    destruct (max_spec B L c b Hc Hb) as [[Hcb ->] | [Hbc ->]];
    try assumption.
  apply (leb_trans B L) with b; assumption.
Qed.

Lemma ltb_true_leb (a b : num B) :
  comparable B a -> comparable B b ->
  ltb B a b = true -> leb B a b = true.
Proof.
  intros Ha Hb. rewrite (ltb_leb B L) by assumption.
  intros H. apply negb_true_iff in H.
  destruct (leb_total B L a b Ha Hb); congruence.
Qed.

Lemma ltb_false_leb (a b : num B) :
  comparable B a -> comparable B b ->
  (ltb B a b = false <-> leb B b a = true).
Proof.
  intros Ha Hb. rewrite (ltb_leb B L) by assumption. apply negb_false_iff.
Qed.

End Order.
End JsFacts.

(* ================================================================= *)
(** ** Scores and ranking *)

Module RankingSpec.
Import Dom Script Notions.

Section Scoring.
Context {B : Js.Builtins} (L : Js.Laws B).

Lemma areaScore_antitone (r1 r2 : Rect B) :
  Js.leb B (area r1) (area r2) = true ->
  Js.leb B (areaScore r2) (areaScore r1) = true.
Proof.
  intros H. unfold areaScore. fold (area r1) (area r2).
  assert (H1 : Js.comparable B (Js.lit B 1))
    by (apply (JsFacts.lit_comparable L); lia).
  assert (Hm : Js.leb B (Js.max B (Js.lit B 1) (area r1))
                      (Js.max B (Js.lit B 1) (area r2)) = true)
    by now apply (JsFacts.max_mono_r L).
  assert (H0 : Js.leb B (Js.lit B 0) (Js.max B (Js.lit B 1) (area r1)) = true).
  { apply (Js.leb_trans B L) with (Js.lit B 1).
    - apply (Js.lit_mono B L); lia.
    - apply (JsFacts.max_ge_l L); [assumption |].
      now destruct (Js.leb_comparable B L _ _ H). }
  pose proof (Js.sqrt_mono B L _ _ H0 Hm) as Hs.
  apply (Js.div_lit_anti B L); [lia | |].
  - apply (JsFacts.max_ge_l L); [assumption |].
    now destruct (Js.leb_comparable B L _ _ Hs).
  - now apply (JsFacts.max_mono_r L).
Qed.

Lemma score_of_antitone (m : tier) (near : bool) (r1 r2 : Rect B) :
  Js.leb B (area r1) (area r2) = true ->
  Js.leb B (score_of m r2 near) (score_of m r1 near) = true.
Proof.
  intros H. unfold score_of. destruct near.
  - apply (Js.add_lit_l B L), (Js.add_lit_r B L), areaScore_antitone, H.
  - apply (Js.add_lit_r B L), areaScore_antitone, H.
Qed.

(** A box whose area is a number gives a score that is a number. *)
Lemma score_of_comparable (m : tier) (near : bool) (r : Rect B) :
  Js.comparable B (area r) -> Js.comparable B (score_of m r near).
Proof. intros H. exact (score_of_antitone m near r r H). Qed.

(** C3, as the code has it. Among candidates of the same match class that
    also agree on the label-neighbour bonus, the score does not increase with
    the area of the layout box: the one with the larger width*height never
    scores strictly higher. *)
Theorem score_antitone_in_area (m : tier) (near : bool) (r1 r2 : Rect B) :
  Js.leb B (area r1) (area r2) = true ->
  Js.leb B (score_of m r2 near) (score_of m r1 near) = true
  /\ Js.ltb B (score_of m r1 near) (score_of m r2 near) = false.
Proof.
  intros H. pose proof (score_of_antitone m near r1 r2 H) as Hle.
  split; [exact Hle |].
  destruct (Js.leb_comparable B L _ _ Hle) as [H2 H1].
  now apply (JsFacts.ltb_false_leb L).
Qed.

End Scoring.

(** C3, counterexample. On the page [twice] the script finds two exact
    matches of "62.5"; the larger one (200x200, next to its label) scores
    85, the smaller one (100x100) scores 70: the candidate with the larger
    area has the strictly higher score. *)
Lemma larger_area_scores_higher :
  List.map (fun c => (elText c, path c, score c))
           (SELECTOR_JS (Samples.twice Samples.FB) "62.5" "Weight" "")
  = [("62.5", "div:nth-of-type(1) > span.big:nth-of-type(2)", 85%float);
     ("62.5", "div:nth-of-type(2) > span:nth-of-type(1)", 70%float)]
  /\ containsNumberLike "62.5" "62.5" "" = Some exact
  /\ score_of (B := Samples.FB) exact (Samples.large_box Samples.FB) true
     = 85%float
  /\ score_of (B := Samples.FB) exact (Samples.small_box Samples.FB) false
     = 70%float
  /\ PrimFloat.ltb (area (Samples.small_box Samples.FB))
                   (area (Samples.large_box Samples.FB)) = true
  /\ PrimFloat.ltb 70 85 = true.
Proof. repeat split; vm_compute; reflexivity. Qed.

(** *** The stable sort *)

Section Membership.
Context {B : Js.Builtins} {A : Type} (cmp : A -> A -> Js.num B).

Lemma insert_In (a c : A) (l : list A) :
  In c (insert cmp a l) <-> c = a \/ In c l.
Proof.
  induction l as [| b l IH]; simpl; [intuition |].
  destruct (Js.ltb B (Js.lit B 0) (cmp a b)); simpl.
  - rewrite IH. intuition.
  - intuition.
Qed.

Lemma sort_In (c : A) (l : list A) : In c (sort cmp l) <-> In c l.
Proof.
  induction l as [| a l IH]; simpl; [tauto |].
  rewrite insert_In, IH. intuition.
Qed.

Lemma insert_perm (a : A) (l : list A) :
  Permutation (a :: l) (insert cmp a l).
Proof.
  induction l as [| b l IH]; simpl; [reflexivity |].
  destruct (Js.ltb B (Js.lit B 0) (cmp a b)); [| reflexivity].
  rewrite perm_swap. now apply perm_skip.
Qed.

(** Sorting rearranges: nothing is lost, nothing is added. *)
Lemma sort_perm (l : list A) : Permutation l (sort cmp l).
Proof.
  induction l as [| a l IH]; simpl; [reflexivity |].
  rewrite <- insert_perm. now apply perm_skip.
Qed.

End Membership.

Section Sorting.
Context {B : Js.Builtins} (L : Js.Laws B).
Context {A : Type} (key : A -> Js.num B).

Local Abbreviation cmp := (by_key key).
Local Abbreviation ge := (key_ge key).
Local Abbreviation has := (key_is key).
Local Abbreviation ok := (fun a : A => Js.comparable B (key a)).

Lemma insert_cons (a b : A) (l : list A) :
  ok a -> ok b ->
  insert cmp a (b :: l)
  = if Js.ltb B (key a) (key b) then b :: insert cmp a l else a :: b :: l.
Proof.
  intros Ha Hb. simpl. unfold by_key. now rewrite (Js.sub_pos B L).
Qed.

Lemma insert_sorted (a : A) (l : list A) :
  ok a -> Forall ok l ->
  StronglySorted ge l -> StronglySorted ge (insert cmp a l).
Proof.
  intros Ha. induction l as [| b l IH]; intros Hok Hs.
  - simpl. repeat constructor.
  - inversion Hok as [| ? ? Hb Hok']; subst.
    rewrite insert_cons by assumption.
    inversion Hs as [| ? ? Hs' Hall]; subst.
    destruct (Js.ltb B (key a) (key b)) eqn:E.
    + constructor; [now apply IH |].
      apply Forall_forall. intros c Hc. apply insert_In in Hc.
      destruct Hc as [-> | Hc].
      * unfold key_ge. now apply (JsFacts.ltb_true_leb L).
      * rewrite Forall_forall in Hall. now apply Hall.
    + apply (JsFacts.ltb_false_leb L) in E; [| assumption | assumption].
      constructor; [assumption |]. constructor; [exact E |].
      eapply Forall_impl; [| exact Hall]. intros c Hc. unfold key_ge in *.
      now apply (Js.leb_trans B L) with (key b).
Qed.

Lemma sort_ok (l : list A) : Forall ok l -> Forall ok (sort cmp l).
Proof.
  intros H. apply Forall_forall. intros c Hc. apply sort_In in Hc.
  rewrite Forall_forall in H. now apply H.
Qed.

Lemma sort_sorted (l : list A) :
  Forall ok l -> StronglySorted ge (sort cmp l).
Proof.
  induction l as [| a l IH]; intros Hok; simpl; [constructor |].
  inversion Hok; subst. apply insert_sorted; auto using sort_ok.
Qed.

(** Inserting never moves an element past one of the same key. *)
Lemma insert_filter (v : Js.num B) (a : A) (l : list A) :
  ok a -> Forall ok l ->
  filter (has v) (insert cmp a l) = filter (has v) (a :: l).
Proof.
  intros Ha. induction l as [| b l IH]; intros Hok; [reflexivity |].
  inversion Hok as [| ? ? Hb Hok']; subst.
  rewrite insert_cons by assumption.
  destruct (Js.ltb B (key a) (key b)) eqn:E; [| reflexivity].
  cbn [filter]. rewrite IH by assumption. cbn [filter].
  destruct (has v a) eqn:Ea, (has v b) eqn:Eb; try reflexivity.
  exfalso. unfold key_is in Ea, Eb.
  apply andb_true_iff in Ea, Eb. destruct Ea as [Hva _], Eb as [_ Hbv].
  rewrite (Js.ltb_leb B L) in E by assumption. apply negb_true_iff in E.
  rewrite (Js.leb_trans B L _ _ _ Hbv Hva) in E. discriminate.
Qed.

Lemma sort_filter (v : Js.num B) (l : list A) :
  Forall ok l -> filter (has v) (sort cmp l) = filter (has v) l.
Proof.
  induction l as [| a l IH]; intros Hok; [reflexivity |].
  inversion Hok; subst. cbn [sort].
  rewrite insert_filter by auto using sort_ok.
  cbn [filter]. now rewrite IH.
Qed.

(** The head of the sorted list is the first element of the input that no
    element outscores. *)
Lemma sort_head (l : list A) :
  Forall ok l ->
  forall w rest,
    sort cmp l = w :: rest ->
    exists before after,
      l = (before ++ w :: after)%list
      /\ Forall (fun c => Js.ltb B (key c) (key w) = true) before
      /\ Forall (fun c => Js.leb B (key c) (key w) = true) after.
Proof.
  induction l as [| a l IH]; intros Hok w rest Hs; [discriminate |].
  inversion Hok as [| ? ? Ha Hok']; subst.
  cbn [sort] in Hs. destruct (sort cmp l) as [| b s] eqn:Es.
  - assert (l = []) as ->.
    { destruct l as [| c l']; [reflexivity |].
      assert (Hin : In c (sort cmp (c :: l'))) by (apply sort_In; now left).
      rewrite Es in Hin. destruct Hin. }
    simpl in Hs. injection Hs as <- <-.
    exists [], []. repeat split; constructor.
  - pose proof (sort_ok l Hok') as Hoks. rewrite Es in Hoks.
    inversion Hoks as [| ? ? Hb Hoks']; subst.
    rewrite insert_cons in Hs by assumption.
    destruct (Js.ltb B (key a) (key b)) eqn:E.
    + injection Hs as <- <-.
      destruct (IH Hok' b s eq_refl) as (before & after & -> & Hbe & Haf).
      exists (a :: before), after. repeat split; [| assumption].
      now constructor.
    + injection Hs as <- <-.
      apply (JsFacts.ltb_false_leb L) in E; [| assumption | assumption].
      exists [], l. repeat split; [constructor |].
      pose proof (sort_sorted l Hok') as Hsorted. rewrite Es in Hsorted.
      inversion Hsorted as [| ? ? _ Hall]; subst.
      apply Forall_forall. intros c Hc.
      apply (Js.leb_trans B L) with (key b); [| exact E].
      apply (proj2 (sort_In (by_key key) c l)) in Hc.
      rewrite Es in Hc. destruct Hc as [-> | Hc].
      * exact Hb.
      * rewrite Forall_forall in Hall. now apply Hall.
Qed.

End Sorting.

Lemma filter_firstn_skipn {A : Type} (f : A -> bool) (n : nat) (l : list A) :
  filter f l = (filter f (firstn n l) ++ filter f (skipn n l))%list.
Proof. now rewrite <- filter_app, firstn_skipn. Qed.

Section Found.
Context {B : Js.Builtins}.

Lemma collect_In (doc : Document B) (n l u : string) (c : Candidate)
      (els : list handle) :
  In c (collect doc n l u els) <->
  exists h, In h els /\ candidate_of doc n l u h = Some c.
Proof.
  induction els as [| h els IH]; cbn [collect In].
  - split; [tauto | now intros (h & [] & _)].
  - destruct (candidate_of doc n l u h) as [c0 |] eqn:E; cbn [In]; rewrite ?IH.
    + split.
      * intros [<- | (h' & Hh & Hc)]; [exists h; auto | exists h'; auto].
      * intros (h' & [<- | Hh] & Hc); [left; congruence | right; eauto].
    + split.
      * intros (h' & Hh & Hc). exists h'; auto.
      * intros (h' & [<- | Hh] & Hc); [congruence | eauto].
Qed.

End Found.

Section Ranking.
Context {B : Js.Builtins} (L : Js.Laws B).

(** The candidates found on a page whose boxes have numbers as areas have
    numbers as scores. *)
Lemma collect_comparable
      (doc : Document B) (numStr labelStr unitStr : string) :
  boxes_comparable doc ->
  forall els,
    Forall (fun c => Js.comparable B (score c))
           (collect doc numStr labelStr unitStr els).
Proof.
  intros Hdoc els. induction els as [| h els IH]; simpl; [constructor |].
  destruct (candidate_of doc numStr labelStr unitStr h) as [c |] eqn:E;
    [| exact IH].
  constructor; [| exact IH].
  unfold candidate_of in E.
  destruct (resolve doc h) as [el |] eqn:Er; [| discriminate].
  destruct (negb (isVisible el)); [discriminate |].
  destruct (containsNumberLike _ _ _) as [m |]; [| discriminate].
  injection E as <-. cbn [score].
  apply (score_of_comparable L). exact (Hdoc h el Er).
Qed.

(** C6. On a page whose layout boxes have numbers (not NaN) as areas, the
    script returns the first 5 entries (all of them when there are fewer)
    of a rearrangement of the candidates it found, one per element the
    loop kept, that is sorted by descending score and stable: for every
    score, the candidates with that score stand in it in the order in which
    they were found.  So the list returned has at most 5 entries, is sorted
    by descending score, and holds, for every score, the first candidates
    found with that score, in the same order.  When a candidate was found
    there is a winner, and it is the first candidate found that no other
    candidate outscores: the candidates found before it score strictly
    lower, those found after it do not score higher. *)
Theorem top5_sorted_and_stable
        (doc : Document B) (numStr labelStr unitStr : string) :
  boxes_comparable doc ->
  let found := collect doc numStr labelStr unitStr (elements doc) in
  let top := SELECTOR_JS doc numStr labelStr unitStr in
  (List.length top <= 5)%nat
  /\ StronglySorted not_lower top
  /\ (forall v, exists later,
         filter (scores v) found = (filter (scores v) top ++ later)%list)
  /\ (forall winner rest,
         top = winner :: rest ->
         exists before after,
           found = (before ++ winner :: after)%list
           /\ Forall (fun c => Js.ltb B (score c) (score winner) = true) before
           /\ Forall (fun c => Js.leb B (score c) (score winner) = true) after)
  /\ (forall c, In c found <->
                 exists h, In h (elements doc)
                           /\ candidate_of doc numStr labelStr unitStr h
                              = Some c)
  /\ List.length top = Nat.min 5 (List.length found)
  /\ (exists dropped,
         Permutation found (top ++ dropped)
         /\ StronglySorted not_lower (top ++ dropped)
         /\ forall v, filter (scores v) (top ++ dropped)
                      = filter (scores v) found)
  /\ (found <> [] -> exists winner rest, top = winner :: rest).
Proof.
  intros Hdoc found top. unfold top, SELECTOR_JS. fold found.
  pose proof (collect_comparable doc numStr labelStr unitStr Hdoc
                                 (elements doc)) as Hok.
  fold found in Hok.
  split; [apply firstn_le_length |].
  split.
  { assert (Hs : StronglySorted not_lower (sort by_score found))
      by exact (sort_sorted L score found Hok).
    rewrite <- (firstn_skipn 5 (sort by_score found)) in Hs.
    clear -Hs. revert Hs.
    generalize (firstn 5 (sort by_score found)) as l1.
    induction l1 as [| a l1 IH]; intros Hs; [constructor |].
    simpl in Hs. inversion Hs as [| ? ? Hs' Hall]; subst.
    constructor; [now apply IH |].
    apply Forall_app in Hall. tauto. }
  split.
  { intros v. exists (filter (scores v) (skipn 5 (sort by_score found))).
    rewrite <- filter_firstn_skipn.
    symmetry. exact (sort_filter L score v found Hok). }
  split.
  { intros winner rest Htop.
    destruct (sort by_score found) as [| w s] eqn:Es; [discriminate |].
    simpl in Htop. injection Htop as <- _.
    exact (sort_head L score found Hok w s Es). }
  split; [intros c; apply collect_In |].
  split.
  { rewrite length_firstn.
    now rewrite <- (Permutation_length (sort_perm by_score found)). }
  split.
  { exists (skipn 5 (sort by_score found)). rewrite firstn_skipn.
    split; [apply sort_perm |].
    split; [exact (sort_sorted L score found Hok) |].
    intros v. exact (sort_filter L score v found Hok). }
  intros Hne.
  pose proof (Permutation_length (sort_perm by_score found)) as Hlen.
  destruct (sort by_score found) as [| w s].
  - destruct found; [congruence | discriminate].
  - now exists w, (firstn 4 s).
Qed.

End Ranking.
End RankingSpec.

(* ================================================================= *)
(** ** Date keys *)

Module RecordsSpec.
Import Outcome Records Notions.
Local Open Scope Z_scope.

Lemma all_from_spec (f : Z -> bool) (k : nat) :
  forall z, all_from f k z = true ->
            forall i, z <= i < z + Z.of_nat k -> f i = true.
Proof.
  induction k as [| k IH]; intros z H i Hi; [lia |].
  cbn [all_from] in H. destruct (f z) eqn:Ez; [| discriminate].
  destruct (Z.eq_dec i z) as [-> | Hne]; [assumption |].
  apply (IH (z + 1)); [assumption | lia].
Qed.

(** Every day of a common year and of a leap year, by evaluation. *)
Lemma year_days_checked :
  all_from (year_day_ok false) 365 0 = true
  /\ all_from (year_day_ok true) 366 0 = true.
Proof. split; vm_compute; reflexivity. Qed.

Lemma year_day (leapyear : bool) (n : Z) :
  0 <= n < 365 -> year_day_ok leapyear n = true.
Proof.
  intros Hn. destruct year_days_checked as [Hc Hl]. destruct leapyear.
  - apply (all_from_spec _ _ _ Hl). lia.
  - apply (all_from_spec _ _ _ Hc). lia.
Qed.

(** The leap-year test of [_ord2ymd] is the calendar's. *)
Lemma leap_flag (n100 n4 n1 : Z) :
  0 <= n100 <= 3 -> 0 <= n4 <= 24 -> 0 <= n1 <= 3 ->
  is_leap (1 + n100 * 100 + n4 * 4 + n1)
  = (n1 =? 3) && (negb (n4 =? 24) || (n100 =? 3)).
Proof.
  intros H100 H4 H1. unfold is_leap.
  set (y := 1 + n100 * 100 + n4 * 4 + n1).
  pose proof (Z.div_mod y 4 ltac:(lia)) as E4.
  pose proof (Z.mod_pos_bound y 4 ltac:(lia)) as B4.
  pose proof (Z.div_mod y 100 ltac:(lia)) as E100.
  pose proof (Z.mod_pos_bound y 100 ltac:(lia)) as B100.
  pose proof (Z.div_mod y 400 ltac:(lia)) as E400.
  pose proof (Z.mod_pos_bound y 400 ltac:(lia)) as B400.
  destruct (Z.eqb_spec (y mod 4) 0), (Z.eqb_spec (y mod 100) 0),
    (Z.eqb_spec (y mod 400) 0), (Z.eqb_spec n1 3), (Z.eqb_spec n4 24),
    (Z.eqb_spec n100 3); simpl; try reflexivity; exfalso; subst y; lia.
Qed.

Lemma days_before_year_split (n100 n4 n1 : Z) :
  0 <= n100 <= 3 -> 0 <= n4 <= 24 -> 0 <= n1 <= 3 ->
  days_before_year (1 + n100 * 100 + n4 * 4 + n1)
  = 36524 * n100 + 1461 * n4 + 365 * n1.
Proof.
  intros H100 H4 H1. unfold days_before_year. cbv zeta.
  replace (1 + n100 * 100 + n4 * 4 + n1 - 1)
    with (n100 * 100 + n4 * 4 + n1) by lia.
  set (p := n100 * 100 + n4 * 4 + n1).
  pose proof (Z.div_mod p 4 ltac:(lia)) as E4.
  pose proof (Z.mod_pos_bound p 4 ltac:(lia)) as B4.
  pose proof (Z.div_mod p 100 ltac:(lia)) as E100.
  pose proof (Z.mod_pos_bound p 100 ltac:(lia)) as B100.
  pose proof (Z.div_mod p 400 ltac:(lia)) as E400.
  pose proof (Z.mod_pos_bound p 400 ltac:(lia)) as B400.
  subst p. lia.
Qed.

(** [_ord2ymd] on the days of the first 400-year cycle: the last day of a
    leap cycle is 31 December; any other day is found from its year and its
    place in the year. *)
Lemma ord2ymd_in_cycle (r : Z) :
  0 <= r < 146097 ->
  let n100 := r / 36524 in
  let n4 := r mod 36524 / 1461 in
  let n1 := r mod 36524 mod 1461 / 365 in
  let n := r mod 36524 mod 1461 mod 365 in
  let y := 1 + n100 * 100 + n4 * 4 + n1 in
  ord2ymd (r + 1)
  = if (n1 =? 4) || (n100 =? 4) then mkDate (y - 1) 12 31
    else
      let leapyear := (n1 =? 3) && (negb (n4 =? 24) || (n100 =? 3)) in
      mkDate y (fst (month_day leapyear n)) (snd (month_day leapyear n)).
Proof.
  intros Hr. cbv zeta. unfold ord2ymd, month_day. cbv zeta.
  replace (r + 1 - 1) with r by lia.
  rewrite (Z.div_small r 146097), (Z.mod_small r 146097) by lia.
  destruct ((r mod 36524 mod 1461 / 365 =? 4) || (r / 36524 =? 4)).
  - f_equal; lia.
  - destruct (r mod 36524 mod 1461 mod 365 <? _); cbn [fst snd]; f_equal; lia.
Qed.

(** What holds of each day [r] of the first 400-year cycle. *)
Lemma cycle_day (r : Z) :
  0 <= r < 146097 ->
  ymd2ord (ord2ymd (r + 1)) = r + 1
  /\ valid_date (ord2ymd (r + 1)) = true
  /\ 1 <= year (ord2ymd (r + 1)) <= 400
  /\ (year (ord2ymd (r + 1)) <= 399 <-> r < 145731).
Proof.
  intros Hr. rewrite (ord2ymd_in_cycle r Hr). cbv zeta.
  set (n100 := r / 36524). set (r1 := r mod 36524).
  set (n4 := r1 / 1461). set (r2 := r1 mod 1461).
  set (n1 := r2 / 365). set (n := r2 mod 365).
  pose proof (Z.div_mod r 36524 ltac:(lia)) as E1.
  pose proof (Z.mod_pos_bound r 36524 ltac:(lia)) as B1.
  pose proof (Z.div_mod r1 1461 ltac:(lia)) as E2.
  pose proof (Z.mod_pos_bound r1 1461 ltac:(lia)) as B2.
  pose proof (Z.div_mod r2 365 ltac:(lia)) as E3.
  pose proof (Z.mod_pos_bound r2 365 ltac:(lia)) as B3.
  fold n100 r1 in E1, B1. fold n4 r2 in E2, B2. fold n1 n in E3, B3.
  assert (H100 : 0 <= n100 <= 4) by lia.
  assert (H4 : 0 <= n4 <= 24) by lia.
  assert (H1 : 0 <= n1 <= 4) by lia.
  destruct (Z.eqb_spec n1 4) as [En1 | En1];
    [| destruct (Z.eqb_spec n100 4) as [En100 | En100]]; cbn [orb].
  - (* the last day of a leap year that ends a 4-year cycle *)
    assert (H100' : 0 <= n100 <= 3) by lia.
    assert (H4' : 0 <= n4 <= 23) by lia.
    replace (1 + n100 * 100 + n4 * 4 + n1 - 1)
      with (1 + n100 * 100 + (n4 + 1) * 4 + -1 + 0) by lia.
    unfold ymd2ord, valid_date, days_before_month, days_in_month.
    cbn [year month day].
    replace (1 + n100 * 100 + (n4 + 1) * 4 + -1 + 0)
      with (1 + n100 * 100 + n4 * 4 + 3) by lia.
    rewrite days_before_year_split, leap_flag by lia.
    destruct (Z.eqb_spec n4 24); [lia |].
    vm_compute days_before_month_table.
    cbv [Z.ltb Z.leb Z.eqb Z.compare Pos.compare Pos.compare_cont Pos.eqb
         andb orb negb].
    repeat split; try reflexivity; lia.
  - (* the last day of the 400-year cycle *)
    replace (1 + n100 * 100 + n4 * 4 + n1 - 1) with 400 by lia.
    change (ymd2ord (mkDate 400 12 31)) with 146097.
    change (valid_date (mkDate 400 12 31)) with true.
    cbn [year]. repeat split; try reflexivity; lia.
  - (* any other day *)
    assert (H100' : 0 <= n100 <= 3) by lia.
    assert (H1' : 0 <= n1 <= 3) by lia.
    set (leapyear := (n1 =? 3) && (negb (n4 =? 24) || (n100 =? 3))).
    pose proof (year_day leapyear n B3) as Hd. unfold year_day_ok in Hd.
    destruct (month_day leapyear n) as [m d]. cbn [fst snd].
    rewrite !andb_true_iff in Hd.
    destruct Hd as [[[[Ho Hm1] Hm12] Hd1] Hdim].
    apply Z.eqb_eq in Ho. apply Z.leb_le in Hm1, Hm12, Hd1, Hdim.
    unfold ymd2ord, valid_date, days_before_month, days_in_month.
    cbn [year month day].
    rewrite days_before_year_split, leap_flag by lia. fold leapyear.
    split; [lia |]. split.
    + rewrite !andb_true_iff. repeat split; apply Z.leb_le; assumption.
    + lia.
Qed.

Lemma is_leap_later (q y : Z) : is_leap (y + 400 * q) = is_leap y.
Proof.
  unfold is_leap.
  replace (y + 400 * q) with (y + (100 * q) * 4) at 1 by lia.
  replace (y + 400 * q) with (y + (4 * q) * 100) at 1 by lia.
  replace (y + 400 * q) with (y + q * 400) by lia.
  now rewrite !Z_mod_plus_full.
Qed.

Lemma days_before_year_later (q y : Z) :
  days_before_year (y + 400 * q) = days_before_year y + 146097 * q.
Proof.
  unfold days_before_year. cbv zeta.
  replace (y + 400 * q - 1) with (y - 1 + (100 * q) * 4) at 2 by lia.
  replace (y + 400 * q - 1) with (y - 1 + (4 * q) * 100) at 2 by lia.
  replace (y + 400 * q - 1) with (y - 1 + q * 400) at 2 by lia.
  rewrite !Z.div_add by lia. lia.
Qed.

Lemma ymd2ord_later (q : Z) (d : date) :
  ymd2ord (later400 q d) = ymd2ord d + 146097 * q.
Proof.
  unfold ymd2ord, later400, days_before_month. cbn [year month day].
  rewrite days_before_year_later, is_leap_later. lia.
Qed.

Lemma valid_date_later (q : Z) (d : date) :
  valid_date (later400 q d) = valid_date d.
Proof.
  unfold valid_date, later400, days_in_month. cbn [year month day].
  now rewrite is_leap_later.
Qed.

(** The date of an ordinal is the date of its day within the cycle, moved by
    whole cycles. *)
Lemma ord2ymd_cycle (n : Z) :
  ord2ymd n
  = later400 ((n - 1) / 146097) (ord2ymd ((n - 1) mod 146097 + 1)).
Proof.
  set (q := (n - 1) / 146097). set (r := (n - 1) mod 146097).
  assert (Hr : 0 <= r < 146097) by (apply Z.mod_pos_bound; lia).
  unfold ord2ymd at 2. cbv zeta.
  replace (r + 1 - 1) with r by lia.
  rewrite (Z.div_small r 146097), (Z.mod_small r 146097) by lia.
  unfold ord2ymd. cbv zeta. fold q r.
  destruct ((r mod 36524 mod 1461 / 365 =? 4) || (r / 36524 =? 4)).
  - unfold later400. cbn [year month day]. f_equal. lia.
  - destruct (r mod 36524 mod 1461 mod 365 <? _);
      unfold later400; cbn [year month day]; f_equal; lia.
Qed.

(** [ord2ymd] is right on every ordinal: it returns a date of the calendar
    whose ordinal is the one given; the year is in [1, 9999] exactly for the
    ordinals 1 to 3652059. *)
Lemma ord2ymd_correct (n : Z) :
  ymd2ord (ord2ymd n) = n
  /\ valid_date (ord2ymd n) = true
  /\ (1 <= year (ord2ymd n) <= 9999 <-> 1 <= n <= 3652059).
Proof.
  rewrite ord2ymd_cycle.
  set (q := (n - 1) / 146097). set (r := (n - 1) mod 146097).
  assert (Hr : 0 <= r < 146097) by (apply Z.mod_pos_bound; lia).
  assert (Hn : n - 1 = 146097 * q + r) by (apply Z.div_mod; lia).
  destruct (cycle_day r Hr) as (Ho & Hv & Hy & Hy399).
  rewrite ymd2ord_later, valid_date_later, Ho.
  split; [lia |]. split; [assumption |].
  unfold later400. cbn [year]. lia.
Qed.

Lemma representable_ordinal (ts : Z) :
  representable ts <-> 1 <= epoch_ordinal + ts / 86400 <= 3652059.
Proof.
  unfold representable, epoch_ordinal.
  pose proof (Z.div_mod ts 86400 ltac:(lia)) as Hdm.
  pose proof (Z.mod_pos_bound ts 86400 ltac:(lia)) as Hm.
  lia.
Qed.

(** On the timestamps [datetime] can represent, [utc_date] is the date of
    the calendar that lies [ts / 86400] whole days from 1970-01-01; on the
    others it raises. *)
Lemma utc_date_correct (ts : Z) :
  (representable ts ->
   exists d, utc_date ts = Some d
             /\ valid_date d = true
             /\ 1 <= year d <= 9999
             /\ ymd2ord d - epoch_ordinal = ts / 86400)
  /\ (~ representable ts -> utc_date ts = None).
Proof.
  unfold utc_date. cbv zeta.
  destruct (ord2ymd_correct (epoch_ordinal + ts / 86400)) as (Ho & Hv & Hy).
  rewrite representable_ordinal, <- Hy.
  unfold MINYEAR, MAXYEAR.
  split.
  - intros Hr. exists (ord2ymd (epoch_ordinal + ts / 86400)).
    destruct Hr as [H1 H2]. apply Z.leb_le in H1 as H1', H2 as H2'.
    rewrite H1', H2'. cbn [andb]. repeat split; try assumption. lia.
  - intros Hr.
    destruct (Z.leb_spec 1 (year (ord2ymd (epoch_ordinal + ts / 86400))));
      destruct (Z.leb_spec (year (ord2ymd (epoch_ordinal + ts / 86400))) 9999);
      cbn [andb]; try reflexivity. lia.
Qed.






(** [_date_from_url] raises exactly when [urlparse] does. *)
Lemma date_from_url_raises (url : string) :
  _date_from_url url = Raises <-> url_query url = Raises.
Proof.
  unfold _date_from_url. destruct (url_query url) as [q | |].
  - destruct (parse_qs q); split; discriminate.
  - tauto.
  - split; discriminate.
Qed.



End RecordsSpec.

(* ================================================================= *)
(** ** The number pattern *)

Module NumberFacts.
Import Re Parser Notions.

Lemma digit_char (c : ascii) :
  Str.is_digit c = true ->
  is_sign c = false /\ is_dot c = false.
Proof.
  destruct c as [[] [] [] [] [] [] [] []]; intros H; vm_compute in H;
    try discriminate; split; reflexivity.
Qed.

Lemma unit_char_ends (c : ascii) :
  unit_char c = true -> Str.is_digit c = false /\ is_dot c = false.
Proof.
  destruct c as [[] [] [] [] [] [] [] []]; intros H; vm_compute in H;
    try discriminate; split; reflexivity.
Qed.

Lemma digits_inv (s : string) :
  digits s = true ->
  exists d ds, s = String d ds /\ Str.is_digit d = true
               /\ Str.forallb Str.is_digit ds = true.
Proof.
  unfold digits. destruct s as [| d ds]; simpl; [discriminate |].
  intros H. apply andb_true_iff in H. now exists d, ds.
Qed.

Section Greedy.
Context {R : Type}.
Implicit Types (k : @cont R) (caps : captures).

(** A greedy repetition takes the whole run when the rest of the pattern
    matches after it. *)
Lemma star_greedy (p : ascii -> bool) (ds : string) :
  forall r pos caps k x,
    Str.forallb p ds = true ->
    (forall c r', r = String c r' -> p c = false) ->
    k (pos + String.length ds)%nat r caps = Some x ->
    star p pos (ds ++ r) caps k = Some x.
Proof.
  induction ds as [| d ds IH]; intros r pos caps k x Hall Hr Hk; simpl in *.
  - rewrite Nat.add_0_r in Hk. destruct r as [| c r']; [exact Hk |].
    simpl. now rewrite (Hr c r' eq_refl).
  - apply andb_true_iff in Hall. destruct Hall as [Hd Hall]. rewrite Hd.
    rewrite (IH r (S pos) caps k x); auto.
    now replace (S pos + String.length ds)%nat
      with (pos + S (String.length ds))%nat by lia.
Qed.

Lemma run_seq (r1 r2 : regex) pos (s : string) caps k :
  run (Seq r1 r2) pos s caps k
  = run r1 pos s caps (fun pos' s' caps' => run r2 pos' s' caps' k).
Proof. reflexivity. Qed.

Lemma run_opt (r : regex) pos (s : string) caps k :
  run (Opt r) pos s caps k
  = match run r pos s caps k with
    | Some x => Some x
    | None => k pos s caps
    end.
Proof. reflexivity. Qed.

Lemma run_cls (p : ascii -> bool) (c : ascii) pos (s : string) caps k :
  run (Cls p) pos (String c s) caps k
  = if p c then k (S pos) s caps else None.
Proof. reflexivity. Qed.

Lemma plus_greedy (p : ascii -> bool) (d : ascii) (ds r : string)
      pos caps k x :
  p d = true -> Str.forallb p ds = true ->
  (forall c r', r = String c r' -> p c = false) ->
  k (pos + S (String.length ds))%nat r caps = Some x ->
  run (Plus p) pos (String d (ds ++ r)) caps k = Some x.
Proof.
  intros Hd Hall Hr Hk. cbn [run]. rewrite Hd.
  apply star_greedy; auto.
  now replace (S pos + String.length ds)%nat
    with (pos + S (String.length ds))%nat by lia.
Qed.

Lemma ends_number_halts (rest : string) :
  ends_number rest = true ->
  forall c r', rest = String c r' -> Str.is_digit c = false.
Proof.
  intros H c r' ->. simpl in H. apply andb_true_iff in H.
  destruct H as [H _]. now apply negb_true_iff in H.
Qed.

Lemma frac_run (fr rest : string) pos caps k x :
  (fr = "" \/ exists fp, fr = String "." fp /\ digits fp = true) ->
  ends_number rest = true ->
  k (pos + String.length fr)%nat rest caps = Some x ->
  run (Opt (Seq (Cls is_dot) (Plus Str.is_digit))) pos (fr ++ rest) caps k
  = Some x.
Proof.
  intros [-> | (fp & -> & Hfp)] Hrest Hk.
  - simpl in *. rewrite Nat.add_0_r in Hk.
    destruct rest as [| c r']; [exact Hk |].
    simpl in Hrest. apply andb_true_iff in Hrest. destruct Hrest as [_ Hdot].
    apply negb_true_iff in Hdot. now rewrite Hdot.
  - destruct (digits_inv fp Hfp) as (d & ds & -> & Hd & Hds).
    cbn [append]. rewrite run_opt, run_seq, run_cls.
    change (is_dot ".") with true. cbv beta.
    assert (E : run (Plus Str.is_digit) (S pos) (String d (ds ++ rest)) caps k
                = Some x).
    { apply plus_greedy;
        [exact Hd | exact Hds | now apply ends_number_halts |].
      simpl in Hk.
      now replace (S pos + S (String.length ds))%nat
        with (pos + S (S (String.length ds)))%nat by lia. }
    now rewrite E.
Qed.

Lemma body_run (ip fr rest : string) pos caps k x :
  digits ip = true ->
  (fr = "" \/ exists fp, fr = String "." fp /\ digits fp = true) ->
  ends_number rest = true ->
  k (pos + String.length ip + String.length fr)%nat rest caps = Some x ->
  run (Seq (Plus Str.is_digit) (Opt (Seq (Cls is_dot) (Plus Str.is_digit))))
      pos (ip ++ fr ++ rest) caps k
  = Some x.
Proof.
  intros Hip Hfr Hrest Hk.
  destruct (digits_inv ip Hip) as (d & ds & -> & Hd & Hds).
  rewrite run_seq. cbn [append].
  apply plus_greedy; [exact Hd | exact Hds | |].
  - intros c r' E. destruct Hfr as [-> | (fp & -> & _)].
    + simpl in E. now apply (ends_number_halts rest Hrest c r').
    + simpl in E. injection E as <- _. reflexivity.
  - apply frac_run; auto.
Qed.

(** On a numeral followed by a text that cannot continue it, the number
    pattern matches the numeral, whatever follows in the pattern. *)
Lemma number_run (n rest : string) pos caps k x :
  numeral n -> ends_number rest = true ->
  k (pos + String.length n)%nat rest caps = Some x ->
  run NumberRe pos (n ++ rest) caps k = Some x.
Proof.
  intros (sg & ip & fr & -> & Hsg & Hip & Hfr) Hrest Hk.
  rewrite !StrFacts.length_append in Hk.
  rewrite !StrFacts.append_assoc.
  unfold NumberRe. rewrite run_seq, run_opt.
  set (body := Seq (Plus Str.is_digit)
                   (Opt (Seq (Cls is_dot) (Plus Str.is_digit)))).
  destruct Hsg as [-> | [-> | ->]]; cbn [append String.length] in *.
  - assert (E : run body pos (ip ++ fr ++ rest) caps k = Some x).
    { apply body_run; try assumption.
      now replace (pos + String.length ip + String.length fr)%nat
        with (pos + (0 + (String.length ip + String.length fr)))%nat by lia. }
    destruct (digits_inv ip Hip) as (d & ds & -> & Hd & Hds).
    cbn [append] in *. rewrite run_cls.
    destruct (digit_char d Hd) as [-> _]. exact E.
  - assert (E : run body (S pos) (ip ++ fr ++ rest) caps k = Some x).
    { apply body_run; try assumption.
      now replace (S pos + String.length ip + String.length fr)%nat
        with (pos + S (String.length ip + String.length fr))%nat by lia. }
    rewrite run_cls. change (is_sign "+") with true. cbv beta iota.
    now rewrite E.
  - assert (E : run body (S pos) (ip ++ fr ++ rest) caps k = Some x).
    { apply body_run; try assumption.
      now replace (S pos + String.length ip + String.length fr)%nat
        with (pos + S (String.length ip + String.length fr))%nat by lia. }
    rewrite run_cls. change (is_sign "-") with true. cbv beta iota.
    now rewrite E.
Qed.

End Greedy.

Lemma search_from_hit (r : regex) (pos : nat) (s : string) (m : match_obj) :
  match_at r pos s = Some m -> search_from r pos s = Some m.
Proof. intros H. destruct s; simpl; now rewrite H. Qed.

(** Searching a text that starts with a numeral, and goes on with something
    that cannot continue it, finds that numeral. *)
Lemma NumberRe_search (n rest : string) :
  numeral n -> ends_number rest = true ->
  search NumberRe (n ++ rest) = Some (MatchObj n []).
Proof.
  intros Hn Hrest. apply search_from_hit. unfold match_at.
  apply number_run; auto.
  cbn [Nat.add]. rewrite Nat.sub_0_r. now rewrite StrFacts.take_app.
Qed.

(** *** [float] on numerals *)

Lemma split1_digits (ip tail : string) :
  Str.forallb Str.is_digit ip = true ->
  Str.split1 "." (ip ++ tail)
  = (ip ++ fst (Str.split1 "." tail), snd (Str.split1 "." tail)).
Proof.
  induction ip as [| c ip IH]; intros H; simpl in *.
  - now destruct (Str.split1 "." tail).
  - apply andb_true_iff in H. destruct H as [Hc H].
    destruct (digit_char c Hc) as [_ Hdot]. unfold is_dot in Hdot.
    rewrite Hdot, (IH H). reflexivity.
Qed.

Lemma digits_value_total (s : string) :
  Str.forallb Str.is_digit s = true ->
  forall acc, exists m, digits_value acc s = Some m.
Proof.
  induction s as [| c s IH]; intros H acc; simpl in *.
  - now exists acc.
  - apply andb_true_iff in H. destruct H as [Hc H]. rewrite Hc. now apply IH.
Qed.

Lemma pyfloat_body_total (neg : bool) (ip fr : string) :
  digits ip = true ->
  (fr = "" \/ exists fp, fr = String "." fp /\ digits fp = true) ->
  exists f, pyfloat_body neg (ip ++ fr) = Some f.
Proof.
  intros Hip Hfr. unfold pyfloat_body.
  destruct (digits_inv ip Hip) as (d & ds & E & Hd & Hds).
  assert (Hall : Str.forallb Str.is_digit ip = true)
    by (subst ip; simpl; now rewrite Hd, Hds).
  rewrite (split1_digits ip fr Hall).
  destruct Hfr as [-> | (fp & -> & Hfp)].
  - cbn [Str.split1 fst snd]. rewrite !StrFacts.append_nil_r.
    subst ip. cbn [Str.truthy negb].
    destruct (digits_value_total (String d ds) Hall 0) as [m ->].
    eauto.
  - destruct (digits_inv fp Hfp) as (e & es & -> & He & Hes).
    cbn [Str.split1 fst snd]. change (Ascii.eqb "." ".") with true.
    cbn [fst snd]. rewrite StrFacts.append_nil_r.
    subst ip. cbn [Str.truthy negb append].
    assert (H2 : Str.forallb Str.is_digit (String d (ds ++ String e es)) = true).
    { simpl. rewrite Hd, StrFacts.forallb_append, Hds. simpl.
      now rewrite He, Hes. }
    destruct (digits_value_total _ H2 0) as [m ->]. eauto.
Qed.

Lemma pyfloat_digit_head (d : ascii) (r : string) :
  Str.is_digit d = true ->
  pyfloat (String d r) = pyfloat_body false (String d r).
Proof.
  destruct d as [[] [] [] [] [] [] [] []]; intros H; vm_compute in H;
    try discriminate; reflexivity.
Qed.

(** [float] does not raise on a numeral. *)
Lemma pyfloat_total (n : string) :
  numeral n -> exists f, pyfloat n = Some f.
Proof.
  intros (sg & ip & fr & -> & Hsg & Hip & Hfr).
  destruct Hsg as [-> | [-> | ->]]; cbn [append].
  - destruct (digits_inv ip Hip) as (d & ds & E & Hd & Hds).
    assert (Hpy : pyfloat (ip ++ fr) = pyfloat_body false (ip ++ fr))
      by (subst ip; apply pyfloat_digit_head; exact Hd).
    rewrite Hpy. now apply pyfloat_body_total.
  - change (pyfloat (String "+" (ip ++ fr)))
      with (pyfloat_body false (ip ++ fr)).
    now apply pyfloat_body_total.
  - change (pyfloat (String "-" (ip ++ fr)))
      with (pyfloat_body true (ip ++ fr)).
    now apply pyfloat_body_total.
Qed.

End NumberFacts.

(* ================================================================= *)
(** ** What the report parser produces *)

Module ParserFacts.
Import Re Parser Notions.

Section Sound.
Context {R : Type}.
Implicit Types (k : @cont R) (caps : captures).

Lemma star_sound (p : ascii -> bool) (s : string) :
  forall pos caps k x,
    star p pos s caps k = Some x ->
    exists w s',
      s = w ++ s' /\ Str.forallb p w = true
      /\ k (pos + String.length w)%nat s' caps = Some x.
Proof.
  induction s as [| c s IH]; intros pos caps k x H; simpl in H.
  - exists "", "". rewrite Nat.add_0_r. now repeat split.
  - destruct (p c) eqn:Ec.
    + destruct (star p (S pos) s caps k) as [y |] eqn:Es.
      * injection H as ->.
        destruct (IH _ _ _ _ Es) as (w & s' & -> & Hw & Hk).
        exists (String c w), s'. simpl. rewrite Ec, Hw.
        repeat split.
        now replace (pos + S (String.length w))%nat
          with (S pos + String.length w)%nat by lia.
      * exists "", (String c s). rewrite Nat.add_0_r. now repeat split.
    + exists "", (String c s). rewrite Nat.add_0_r. now repeat split.
Qed.

Lemma plus_sound (p : ascii -> bool) (s : string) pos caps k x :
  run (Plus p) pos s caps k = Some x ->
  exists w s',
    s = w ++ s' /\ Str.truthy w = true /\ Str.forallb p w = true
    /\ k (pos + String.length w)%nat s' caps = Some x.
Proof.
  cbn [run]. destruct s as [| c s]; [discriminate |].
  destruct (p c) eqn:Ec; [| discriminate]. intros H.
  destruct (star_sound _ _ _ _ _ _ H) as (w & s' & -> & Hw & Hk).
  exists (String c w), s'. simpl. rewrite Ec, Hw. repeat split.
  now replace (pos + S (String.length w))%nat
    with (S pos + String.length w)%nat by lia.
Qed.

Lemma digits_plus (s : string) pos caps k x :
  run (Plus Str.is_digit) pos s caps k = Some x ->
  exists w s',
    s = w ++ s' /\ digits w = true
    /\ k (pos + String.length w)%nat s' caps = Some x.
Proof.
  intros H. destruct (plus_sound _ _ _ _ _ _ H) as (w & s' & E & H1 & H2 & Hk).
  exists w, s'. unfold digits. now rewrite H1, H2.
Qed.

Lemma frac_sound (s : string) pos caps k x :
  run (Opt (Seq (Cls is_dot) (Plus Str.is_digit))) pos s caps k = Some x ->
  exists fr s',
    s = fr ++ s'
    /\ (fr = "" \/ exists fp, fr = String "." fp /\ digits fp = true)
    /\ k (pos + String.length fr)%nat s' caps = Some x.
Proof.
  rewrite NumberFacts.run_opt, NumberFacts.run_seq.
  destruct (run (Cls is_dot) pos s caps _) as [y |] eqn:E.
  - intros [= ->]. destruct s as [| c s]; [discriminate |].
    rewrite NumberFacts.run_cls in E.
    destruct (is_dot c) eqn:Ec; [| discriminate].
    apply Ascii.eqb_eq in Ec. subst c.
    destruct (digits_plus _ _ _ _ _ E) as (w & s' & -> & Hw & Hk).
    exists (String "." w), s'. repeat split.
    + right. now exists w.
    + simpl. now replace (pos + S (String.length w))%nat
        with (S pos + String.length w)%nat by lia.
  - intros H. exists "", s. rewrite Nat.add_0_r. repeat split; auto.
Qed.

(** Whatever the number pattern consumes is a numeral. *)
Lemma number_sound (s : string) pos caps k x :
  run NumberRe pos s caps k = Some x ->
  exists w s',
    s = w ++ s' /\ numeral w
    /\ k (pos + String.length w)%nat s' caps = Some x.
Proof.
  unfold NumberRe. rewrite NumberFacts.run_seq, NumberFacts.run_opt.
  assert (Hbody : forall pos0 s0,
             run (Seq (Plus Str.is_digit)
                      (Opt (Seq (Cls is_dot) (Plus Str.is_digit))))
                 pos0 s0 caps k = Some x ->
             exists ip fr s',
               s0 = ip ++ fr ++ s' /\ digits ip = true
               /\ (fr = "" \/ exists fp, fr = String "." fp /\ digits fp = true)
               /\ k (pos0 + String.length (ip ++ fr))%nat s' caps = Some x).
  { intros pos0 s0 H. rewrite NumberFacts.run_seq in H.
    destruct (digits_plus _ _ _ _ _ H) as (ip & s1 & -> & Hip & H1).
    destruct (frac_sound _ _ _ _ _ H1) as (fr & s' & -> & Hfr & H2).
    exists ip, fr, s'. repeat split; auto.
    rewrite StrFacts.length_append.
    now rewrite Nat.add_assoc. }
  destruct (run (Cls is_sign) pos s caps _) as [y |] eqn:E.
  - intros [= ->]. destruct s as [| c s]; [discriminate |].
    rewrite NumberFacts.run_cls in E.
    destruct (is_sign c) eqn:Ec; [| discriminate].
    destruct (Hbody _ _ E) as (ip & fr & s' & -> & Hip & Hfr & Hk).
    exists (String c (ip ++ fr)), s'. repeat split.
    + simpl. now rewrite StrFacts.append_assoc.
    + exists (String c ""), ip, fr. repeat split; auto.
      unfold is_sign in Ec. apply orb_true_iff in Ec.
      rewrite !Ascii.eqb_eq in Ec. destruct Ec as [-> | ->]; auto.
    + simpl. now replace (pos + S (String.length (ip ++ fr)))%nat
        with (S pos + String.length (ip ++ fr))%nat by lia.
  - intros H. destruct (Hbody _ _ H) as (ip & fr & s' & -> & Hip & Hfr & Hk).
    exists (ip ++ fr), s'. repeat split.
    + now rewrite StrFacts.append_assoc.
    + exists "", ip, fr. repeat split; auto.
    + exact Hk.
Qed.

End Sound.

Lemma search_from_sound (r : regex) (s : string) :
  forall pos m,
    search_from r pos s = Some m ->
    exists pos' s', match_at r pos' s' = Some m.
Proof.
  induction s as [| c s IH]; intros pos m H; simpl in H.
  - destruct (match_at r pos "") eqn:E; [| discriminate].
    injection H as ->. now exists pos, "".
  - destruct (match_at r pos (String c s)) eqn:E.
    + injection H as ->. now exists pos, (String c s).
    + now apply (IH (S pos)).
Qed.

(** The text the number pattern finds is a numeral. *)
Lemma NumberRe_finds_numeral (s : string) (m : match_obj) :
  search NumberRe s = Some m -> numeral (group 0 m).
Proof.
  intros H. destruct (search_from_sound _ _ _ _ H) as (pos & s0 & Hm).
  unfold match_at in Hm.
  destruct (number_sound _ _ _ _ _ Hm) as (w & s' & -> & Hw & Hk).
  injection Hk as <-. simpl.
  replace (pos + String.length w - pos)%nat with (String.length w) by lia.
  now rewrite StrFacts.take_app.
Qed.

(** The text the unit pattern finds is made of letters and percent signs. *)
Lemma UnitRe_finds_word (s : string) (m : match_obj) :
  search UnitRe s = Some m -> Str.forallb unit_char (group 0 m) = true.
Proof.
  intros H. destruct (search_from_sound _ _ _ _ H) as (pos & s0 & Hm).
  unfold match_at, UnitRe in Hm. rewrite NumberFacts.run_seq in Hm.
  destruct (plus_sound _ _ _ _ _ _ Hm) as (w & s' & -> & _ & Hw & Hk).
  assert (E : m = MatchObj
                    (Str.take (pos + String.length w - pos) (w ++ s')) []).
  { cbn [run] in Hk. destruct s' as [| c [| c' s'']].
    - now injection Hk as <-.
    - destruct (Ascii.eqb c "010"); [now injection Hk as <- | discriminate].
    - discriminate. }
  subst m. simpl.
  replace (pos + String.length w - pos)%nat with (String.length w) by lia.
  now rewrite StrFacts.take_app.
Qed.

(** Every record of the report parser is well-formed: its value_str is a
    numeral and its unit, when it has one, a run of letters and percent
    signs. *)
Lemma parse_line_well_formed (raw : string) (lv : LabelValue) :
  parse_line raw = Some lv -> well_formed lv.
Proof.
  unfold parse_line.
  destruct (negb (Str.truthy _)); [discriminate |].
  destruct (_ || _); [discriminate |].
  destruct (Str.startswith "time/date" _); [discriminate |].
  destruct (rmatch LineRe _) as [m |]; [| discriminate].
  destruct (search NumberRe _) as [mnum |] eqn:En; [| discriminate].
  intros [= <-]. split; cbn [value_str unit].
  - exact (NumberRe_finds_numeral _ _ En).
  - intros s. destruct (search UnitRe _) as [u |] eqn:Eu; [| discriminate].
    intros [= <-]. exact (UnitRe_finds_word _ _ Eu).
Qed.

Lemma parse_important_well_formed (lines : list string) :
  Forall well_formed (parse_important lines).
Proof.
  induction lines as [| raw lines IH]; simpl; [constructor |].
  destruct (parse_line raw) as [lv |] eqn:E; [| exact IH].
  constructor; [exact (parse_line_well_formed _ _ E) | exact IH].
Qed.

End ParserFacts.

(* ================================================================= *)
(** ** Selectors *)

Module CssFacts.
Import Dom Script Css.

Section WithBuiltins.
Context {B : Js.Builtins}.

Lemma class_part_join (cur : Element B) :
  class_part cur
  = Str.join ""
      (List.map (fun k => "." ++ Js.CSS_escape B k)
         (firstn 2
            (filter (fun c => Str.truthy c
                              && negb (Str.existsb Str.is_digit c))
                    (classList cur)))).
Proof.
  unfold class_part. destruct (classList cur); reflexivity.
Qed.

(** The text of the compound is the segment [cssPath] writes. *)
Lemma render_compound_of (doc : Document B) (h : handle) (cur : Element B) :
  render_compound B (compound_of doc h cur) = segment doc h cur.
Proof.
  unfold render_compound, compound_of, segment. cbn [ctag ccls cnth].
  rewrite class_part_join.
  destruct h as [| i ph].
  - now rewrite StrFacts.append_nil_r.
  - destruct (resolve doc ph) as [parent |].
    + now rewrite StrFacts.append_assoc.
    + now rewrite StrFacts.append_nil_r.
Qed.

Lemma cssPath_loop_chain (doc : Document B) (h : handle) :
  forall parts : list compound,
    cssPath_loop doc h (List.map (render_compound B) parts)
    = List.map (render_compound B)
        (rev (chain doc h (List.length parts)) ++ parts)%list.
Proof.
  induction h as [| i ph IH]; intros parts; cbn [cssPath_loop chain].
  - destruct (resolve doc []) as [cur |]; [| reflexivity].
    destruct (is_body doc []); [reflexivity |].
    cbn [rev app List.map]. now rewrite render_compound_of.
  - destruct (resolve doc (i :: ph)) as [cur |]; [| reflexivity].
    destruct (is_body doc (i :: ph)); [reflexivity |].
    cbn [List.length]. rewrite length_map.
    destruct (6 <? S (List.length parts))%nat.
    + cbn [rev app List.map]. now rewrite render_compound_of.
    + rewrite <- render_compound_of.
      change (render_compound B (compound_of doc (i :: ph) cur)
              :: List.map (render_compound B) parts)
        with (List.map (render_compound B)
                (compound_of doc (i :: ph) cur :: parts)).
      rewrite IH. cbn [List.length rev]. now rewrite <- app_assoc.
Qed.

(** The text of [selector_at] is the path [cssPath] returns. *)
Lemma render_selector_at (doc : Document B) (h : handle) :
  render B (selector_at doc h) = cssPath doc h.
Proof.
  unfold selector_at, cssPath.
  destruct (resolve doc h) as [e |]; [| reflexivity].
  destruct (unique_id doc e); [reflexivity |].
  cbn [render].
  change (cssPath_loop doc h []) with
    (cssPath_loop doc h (List.map (render_compound B) [])).
  rewrite cssPath_loop_chain. cbn [List.length].
  now rewrite app_nil_r, map_rev.
Qed.

Lemma in_first_two {A : Type} (n : nat) (l : list A) (a : A) :
  In a (firstn n l) -> In a l.
Proof.
  revert l. induction n as [| n IH]; intros [| b l]; simpl; try tauto.
  intros [-> | H]; [now left | right; now apply IH].
Qed.

(** An element matches the compound written for it. *)
Lemma compound_of_matches (doc : Document B) (h : handle) (cur : Element B) :
  resolve doc h = Some cur ->
  matches_compound doc (compound_of doc h cur) h = true.
Proof.
  intros Hr. unfold matches_compound, compound_of. rewrite Hr.
  cbn [ctag ccls cnth]. rewrite String.eqb_refl. cbn [andb].
  apply andb_true_iff. split.
  - apply forallb_forall. intros k Hk. apply in_first_two in Hk.
    apply filter_In in Hk. destruct Hk as [Hk _].
    apply existsb_exists. exists k. split; [exact Hk | apply String.eqb_refl].
  - destruct h as [| i ph]; [reflexivity |].
    destruct (resolve doc ph) as [parent |]; [| reflexivity].
    apply Nat.eqb_refl.
Qed.

(** An element matches the chain written from it upwards. *)
Lemma chain_matches (doc : Document B) (h : handle) :
  forall n,
    chain doc h n <> [] -> matches_path doc (chain doc h n) h = true.
Proof.
  induction h as [| i ph IH]; intros n; cbn [chain].
  - destruct (resolve doc []) as [cur |] eqn:Er; [| congruence].
    destruct (is_body doc []); [congruence |]. intros _.
    cbn [matches_path]. now rewrite (compound_of_matches _ _ _ Er).
  - destruct (resolve doc (i :: ph)) as [cur |] eqn:Er; [| congruence].
    destruct (is_body doc (i :: ph)); [congruence |]. intros _.
    destruct (6 <? S n)%nat.
    + cbn [matches_path]. now rewrite (compound_of_matches _ _ _ Er).
    + cbn [matches_path]. rewrite (compound_of_matches _ _ _ Er).
      cbn [andb]. destruct (chain doc ph (S n)) as [| c cs] eqn:Ec;
        [reflexivity |].
      rewrite <- Ec. apply IH. congruence.
Qed.

(** An element with a non-empty path matches its own selector. *)
Lemma selector_at_matches (doc : Document B) (h : handle) :
  cssPath doc h <> "" -> matches doc (selector_at doc h) h = true.
Proof.
  rewrite <- render_selector_at. unfold selector_at.
  destruct (resolve doc h) as [e |] eqn:Er; [| intros H; now elim H].
  destruct (unique_id doc e).
  - intros _. cbn [matches]. rewrite Er. apply String.eqb_refl.
  - intros H. cbn [matches]. apply chain_matches.
    intros E. apply H. now rewrite E.
Qed.

Lemma find_first {A : Type} (p : A -> bool) (before after : list A) (a : A) :
  forallb (fun x => negb (p x)) before = true -> p a = true ->
  find p (before ++ a :: after) = Some a.
Proof.
  induction before as [| b before IH]; cbn [forallb app find]; intros Hb Ha.
  - now rewrite Ha.
  - apply andb_true_iff in Hb. destruct Hb as [Hb Hbs].
    apply negb_true_iff in Hb. rewrite Hb. now apply IH.
Qed.

(** The selector of an element with a non-empty path selects that element
    exactly when no element before it in document order matches. *)
Lemma select_selector_at (doc : Document B) (h : handle) :
  cssPath doc h <> "" -> first_to_match doc h ->
  select doc (selector_at doc h) = Some h.
Proof.
  intros Hp (before & after & Hall & Hb). unfold select. rewrite Hall.
  apply find_first; [exact Hb | now apply selector_at_matches].
Qed.

End WithBuiltins.
End CssFacts.

(* ================================================================= *)
(** ** Learning then applying on the unchanged page *)

Module RoundTripSpec.
Import Outcome Parser Mapper Dict Notions.

Section WithBrowser.
Context {B : Js.Builtins} (goto : string -> option (Page B)).

Lemma eval_on_selector_trimmed (page : Page B) (sel t : string) :
  eval_on_selector page sel = Some t -> Script.trim t = t.
Proof.
  unfold eval_on_selector.
  destruct (query page sel) as [h |]; [| discriminate].
  destruct (Dom.resolve (document page) h) as [el |]; [| discriminate].
  intros [= <-]. apply StrFacts.strip_idem.
Qed.

Lemma apply_entry_of_entry (page : Page B) (sel expect : string) :
  apply_entry page (entry sel expect)
  = if Str.truthy sel then
      match eval_on_selector page sel with
      | Some t => (number_in t, [sel])
      | None => (None, [sel])
      end
    else (number_in "", []).
Proof. reflexivity. Qed.

(** A text that is an exact or exact-with-unit match of a numeral starts
    with the numeral and goes on with nothing, or with the unit. *)
Lemma exact_match_shape (t n : string) (u : option string) :
  Script.trim t = t ->
  unit_word u ->
  let unitStr := match u with Some s => s | None => "" end in
  Script.containsNumberLike t n unitStr = Some Script.exact
  \/ Script.containsNumberLike t n unitStr = Some Script.exact_unit ->
  exists rest, t = n ++ rest /\ ends_number rest = true.
Proof.
  intros Htrim Hu unitStr H. unfold Script.containsNumberLike in H.
  destruct (Str.truthy t); cbn [negb] in H; [| destruct H; discriminate].
  rewrite Htrim in H.
  destruct (String.eqb_spec t n) as [-> | Hne].
  - exists "". now rewrite StrFacts.append_nil_r.
  - destruct (Str.truthy unitStr) eqn:Et; cbn [andb] in H.
    + assert (Hw : exists c s, unitStr = String c s /\ unit_char c = true).
      { unfold unitStr in *. destruct u as [[| c s] |]; try discriminate.
        exists c, s. split; [reflexivity |].
        pose proof (Hu _ eq_refl) as Hall. simpl in Hall.
        now apply andb_true_iff in Hall. }
      destruct Hw as (c & s & Eu & Hc).
      destruct (NumberFacts.unit_char_ends c Hc) as [Hd Hdot].
      destruct (String.eqb_spec t (n ++ unitStr)) as [-> | Hne1].
      * exists unitStr. split; [reflexivity |]. rewrite Eu. simpl.
        now rewrite Hd, Hdot.
      * destruct (String.eqb_spec t (n ++ " " ++ unitStr)) as [-> | Hne2].
        -- exists (" " ++ unitStr). split; reflexivity.
        -- cbn [orb] in H. destruct (Str.includes n t);
             destruct H; discriminate.
    + destruct (Str.includes n t); destruct H; discriminate.
Qed.

(** C2, as the code has it. Let the page load, let no record hold a
    placeholder of the script, and let a well-formed record (a numeral,
    with letters or percent signs as unit) be the last one with its label.
    Let the script's winner for it be the candidate of the element [h],
    with a non-empty path and an exact or exact-with-unit match.  If [h] is
    the first element in document order that its path matches, and the
    browser resolves that path as [document.querySelector] does, then
    learning stores the path, and applying the learned map to the same
    page yields, for that label, exactly the learn-time value_str parsed as
    a float. *)
Theorem exact_winner_round_trip
        (url : string) (page : Page B) (labels : list LabelValue)
        (lv : LabelValue) (h : Dom.handle)
        (best : Script.Candidate (B := B))
        (others : list (Script.Candidate (B := B))) :
  goto url = Some page ->
  Forall (fun r => plain r = true) labels ->
  last_with (label lv) labels = Some lv ->
  well_formed lv ->
  evaluate page lv = Returns (best :: others) ->
  Script.candidate_of (document page) (value_str lv) (label lv)
    (match unit lv with Some s => s | None => "" end) h = Some best ->
  Script.path best <> "" ->
  (Script.containsNumberLike (Script.elText best) (value_str lv)
     (match unit lv with Some s => s | None => "" end) = Some Script.exact
   \/ Script.containsNumberLike (Script.elText best) (value_str lv)
        (match unit lv with Some s => s | None => "" end)
      = Some Script.exact_unit) ->
  Css.first_to_match (document page) h ->
  query page (Css.render B (Css.selector_at (document page) h))
  = Css.select (document page) (Css.selector_at (document page) h) ->
  exists selectors results f,
    learn_selectors goto url labels = Returns selectors
    /\ Script.path best = Script.cssPath (document page) h
    /\ Script.path best = Css.render B (Css.selector_at (document page) h)
    /\ Css.select (document page) (Css.selector_at (document page) h)
       = Some h
    /\ get (label lv) selectors
       = Some (entry (Script.path best) (value_str lv))
    /\ apply_selectors goto url selectors = Some results
    /\ pyfloat (value_str lv) = Some f
    /\ get (label lv) results = Some (Some f).
Proof.
  intros Hgo Hplain Hlast [Hnum Hunit] Hev Hcand Hpath Htier Hfirst Hconf.
  destruct (NumberFacts.pyfloat_total _ Hnum) as [f Hf].
  destruct (MapperSpec.learn_loop_keys page labels []) as [Hnd _];
    [constructor |].
  assert (Hbest : exists el,
             Dom.resolve (document page) h = Some el
             /\ Script.elText best = Script.textOf el
             /\ Script.path best = Script.cssPath (document page) h).
  { unfold Script.candidate_of in Hcand.
    destruct (Dom.resolve (document page) h) as [el |]; [| discriminate].
    destruct (negb (Script.isVisible el)); [discriminate |].
    destruct (Script.containsNumberLike _ _ _); [| discriminate].
    injection Hcand as <-. exists el. now repeat split. }
  destruct Hbest as (el & Hel & Htext & Hcss).
  assert (Hsel : Css.select (document page) (Css.selector_at (document page) h)
                 = Some h).
  { apply CssFacts.select_selector_at; [now rewrite <- Hcss | exact Hfirst]. }
  assert (Hres : eval_on_selector page (Script.path best)
                 = Some (Script.elText best)).
  { unfold eval_on_selector.
    rewrite Hcss, <- CssFacts.render_selector_at, Hconf, Hsel, Hel.
    now rewrite Htext. }
  assert (Hfound : found page lv = best :: others).
  { rewrite MapperSpec.evaluate_eq in Hev.
    destruct (plain lv); [now injection Hev | discriminate]. }
  assert (Hentry : learn_entry (found page lv) lv
                   = entry (Script.path best) (value_str lv)).
  { rewrite Hfound. unfold learn_entry.
    apply StrFacts.truthy_true in Hpath. now rewrite Hpath. }
  assert (Hlearned : get (label lv) (learnt page labels [])
                     = Some (entry (Script.path best) (value_str lv))).
  { rewrite MapperSpec.learn_loop_get, Hlast. now rewrite Hentry. }
  exists (learnt page labels []),
         (fst (apply_loop page (learnt page labels []) [] [])), f.
  unfold learn_selectors, apply_selectors, apply_run. rewrite Hgo.
  split; [now apply MapperSpec.learn_loop_returns |].
  split; [exact Hcss |].
  split; [now rewrite Hcss, CssFacts.render_selector_at |].
  split; [exact Hsel |].
  split; [exact Hlearned |].
  split; [reflexivity |]. split; [exact Hf |].
  cbn [option_map fst].
  rewrite MapperSpec.apply_loop_get by assumption. rewrite Hlearned.
  f_equal. rewrite apply_entry_of_entry.
  apply StrFacts.truthy_true in Hpath. rewrite Hpath, Hres. cbn [fst].
  destruct (exact_match_shape _ _ _ (eval_on_selector_trimmed _ _ _ Hres)
                              Hunit Htier) as (rest & Et & Hrest).
  unfold number_in. rewrite Et.
  rewrite (NumberFacts.NumberRe_search _ _ Hnum Hrest). cbn [Re.group Re.whole].
  assert (Htruthy : Str.truthy (value_str lv ++ rest) = true).
  { destruct Hnum as (sg & ip & fr & -> & [-> | [-> | ->]] & Hip & _);
      try reflexivity.
    destruct (NumberFacts.digits_inv ip Hip) as (d & ds & -> & _).
    reflexivity. }
  now rewrite Htruthy.
Qed.

End WithBrowser.

(** Two floats differ when one is above [c] and the other is not. *)
Ltac floats_differ c :=
  let H := fresh "H" in
  intros H;
  apply (f_equal (fun o => match o with
                           | Some x => PrimFloat.ltb c x
                           | None => false
                           end)) in H;
  vm_compute in H; discriminate.

(** C2, counterexample. Three pages on which learning stores a non-empty
    selector that the browser resolves as [document.querySelector] does,
    and applying the learned map to the same page does not give back the
    learn-time value.

    On the sample report, the label "Normal from" (value "18.5") has a
    partial match only, inside "BMI 21.4 (normal 18.5-24.9)"; the path is
    matched by that element alone, and applying gives 21.4, the first
    numeral of the text.

    On the page [ambiguous], the value "62.5" is an exact match, and its
    path "div:nth-of-type(1) > span:nth-of-type(1)" also matches an earlier
    element, which shows "11": applying gives 11.

    On the page [ten], the record with value "1" and unit "0" (not a unit
    of the report parser) is an exact match with unit of the text "10":
    applying gives 10. *)
Lemma round_trip_breaks :
  (let labels := parse_important Samples.report_lines in
   let goto := Samples.report_goto Samples.FB in
   let page := Samples.report_page Samples.FB in
   let h := [2; 1]%nat in
   exists lv selectors results best others,
     last_with "Normal from" labels = Some lv
     /\ value_str lv = "18.5"%string /\ unit lv = None
     /\ Forall (fun r => plain r = true) labels
     /\ evaluate page lv = Returns (best :: others)
     /\ Script.candidate_of (document page) "18.5" "Normal from" "" h
        = Some best
     /\ Script.containsNumberLike (Script.elText best) "18.5" ""
        = Some Script.partial
     /\ Css.first_to_match (document page) h
     /\ query page (Css.render Samples.FB (Css.selector_at (document page) h))
        = Css.select (document page) (Css.selector_at (document page) h)
     /\ learn_selectors goto Samples.report_url labels = Returns selectors
     /\ get "Normal from" selectors
        = Some (entry "p:nth-of-type(1)" "18.5")
     /\ apply_selectors goto Samples.report_url selectors = Some results
     /\ get "Normal from" results = Some (pyfloat "21.4")
     /\ pyfloat "21.4" <> pyfloat "18.5")
  /\ (let labels := [Samples.weight] in
      let goto := Samples.ambiguous_goto Samples.FB in
      let page := Samples.ambiguous_page Samples.FB in
      let h := Samples.ambiguous_value in
      exists selectors results best,
        evaluate page Samples.weight = Returns [best]
        /\ Script.candidate_of (document page) "62.5" "Weight" "kg" h
           = Some best
        /\ Script.containsNumberLike (Script.elText best) "62.5" "kg"
           = Some Script.exact
        /\ Script.path best
           = "div:nth-of-type(1) > span:nth-of-type(1)"%string
        /\ query page (Css.render Samples.FB (Css.selector_at (document page) h))
           = Css.select (document page) (Css.selector_at (document page) h)
        /\ Css.matches (document page) (Css.selector_at (document page) h)
             [0; 0; 0; 1]%nat = true
        /\ Css.select (document page) (Css.selector_at (document page) h)
           = Some [0; 0; 0; 1]%nat
        /\ option_map Script.textOf
             (Dom.resolve (document page) [0; 0; 0; 1]%nat)
           = Some "11"%string
        /\ learn_selectors goto "https://example.org/a" labels
           = Returns selectors
        /\ get "Weight" selectors
           = Some (entry "div:nth-of-type(1) > span:nth-of-type(1)" "62.5")
        /\ apply_selectors goto "https://example.org/a" selectors
           = Some results
        /\ get "Weight" results = Some (pyfloat "11")
        /\ pyfloat "11" <> pyfloat "62.5")
  /\ (let labels := [Samples.one_with_unit_zero] in
      let goto := Samples.ten_goto Samples.FB in
      let page := Samples.ten_page Samples.FB in
      let h := Samples.ten_value in
      exists selectors results best,
        evaluate page Samples.one_with_unit_zero = Returns [best]
        /\ Script.candidate_of (document page) "1" "Count" "0" h = Some best
        /\ Script.containsNumberLike (Script.elText best) "1" "0"
           = Some Script.exact_unit
        /\ Css.first_to_match (document page) h
        /\ query page (Css.render Samples.FB (Css.selector_at (document page) h))
           = Css.select (document page) (Css.selector_at (document page) h)
        /\ learn_selectors goto "https://example.org/t" labels
           = Returns selectors
        /\ get "Count" selectors = Some (entry "p:nth-of-type(1)" "1")
        /\ apply_selectors goto "https://example.org/t" selectors
           = Some results
        /\ get "Count" results = Some (pyfloat "10")
        /\ pyfloat "10" <> pyfloat "1").
Proof.
  split; [| split].
  - cbv zeta. do 5 eexists.
    split; [vm_compute; reflexivity |].
    split; [reflexivity |]. split; [reflexivity |].
    split; [repeat constructor |].
    split; [vm_compute; reflexivity |].
    split; [vm_compute; reflexivity |].
    split; [vm_compute; reflexivity |].
    split.
    { exists (firstn 10 (Dom.all_elements (Samples.report Samples.FB))),
             (skipn 11 (Dom.all_elements (Samples.report Samples.FB))).
      split; vm_compute; reflexivity. }
    split; [vm_compute; reflexivity |].
    split; [vm_compute; reflexivity |].
    split; [vm_compute; reflexivity |].
    split; [vm_compute; reflexivity |].
    split; [vm_compute; reflexivity |].
    floats_differ 20%float.
  - cbv zeta. do 3 eexists.
    split; [vm_compute; reflexivity |].
    split; [vm_compute; reflexivity |].
    split; [vm_compute; reflexivity |].
    split; [vm_compute; reflexivity |].
    split; [vm_compute; reflexivity |].
    split; [vm_compute; reflexivity |].
    split; [vm_compute; reflexivity |].
    split; [vm_compute; reflexivity |].
    split; [vm_compute; reflexivity |].
    split; [vm_compute; reflexivity |].
    split; [vm_compute; reflexivity |].
    split; [vm_compute; reflexivity |].
    floats_differ 20%float.
  - cbv zeta. do 3 eexists.
    split; [vm_compute; reflexivity |].
    split; [vm_compute; reflexivity |].
    split; [vm_compute; reflexivity |].
    split.
    { exists (firstn 3 (Dom.all_elements (Samples.ten Samples.FB))),
             (skipn 4 (Dom.all_elements (Samples.ten Samples.FB))).
      split; vm_compute; reflexivity. }
    split; [vm_compute; reflexivity |].
    split; [vm_compute; reflexivity |].
    split; [vm_compute; reflexivity |].
    split; [vm_compute; reflexivity |].
    split; [vm_compute; reflexivity |].
    floats_differ 5%float.
Qed.

End RoundTripSpec.

(* ================================================================= *)
(** ** The properties on the sample pages *)

Module OnSamples.
Import Samples Notions.

(** C5 on the text "62.5 kg": an exact match with unit. *)
Lemma priority_on_weight_text :
  "62.5 kg" <> ""
  /\ Script.containsNumberLike "62.5 kg" "62.5" "kg" = Some Script.exact_unit.
Proof.
  split; [discriminate |].
  destruct (ScriptSpec.containsNumberLike_priority "62.5 kg" "62.5" "kg")
    as (_ & H & _); [discriminate |].
  apply H; [discriminate | discriminate | right; reflexivity].
Defined.

(** C3 on two boxes over the real numbers: with the same bonus, the larger
    box does not score higher. *)
Lemma antitone_on_boxes :
  Js.leb RB (area (small_box RB)) (area (large_box RB)) = true
  /\ Js.ltb RB (Script.score_of Script.exact (small_box RB) true)
              (Script.score_of Script.exact (large_box RB) true) = false.
Proof.
  assert (H : Js.leb RB (area (small_box RB)) (area (large_box RB)) = true).
  { apply JsFacts.Rleb_true. unfold area, small_box, large_box, box. simpl.
    lra. }
  split; [exact H |].
  apply (RankingSpec.score_antitone_in_area (JsFacts.real_laws _)
           Script.exact true _ _ H).
Defined.

(** The elements the loop of the script visits on [crowded]. *)
Lemma crowded_elements (B : Js.Builtins) :
  Script.elements (crowded B)
  = [[0; 0; 1]; [1; 0; 1]; [2; 0; 1]; [3; 0; 1]; [4; 0; 1]; [5; 0; 1];
     [6; 0; 1]]%nat.
Proof. reflexivity. Qed.

(** Over the real numbers, a sample node with a box of positive width and
    height is visible. *)
Lemma node_visible (tag ident : string) (cls : list string) (w h : Z)
      (text : string) (kids : list (Dom.Element RB)) :
  (0 < w)%Z -> (0 < h)%Z ->
  Script.isVisible (node RB tag ident cls w h text kids) = true.
Proof.
  intros Hw Hh. unfold Script.isVisible, node, box.
  cbn [Dom.visibility Dom.display Dom.rect Dom.width Dom.height].
  change ("visible" =? "hidden")%string with false.
  change ("block" =? "none")%string with false.
  cbn [orb RB Js.RealBuiltins Js.leb Js.lit]. unfold Js.Rleb.
  destruct (Rle_dec (IZR w) 0) as [H | _]; [apply le_IZR in H; lia |].
  destruct (Rle_dec (IZR h) 0) as [H | _]; [apply le_IZR in H; lia |].
  reflexivity.
Qed.

Lemma kept_when_shown {B : Js.Builtins} (doc : Dom.Document B)
      (n l u : string) (h : Dom.handle) (el : Dom.Element B) :
  Dom.resolve doc h = Some el ->
  Script.isVisible el = true ->
  Script.containsNumberLike (Script.textOf el) n u <> None ->
  Script.candidate_of doc n l u h <> None.
Proof.
  intros Hr Hv Hc. unfold Script.candidate_of. rewrite Hr, Hv.
  cbn [negb]. destruct (Script.containsNumberLike _ _ _);
    [discriminate | congruence].
Qed.

Lemma collect_all_kept {B : Js.Builtins} (doc : Dom.Document B)
      (n l u : string) (els : list Dom.handle) :
  Forall (fun h => Script.candidate_of doc n l u h <> None) els ->
  List.length (Script.collect doc n l u els) = List.length els.
Proof.
  induction 1 as [| h els Hh _ IH]; cbn [Script.collect]; [reflexivity |].
  destruct (Script.candidate_of doc n l u h); [| congruence].
  cbn [List.length]. now rewrite IH.
Qed.

(** C6 on the page [crowded] over the real numbers: seven candidates are
    found, five are returned, two are dropped.  In binary64 the candidates
    are found in document order and returned by ascending width, the items
    of the same width in document order. *)
Lemma ranking_on_crowded :
  boxes_comparable (crowded RB)
  /\ (let found := Script.collect (crowded RB) "62.5" "Weight" "kg"
                     (Script.elements (crowded RB)) in
      let top := Script.SELECTOR_JS (crowded RB) "62.5" "Weight" "kg" in
      List.length found = 7%nat
      /\ List.length top = 5%nat
      /\ StronglySorted not_lower top
      /\ (forall v, exists later,
             filter (scores v) found = (filter (scores v) top ++ later)%list)
      /\ (exists winner rest before after,
             top = winner :: rest
             /\ found = (before ++ winner :: after)%list
             /\ Forall (fun c => Js.ltb RB (Script.score c)
                                        (Script.score winner) = true) before
             /\ Forall (fun c => Js.leb RB (Script.score c)
                                        (Script.score winner) = true) after)
      /\ (exists dropped,
             List.length dropped = 2%nat
             /\ Permutation found (top ++ dropped)
             /\ StronglySorted not_lower (top ++ dropped)
             /\ forall v, filter (scores v) (top ++ dropped)
                          = filter (scores v) found))
  /\ List.map (fun c => Script.path c)
       (Script.collect (crowded FB) "62.5" "Weight" "kg"
          (Script.elements (crowded FB)))
     = ["ul:nth-of-type(1) > li:nth-of-type(1)";
        "ul:nth-of-type(1) > li:nth-of-type(2)";
        "ul:nth-of-type(1) > li:nth-of-type(3)";
        "ul:nth-of-type(1) > li:nth-of-type(4)";
        "ul:nth-of-type(1) > li:nth-of-type(5)";
        "ul:nth-of-type(1) > li:nth-of-type(6)";
        "ul:nth-of-type(1) > li:nth-of-type(7)"]%string
  /\ List.map (fun c => Script.path c)
       (Script.SELECTOR_JS (crowded FB) "62.5" "Weight" "kg")
     = ["ul:nth-of-type(1) > li:nth-of-type(3)";
        "ul:nth-of-type(1) > li:nth-of-type(6)";
        "ul:nth-of-type(1) > li:nth-of-type(1)";
        "ul:nth-of-type(1) > li:nth-of-type(2)";
        "ul:nth-of-type(1) > li:nth-of-type(4)"]%string.
Proof.
  assert (Hdoc : boxes_comparable (crowded RB)).
  { intros h el _. apply JsFacts.Rleb_true. lra. }
  assert (Hfound : List.length
                     (Script.collect (crowded RB) "62.5" "Weight" "kg"
                        (Script.elements (crowded RB))) = 7%nat).
  { rewrite collect_all_kept; [now rewrite crowded_elements |].
    rewrite crowded_elements.
    repeat constructor;
      (eapply kept_when_shown;
       [ reflexivity
       | apply node_visible; lia
       | vm_compute; discriminate ]). }
  split; [exact Hdoc |].
  split; [| split; vm_compute; reflexivity].
  pose proof (RankingSpec.top5_sorted_and_stable
                (B := RB) (JsFacts.real_laws _)
                (crowded RB) "62.5" "Weight" "kg" Hdoc)
    as H.
  cbv zeta in H. cbv zeta.
  destruct H as (_ & Hsorted & Hstable & Hwin & _ & Hlen
                 & (dropped & Hperm & Hall & Hsame) & Hsome).
  rewrite Hfound in Hlen. cbn [Nat.min] in Hlen.
  split; [exact Hfound |]. split; [exact Hlen |].
  split; [exact Hsorted |]. split; [exact Hstable |].
  split.
  { destruct Hsome as (winner & rest & Htop).
    { intros E. rewrite E in Hfound. discriminate. }
    destruct (Hwin winner rest Htop) as (before & after & E & Hb & Ha).
    now exists winner, rest, before, after. }
  exists dropped. split; [| now repeat split].
  apply Permutation_length in Hperm.
  rewrite Hfound, length_app, Hlen in Hperm. lia.
Defined.

(** C4 on the stored map: the recorded miss for "Height" gives null. *)
Lemma miss_on_report :
  Mapper.apply_entry (report_page FB) (Mapper.entry "" "171.0") = (None, [])
  /\ exists results calls,
      Mapper.apply_run (report_goto FB) report_url stored
      = Some (results, calls)
      /\ Mapper.apply_selectors (report_goto FB) report_url stored
         = Some results
      /\ Dict.get "Height" results = Some None
      /\ ~ In "" calls.
Proof.
  apply (MapperSpec.empty_selector_yields_null
           (report_goto FB) report_url (report_page FB) stored
           "Height" (Mapper.entry "" "171.0")).
  - reflexivity.
  - repeat constructor; simpl; intuition discriminate.
  - reflexivity.
  - reflexivity.
Defined.

(** C10 on the stored map. *)
Lemma labels_kept_on_report :
  exists results,
    Mapper.apply_selectors (report_goto FB) report_url stored = Some results
    /\ Dict.keys results = ["Weight"; "Height"].
Proof.
  destruct (MapperSpec.apply_keeps_label_set
              (report_goto FB) report_url (report_page FB) stored)
    as (results & H1 & H2 & _).
  - reflexivity.
  - repeat constructor; simpl; intuition discriminate.
  - exists results. now split.
Defined.

(** C9 on a report that gives the weight twice and a pulse the page does
    not show: one entry per label, the weight learnt from its later line,
    the pulse recorded as a miss. *)
Lemma learning_on_repeated :
  List.map Parser.label (Parser.parse_important repeated_lines)
  = ["Weight"; "Height"; "Weight"; "Pulse"]%string
  /\ exists selectors,
      Mapper.learn_selectors (report_goto FB) report_url
        (Parser.parse_important repeated_lines) = Outcome.Returns selectors
      /\ NoDup (Dict.keys selectors)
      /\ Dict.keys selectors = ["Weight"; "Height"; "Pulse"]%string
      /\ Dict.get "Weight" selectors
         = Some (Mapper.entry
                   "div.row:nth-of-type(1) > span.value:nth-of-type(2)"
                   "62.5")
      /\ Dict.get "Pulse" selectors = Some (Mapper.entry "" "70").
Proof.
  split; [vm_compute; reflexivity |].
  destruct (MapperSpec.learn_one_entry_per_label
              (report_goto FB) report_url (report_page FB)
              (Parser.parse_important repeated_lines) eq_refl)
    as ((selectors & H1 & H2 & _) & _).
  { repeat constructor. }
  exists selectors. split; [exact H1 |]. split; [exact H2 |].
  vm_compute in H1. injection H1 as <-.
  repeat split; vm_compute; reflexivity.
Defined.

(** C2 on the sample report: the weight is learnt as an exact match with
    unit, from the only element its path matches, and read back as 62.5. *)
Lemma round_trip_on_report :
  exists selectors results f,
    Mapper.learn_selectors (report_goto FB) report_url
      (Parser.parse_important report_lines) = Outcome.Returns selectors
    /\ Script.path weight_winner
       = Script.cssPath (report FB) [1; 0; 1]%nat
    /\ Script.path weight_winner
       = Css.render FB (Css.selector_at (report FB) [1; 0; 1]%nat)
    /\ Css.select (report FB) (Css.selector_at (report FB) [1; 0; 1]%nat)
       = Some [1; 0; 1]%nat
    /\ Dict.get "Weight" selectors
       = Some (Mapper.entry (Script.path weight_winner) "62.5")
    /\ Mapper.apply_selectors (report_goto FB) report_url selectors
       = Some results
    /\ Parser.pyfloat "62.5" = Some f
    /\ Dict.get "Weight" results = Some (Some f).
Proof.
  apply (RoundTripSpec.exact_winner_round_trip
           (report_goto FB) report_url (report_page FB)
           (Parser.parse_important report_lines) weight [1; 0; 1]%nat
           weight_winner []).
  - reflexivity.
  - repeat constructor.
  - vm_compute. reflexivity.
  - split.
    + exists "", "62", ".5". repeat split; auto. right. now exists "5".
    + intros s [= <-]. reflexivity.
  - vm_compute. reflexivity.
  - vm_compute. reflexivity.
  - discriminate.
  - right. vm_compute. reflexivity.
  - exists (firstn 6 (Dom.all_elements (report FB))),
           (skipn 7 (Dom.all_elements (report FB))).
    split; vm_compute; reflexivity.
  - vm_compute. reflexivity.
Defined.


End OnSamples.

(* ================================================================= *)
(** ** The records file, the registry and the batch loop *)

Module BatchSpec.
Import Outcome Dict Batch MoreNotions.

Lemma forallb_lstrip (p sp : ascii -> bool) (s : string) :
  Str.forallb p s = true -> Str.forallb p (Str.lstrip sp s) = true.
Proof.
  induction s as [| c s IH]; simpl; [reflexivity |].
  intros H. apply andb_true_iff in H. destruct H as [Hc Hs].
  destruct (sp c); [now apply IH | simpl; now rewrite Hc, Hs].
Qed.

Lemma forallb_rstrip (p sp : ascii -> bool) (s : string) :
  Str.forallb p s = true -> Str.forallb p (Str.rstrip sp s) = true.
Proof.
  induction s as [| c s IH]; simpl; [reflexivity |].
  intros H. apply andb_true_iff in H. destruct H as [Hc Hs].
  specialize (IH Hs). destruct (Str.rstrip sp s) as [| a r].
  - destruct (sp c); simpl; [reflexivity | now rewrite Hc].
  - simpl in *. now rewrite Hc, IH.
Qed.

Lemma forallb_strip (p sp : ascii -> bool) (s : string) :
  Str.forallb p s = true -> Str.forallb p (Str.strip sp s) = true.
Proof. intros H. now apply forallb_rstrip, forallb_lstrip. Qed.

Lemma splitlines_cr (s cur : string) :
  splitlines_from (String "013" s) cur
  = cur :: splitlines_from
             (match s with
              | String c s' => if Ascii.eqb c "010" then s' else s
              | EmptyString => s
              end) "".
Proof.
  destruct s as [| c s']; [reflexivity |].
  destruct c as [[] [] [] [] [] [] [] []]; reflexivity.
Qed.

Lemma splitlines_from_unbroken (s : string) :
  forall cur,
    Str.forallb (fun c => negb (is_linebreak c)) cur = true ->
    Forall (fun l => Str.forallb (fun c => negb (is_linebreak c)) l = true)
           (splitlines_from s cur).
Proof.
  induction s as [| c s IH]; intros cur Hcur.
  - simpl. destruct (Str.truthy cur); repeat constructor; assumption.
  - destruct (Ascii.eqb c "013") eqn:Ecr.
    + apply Ascii.eqb_eq in Ecr. subst c. rewrite splitlines_cr.
      constructor; [assumption |].
      destruct s as [| c' s']; [now apply IH |].
      destruct (Ascii.eqb c' "010") eqn:E10; [| now apply IH].
      apply Ascii.eqb_eq in E10. subst c'.
      specialize (IH "" eq_refl). now inversion IH.
    + cbn [splitlines_from]. rewrite Ecr.
      destruct (is_linebreak c) eqn:E.
      * constructor; [assumption | now apply IH].
      * apply IH. rewrite StrFacts.forallb_append, Hcur. simpl. now rewrite E.
Qed.


Lemma read_records_lines_filter (lines : list string) :
  read_records_lines lines
  = filter (fun s => Str.truthy s && negb (Str.startswith "#" s))
           (List.map (Str.strip Str.py_isspace) lines).
Proof.
  induction lines as [| raw lines IH]; simpl; [reflexivity |].
  destruct (Str.truthy (Str.strip Str.py_isspace raw));
    destruct (Str.startswith "#" (Str.strip Str.py_isspace raw));
    simpl; now rewrite IH.
Qed.

(** X1. A missing records file gives no URL.  Otherwise the URLs returned
    are, in file order, the stripped lines that are neither blank nor
    comments: each one is non-empty, has no surrounding whitespace, does not
    start with "#" and contains no line break. *)
Theorem read_records_clean :
  _read_records_file None = []
  /\ forall text,
      _read_records_file (Some text)
      = filter (fun s => Str.truthy s && negb (Str.startswith "#" s))
               (List.map (Str.strip Str.py_isspace) (splitlines text))
      /\ Forall (fun u =>
                   u <> ""
                   /\ Str.strip Str.py_isspace u = u
                   /\ Str.startswith "#" u = false
                   /\ Str.forallb (fun c => negb (is_linebreak c)) u = true)
                (_read_records_file (Some text)).
Proof.
  split; [reflexivity |]. intros text. unfold _read_records_file.
  rewrite read_records_lines_filter. split; [reflexivity |].
  apply Forall_forall. intros u Hu. apply filter_In in Hu.
  destruct Hu as [Hin Hkeep]. apply andb_true_iff in Hkeep.
  destruct Hkeep as [Ht Hc]. apply negb_true_iff in Hc.
  apply in_map_iff in Hin. destruct Hin as (raw & <- & Hraw).
  split; [now apply StrFacts.truthy_true |].
  split; [apply StrFacts.strip_idem |]. split; [exact Hc |].
  apply forallb_strip.
  pose proof (splitlines_from_unbroken text "" eq_refl) as Hall.
  rewrite Forall_forall in Hall. now apply Hall.
Qed.

(** *** Grouping by date key *)

Section Grouping.
Context {A : Type} (key : A -> string).

Lemma setdefault_append_get (k : string) (x : A) (d : dict (list A)) (k' : string) :
  get k' (setdefault_append k x d)
  = if String.eqb k k'
    then Some (match get k d with Some l => l ++ [x] | None => [x] end)%list
    else get k' d.
Proof.
  unfold setdefault_append.
  destruct (String.eqb_spec k k') as [<- | Hne].
  - destruct (get k d); apply DictFacts.get_set_same.
  - destruct (get k d); now apply DictFacts.get_set_other.
Qed.

Lemma setdefault_append_NoDup (k : string) (x : A) (d : dict (list A)) :
  NoDup (keys d) -> NoDup (keys (setdefault_append k x d)).
Proof.
  unfold setdefault_append. destruct (get k d);
    apply DictFacts.NoDup_keys_set.
Qed.

Lemma setdefault_append_keys (k : string) (x : A) (d : dict (list A)) :
  keys (setdefault_append k x d)
  = if in_dec string_dec k (keys d) then keys d else (keys d ++ [k])%list.
Proof.
  unfold setdefault_append.
  destruct (in_dec string_dec k (keys d)) as [Hin | Hn].
  - destruct (get k d); now apply DictFacts.keys_set_present.
  - destruct (get k d); now apply DictFacts.keys_set_absent.
Qed.

Lemma existsb_eqb_In (k : string) (l : list string) :
  List.existsb (String.eqb k) l = true <-> In k l.
Proof.
  rewrite existsb_exists. split.
  - intros (x & Hx & E). apply String.eqb_eq in E. now subst.
  - intros H. exists k. split; [exact H | apply String.eqb_refl].
Qed.

(** Grouping lists the keys in the order in which they first occur. *)
Lemma group_by_keys (xs : list A) :
  forall d,
    keys (group_by key xs d)
    = (keys d ++ first_occurrences (keys d) (List.map key xs))%list.
Proof.
  induction xs as [| x xs IH]; intros d;
    cbn [group_by List.map first_occurrences].
  - now rewrite app_nil_r.
  - rewrite IH, setdefault_append_keys.
    destruct (in_dec string_dec (key x) (keys d)) as [Hin | Hn].
    + now rewrite (proj2 (existsb_eqb_In _ _) Hin).
    + destruct (List.existsb (String.eqb (key x)) (keys d)) eqn:E.
      * now apply existsb_eqb_In in E.
      * now rewrite <- app_assoc.
Qed.

(** Grouping keeps the list order inside every group. *)
Lemma group_by_get (k : string) (xs : list A) :
  forall d,
    get k (group_by key xs d)
    = match get k d, filter (fun x => String.eqb (key x) k) xs with
      | None, [] => None
      | None, l => Some l
      | Some l0, l => Some (l0 ++ l)%list
      end.
Proof.
  induction xs as [| x xs IH]; intros d; cbn [group_by filter].
  - destruct (get k d); [now rewrite app_nil_r | reflexivity].
  - rewrite IH, setdefault_append_get.
    destruct (String.eqb_spec (key x) k) as [<- | Hne]; [| reflexivity].
    destruct (get (key x) d); [now rewrite <- app_assoc | reflexivity].
Qed.

Lemma group_by_NoDup (xs : list A) :
  forall d, NoDup (keys d) -> NoDup (keys (group_by key xs d)).
Proof.
  induction xs as [| x xs IH]; intros d Hd; simpl; [assumption |].
  apply IH. now apply setdefault_append_NoDup.
Qed.

End Grouping.

Lemma has_key_date (u : string) :
  has_key u -> Records._date_from_url u = Returns (date_key u).
Proof. intros [d Hd]. unfold date_key. now rewrite Hd. Qed.

Lemma filter_dated (d : string) (urls : list string) :
  Forall has_key urls ->
  filter (fun u => String.eqb (date_key u) d) urls = filter (dated d) urls.
Proof.
  intros H. apply filter_ext_in. intros u Hu.
  rewrite Forall_forall in H. specialize (H u Hu).
  unfold dated. now rewrite (has_key_date u H).
Qed.

Lemma add_all_group (urls : list string) :
  forall m0,
    Forall has_key urls ->
    Registry.add_all m0 urls = Returns (group_by date_key urls m0).
Proof.
  induction urls as [| u urls IH]; intros m0 H; [reflexivity |].
  inversion H as [| ? ? Hu Hrest]; subst.
  cbn [Registry.add_all group_by]. unfold Registry._add.
  rewrite (has_key_date u Hu). now apply IH.
Qed.

Lemma add_all_returns (urls : list string) :
  forall m0 m, Registry.add_all m0 urls = Returns m -> Forall has_key urls.
Proof.
  induction urls as [| u urls IH]; intros m0 m; cbn [Registry.add_all];
    [constructor |].
  unfold Registry._add.
  destruct (Records._date_from_url u) as [d | |] eqn:E; try discriminate.
  intros H. constructor; [now exists d | exact (IH _ _ H)].
Qed.

Lemma add_all_raises (urls : list string) :
  forall m0,
    Registry.add_all m0 urls = Raises
    <-> exists before u after,
        urls = (before ++ u :: after)%list
        /\ Forall has_key before
        /\ Records.url_query u = Raises.
Proof.
  induction urls as [| u urls IH]; intros m0; cbn [Registry.add_all].
  - split; [discriminate |].
    intros (before & u & after & E & _). now destruct before.
  - unfold Registry._add.
    destruct (Records._date_from_url u) as [d | |] eqn:E.
    + rewrite IH. split.
      * intros (before & u' & after & -> & Hb & Hu').
        exists (u :: before), u', after. repeat split; [| exact Hu'].
        constructor; [now exists d | exact Hb].
      * intros (before & u' & after & E' & Hb & Hu').
        destruct before as [| b before]; cbn [app] in E'.
        -- injection E' as <- _.
           apply RecordsSpec.date_from_url_raises in Hu'. congruence.
        -- injection E' as <- ->. inversion Hb; subst.
           now exists before, u', after.
    + split; [| reflexivity]. intros _. exists [], u, urls.
      repeat split; [constructor |].
      now apply RecordsSpec.date_from_url_raises.
    + split; [discriminate |].
      intros (before & u' & after & E' & Hb & Hu').
      destruct before as [| b before]; cbn [app] in E'.
      * injection E' as <- _.
        apply RecordsSpec.date_from_url_raises in Hu'. congruence.
      * injection E' as <- ->. inversion Hb as [| ? ? [d Hd] _]; subst.
        congruence.
Qed.

(** X2. On the URLs the model covers, a run of [_add] calls on an empty
    registry returns exactly when [_date_from_url] returns a key for every
    URL, and it raises exactly when [urlparse] rejects a URL and every URL
    before it has a key.  The registry it builds has each date key once, the keys in the order in
    which the dates first occur among the URLs, and under a key exactly the
    URLs with that date key, in the order in which they were added; a key
    without URL is absent. *)
Theorem registry_groups_by_date (urls : list string) :
  ((exists m, Registry.add_all [] urls = Returns m) <-> Forall has_key urls)
  /\ (Registry.add_all [] urls = Raises
      <-> exists before u after,
          urls = (before ++ u :: after)%list
          /\ Forall has_key before
          /\ Records.url_query u = Raises)
  /\ forall m,
      Registry.add_all [] urls = Returns m ->
      NoDup (keys m)
      /\ keys m = first_occurrences [] (List.map date_key urls)
      /\ forall d, get d m = match filter (dated d) urls with
                             | [] => None
                             | l => Some l
                             end.
Proof.
  split.
  { split.
    - intros [m Hm]. exact (add_all_returns urls [] m Hm).
    - intros H. eexists. now apply add_all_group. }
  split; [apply add_all_raises |]. intros m Hm.
  pose proof (add_all_returns urls [] m Hm) as Hok.
  rewrite (add_all_group urls [] Hok) in Hm. injection Hm as <-.
  split; [apply group_by_NoDup; constructor |].
  split; [now rewrite group_by_keys |].
  intros d. rewrite group_by_get. cbn [get].
  now rewrite filter_dated.
Qed.

Section WithBrowser.
Context {B : Js.Builtins} (goto : string -> option (Mapper.Page B)).

Lemma apply_selectors_raises (u : string) (template : dict (dict string)) :
  Mapper.apply_selectors goto u template = None <-> goto u = None.
Proof.
  unfold Mapper.apply_selectors, Mapper.apply_run.
  destruct (goto u); simpl; split; congruence.
Qed.

Lemma group_records_group (template : dict (dict string))
      (mk : string -> url_record) (urls : list string) :
  (forall u, In u urls ->
             exists res d,
               Mapper.apply_selectors goto u template = Some res
               /\ Records._date_from_url u = Returns d
               /\ mk u = mkUrlRecord u res) ->
  forall g0,
    group_records goto template urls g0
    = Returns (group_by (fun e => date_key (url e)) (List.map mk urls) g0).
Proof.
  induction urls as [| u urls IH]; intros H g0; [reflexivity |].
  cbn [group_records List.map group_by].
  destruct (H u (or_introl eq_refl)) as (res & d & -> & Hd & ->).
  cbn [url]. assert (Hk : date_key u = d) by (unfold date_key; now rewrite Hd).
  rewrite Hd, Hk.
  apply IH. intros u' Hu'. apply H. now right.
Qed.

Lemma group_records_returns (template : dict (dict string))
      (urls : list string) :
  forall g0 g,
    group_records goto template urls g0 = Returns g ->
    Forall (grouped_url goto) urls.
Proof.
  induction urls as [| u urls IH]; intros g0 g; cbn [group_records];
    [constructor |].
  destruct (Mapper.apply_selectors goto u template) as [res |] eqn:Ea;
    [| discriminate].
  destruct (Records._date_from_url u) as [d | |] eqn:Ed; try discriminate.
  intros H. constructor; [| exact (IH _ _ H)].
  split; [| now exists d].
  intros Hg. apply (apply_selectors_raises u template) in Hg. congruence.
Qed.

Lemma group_records_raises (template : dict (dict string))
      (urls : list string) :
  forall g0,
    group_records goto template urls g0 = Raises
    <-> exists before u after,
        urls = (before ++ u :: after)%list
        /\ Forall (grouped_url goto) before
        /\ (goto u = None
            \/ (goto u <> None /\ Records.url_query u = Raises)).
Proof.
  induction urls as [| u urls IH]; intros g0; cbn [group_records].
  - split; [discriminate |].
    intros (before & u & after & E & _). now destruct before.
  - destruct (Mapper.apply_selectors goto u template) as [res |] eqn:Ea.
    + assert (Hgo : goto u <> None).
      { intros Hg. apply (apply_selectors_raises u template) in Hg.
        congruence. }
      destruct (Records._date_from_url u) as [d | |] eqn:Ed.
      * rewrite IH. split.
        -- intros (before & u' & after & -> & Hb & Hu').
           exists (u :: before), u', after. repeat split; [| exact Hu'].
           constructor; [| exact Hb]. split; [exact Hgo | now exists d].
        -- intros (before & u' & after & E' & Hb & Hu').
           destruct before as [| b before]; cbn [app] in E'.
           ++ injection E' as <- _. destruct Hu' as [Hg | [_ Hq]];
                [congruence |].
              apply RecordsSpec.date_from_url_raises in Hq. congruence.
           ++ injection E' as <- ->. inversion Hb; subst.
              now exists before, u', after.
      * split; [| reflexivity]. intros _. exists [], u, urls.
        repeat split; [constructor |]. right. split; [exact Hgo |].
        now apply RecordsSpec.date_from_url_raises.
      * split; [discriminate |].
        intros (before & u' & after & E' & Hb & Hu').
        destruct before as [| b before]; cbn [app] in E'.
        -- injection E' as <- _. destruct Hu' as [Hg | [_ Hq]];
             [congruence |].
           apply RecordsSpec.date_from_url_raises in Hq. congruence.
        -- injection E' as <- ->.
           inversion Hb as [| ? ? [_ [d Hd]] _]; subst. congruence.
    + split; [| reflexivity]. intros _. exists [], u, urls.
      repeat split; [constructor |]. left.
      now apply (apply_selectors_raises u template).
Qed.

(** X3. On the URLs the model covers, the batch loop of [main] returns
    exactly when every URL of the list loads and has a date key, and it
    raises (nothing is grouped) exactly when, after URLs that load and
    have a key, one fails to load or is rejected by [urlparse].  When it returns, every date key occurs
    once, the keys are in the order in which the dates first occur among
    the URLs, and the entries under a key are, in list order, those of the
    URLs with that date key, each with the result of applying the template
    to its URL; a key without URL is absent. *)
Theorem batch_groups_by_date
        (template : dict (dict string)) (urls : list string) :
  ((exists g, group_records goto template urls [] = Returns g)
   <-> Forall (grouped_url goto) urls)
  /\ (group_records goto template urls [] = Raises
      <-> exists before u after,
          urls = (before ++ u :: after)%list
          /\ Forall (grouped_url goto) before
          /\ (goto u = None
              \/ (goto u <> None /\ Records.url_query u = Raises)))
  /\ forall g,
      group_records goto template urls [] = Returns g ->
      NoDup (keys g)
      /\ keys g = first_occurrences [] (List.map date_key urls)
      /\ forall d,
          match get d g with
          | Some es =>
              es <> []
              /\ List.map url es = filter (dated d) urls
              /\ Forall (fun e => Mapper.apply_selectors goto (url e) template
                                  = Some (labels e)) es
          | None => filter (dated d) urls = []
          end.
Proof.
  set (mk := fun u => mkUrlRecord u
                        match Mapper.apply_selectors goto u template with
                        | Some res => res
                        | None => []
                        end).
  assert (Hmk : Forall (grouped_url goto) urls ->
                forall u, In u urls ->
                  exists res d,
                    Mapper.apply_selectors goto u template = Some res
                    /\ Records._date_from_url u = Returns d
                    /\ mk u = mkUrlRecord u res).
  { intros Hall u Hu. rewrite Forall_forall in Hall.
    destruct (Hall u Hu) as [H1 [d Hd]]. unfold mk.
    destruct (Mapper.apply_selectors goto u template) as [res |] eqn:Ea.
    - now exists res, d.
    - now apply apply_selectors_raises in Ea. }
  split.
  { split.
    - intros [g Hg]. exact (group_records_returns template urls [] g Hg).
    - intros H. eexists. exact (group_records_group template mk urls (Hmk H) []). }
  split; [apply group_records_raises |]. intros g Hg.
  pose proof (group_records_returns template urls [] g Hg) as Hall.
  rewrite (group_records_group template mk urls (Hmk Hall)) in Hg.
  injection Hg as <-.
  split; [apply group_by_NoDup; constructor |].
  split.
  { now rewrite group_by_keys, map_map. }
  intros d. rewrite group_by_get. cbn [get].
  assert (Hf : filter (fun e => String.eqb (date_key (url e)) d)
                      (List.map mk urls)
               = List.map mk (filter (dated d) urls)).
  { rewrite <- filter_dated
      by (eapply Forall_impl; [| exact Hall]; now intros u [_ Hu]).
    clear. induction urls as [| u urls IH]; [reflexivity |].
    cbn [List.map filter]. unfold mk at 1. cbn [url].
    destruct (String.eqb (date_key u) d); cbn [List.map]; now rewrite IH. }
  rewrite Hf.
  assert (Hsub : forall u, In u (filter (dated d) urls) -> In u urls)
    by (intros u Hu; now apply filter_In in Hu).
  destruct (filter (dated d) urls) as [| u0 l] eqn:El; [reflexivity |].
  cbn [List.map]. split; [discriminate |]. split.
  - change (List.map url (List.map mk (u0 :: l)) = u0 :: l).
    rewrite map_map. unfold mk. cbn [url]. apply map_id.
  - change (Forall (fun e => Mapper.apply_selectors goto (url e) template
                             = Some (labels e)) (List.map mk (u0 :: l))).
    apply Forall_forall. intros e He. apply in_map_iff in He.
    destruct He as (u & <- & Hu).
    destruct (Hmk Hall u (Hsub u Hu)) as (res & d' & Hres & _ & ->).
    exact Hres.
Qed.

End WithBrowser.
End BatchSpec.

(* ================================================================= *)
(** ** The number pattern as a scanner *)

Module ScanFacts.
Import Re Parser Notions MoreNotions.

Lemma span_after (p : ascii -> bool) (s : string) :
  s = span p s ++ after p s.
Proof.
  induction s as [| c s IH]; simpl; [reflexivity |].
  destruct (p c); simpl; [now rewrite <- IH | reflexivity].
Qed.

Lemma span_all (p : ascii -> bool) (s : string) :
  Str.forallb p (span p s) = true.
Proof.
  induction s as [| c s IH]; simpl; [reflexivity |].
  destruct (p c) eqn:E; simpl; [now rewrite E | reflexivity].
Qed.

Lemma after_stops (p : ascii -> bool) (s : string) :
  starts_with p (after p s) = false.
Proof.
  induction s as [| c s IH]; simpl; [reflexivity |].
  destruct (p c) eqn:E; simpl; [exact IH | exact E].
Qed.

Lemma existsb_append (p : ascii -> bool) (a b : string) :
  Str.existsb p (a ++ b) = Str.existsb p a || Str.existsb p b.
Proof.
  induction a as [| c a IH]; simpl; [reflexivity |].
  now rewrite IH, orb_assoc.
Qed.

Lemma numeral_has_digit (n : string) :
  numeral n -> Str.existsb Str.is_digit n = true.
Proof.
  intros (sg & ip & fr & -> & _ & Hip & _).
  apply NumberFacts.digits_inv in Hip.
  destruct Hip as (d & ds & -> & Hd & _).
  rewrite !existsb_append. cbn [Str.existsb]. rewrite Hd.
  now rewrite orb_true_r.
Qed.

Lemma append_inv_head (a b c : string) : a ++ b = a ++ c -> b = c.
Proof.
  induction a as [| x a IH]; cbn [append]; [trivial |].
  intros [= E]. now apply IH.
Qed.

Lemma drop_app (a b : string) : drop (String.length a) (a ++ b) = b.
Proof. induction a as [| c a IH]; simpl; [now destruct b | exact IH]. Qed.

Lemma drop_add (a r : string) (n : nat) :
  drop (String.length a + n) (a ++ r) = drop n r.
Proof. induction a as [| c a IH]; simpl; [reflexivity | exact IH]. Qed.

Lemma drop_span (p : ascii -> bool) (s : string) :
  drop (String.length (span p s)) s = after p s.
Proof. rewrite (span_after p s) at 2. apply drop_app. Qed.

Section Total.
Context {R : Type}.
Implicit Types (k : @cont R) (caps : captures).

(** When the rest of the pattern cannot fail, a greedy repetition takes the
    longest run. *)
Lemma star_total (p : ascii -> bool) k :
  (forall pos s caps, k pos s caps <> None) ->
  forall s pos caps,
    star p pos s caps k
    = k (pos + String.length (span p s))%nat (after p s) caps.
Proof.
  intros Hk. induction s as [| c s IH]; intros pos caps; simpl.
  - now rewrite Nat.add_0_r.
  - destruct (p c) eqn:E.
    + rewrite IH. cbn [String.length].
      rewrite Nat.add_succ_r, <- Nat.add_succ_l.
      destruct (k (S pos + String.length (span p s))%nat (after p s) caps)
        eqn:Ek; [reflexivity |].
      now apply Hk in Ek.
    + cbn [String.length]. now rewrite Nat.add_0_r.
Qed.

Lemma plus_total (p : ascii -> bool) k :
  (forall pos s caps, k pos s caps <> None) ->
  forall s pos caps,
    run (Plus p) pos s caps k
    = if starts_with p s
      then k (pos + String.length (span p s))%nat (after p s) caps
      else None.
Proof.
  intros Hk s pos caps. cbn [run]. destruct s as [| c s]; [reflexivity |].
  simpl. destruct (p c) eqn:E; [| reflexivity].
  rewrite (star_total p k Hk). cbn [String.length].
  now rewrite Nat.add_succ_r, <- Nat.add_succ_l.
Qed.

Lemma fraction_total k :
  (forall pos s caps, k pos s caps <> None) ->
  forall s pos caps,
    run (Opt (Seq (Cls is_dot) (Plus Str.is_digit))) pos s caps k
    = k (pos + String.length (fraction s))%nat
        (drop (String.length (fraction s)) s) caps.
Proof.
  intros Hk s pos caps.
  rewrite NumberFacts.run_opt, NumberFacts.run_seq.
  destruct s as [| c r1].
  - simpl. now rewrite Nat.add_0_r.
  - rewrite NumberFacts.run_cls. unfold fraction.
    destruct (is_dot c) eqn:Ec; cbn [andb].
    + rewrite (plus_total Str.is_digit k Hk).
      destruct (starts_with Str.is_digit r1) eqn:Es.
      * cbn [String.length drop]. rewrite drop_span.
        rewrite Nat.add_succ_r, <- Nat.add_succ_l.
        destruct (k (S pos + String.length (span Str.is_digit r1))%nat
                    (after Str.is_digit r1) caps) eqn:Ek; [reflexivity |].
        now apply Hk in Ek.
      * simpl. now rewrite Nat.add_0_r.
    + simpl. now rewrite Nat.add_0_r.
Qed.

Lemma fraction_continuation_total k :
  (forall pos s caps, k pos s caps <> None) ->
  forall pos s caps,
    run (Opt (Seq (Cls is_dot) (Plus Str.is_digit))) pos s caps k <> None.
Proof. intros Hk pos s caps. rewrite (fraction_total k Hk). apply Hk. Qed.

Lemma unsigned_prefix (s : string) :
  s = unsigned_number s
      ++ drop (String.length (fraction (after Str.is_digit s)))
              (after Str.is_digit s).
Proof.
  unfold unsigned_number. rewrite StrFacts.append_assoc.
  rewrite (span_after Str.is_digit s) at 1. f_equal.
  generalize (after Str.is_digit s) as r. intros r.
  unfold fraction. destruct r as [| c r1]; [reflexivity |].
  destruct (is_dot c && starts_with Str.is_digit r1); [| reflexivity].
  cbn [String.length drop append]. rewrite drop_span. f_equal.
  apply span_after.
Qed.

Lemma body_total k :
  (forall pos s caps, k pos s caps <> None) ->
  forall s pos caps,
    run (Seq (Plus Str.is_digit) (Opt (Seq (Cls is_dot) (Plus Str.is_digit))))
        pos s caps k
    = if starts_with Str.is_digit s
      then k (pos + String.length (unsigned_number s))%nat
             (drop (String.length (unsigned_number s)) s) caps
      else None.
Proof.
  intros Hk s pos caps. rewrite NumberFacts.run_seq.
  rewrite (plus_total Str.is_digit _ (fraction_continuation_total k Hk)).
  destruct (starts_with Str.is_digit s); [| reflexivity].
  rewrite (fraction_total k Hk). unfold unsigned_number.
  rewrite StrFacts.length_append, Nat.add_assoc. f_equal.
  transitivity (drop (String.length (span Str.is_digit s)
                      + String.length (fraction (after Str.is_digit s)))
                     (span Str.is_digit s ++ after Str.is_digit s)).
  - now rewrite drop_add.
  - now rewrite <- span_after.
Qed.

End Total.
End ScanFacts.

Module ScanSpec.
Import Re Parser Notions MoreNotions ScanFacts.

Lemma sign_char (c : ascii) :
  is_sign c = true -> Str.is_digit c = false.
Proof.
  unfold is_sign. intros H. apply orb_true_iff in H.
  destruct H as [H | H]; apply Ascii.eqb_eq in H; subst c; reflexivity.
Qed.

Lemma take_unsigned (s : string) :
  Str.take (String.length (unsigned_number s)) s = unsigned_number s.
Proof. rewrite (unsigned_prefix s) at 2. apply StrFacts.take_app. Qed.

(** At any position the number pattern matches exactly what the scanner
    reads, and captures nothing. *)
Lemma match_at_number (pos : nat) (s : string) :
  match_at NumberRe pos s
  = option_map (fun n => MatchObj n []) (number_at s).
Proof.
  unfold match_at, NumberRe.
  set (K := fun (pos' : nat) (_ : string) (caps : captures) =>
              Some (MatchObj (Str.take (pos' - pos) s) caps)).
  assert (HK : forall p t caps, K p t caps <> None) by (intros; discriminate).
  rewrite NumberFacts.run_seq, NumberFacts.run_opt.
  destruct s as [| c s1].
  - change (run (Cls is_sign) pos "" [] ?k) with (@None match_obj).
    cbv beta iota. rewrite (body_total K HK). reflexivity.
  - rewrite NumberFacts.run_cls. cbn [number_at].
    destruct (is_sign c) eqn:Ec; cbv beta iota.
    + rewrite (body_total K HK).
      destruct (starts_with Str.is_digit s1) eqn:Es.
      * unfold K. cbn [option_map]. do 2 f_equal.
        replace (S pos + String.length (unsigned_number s1) - pos)%nat
          with (S (String.length (unsigned_number s1))) by lia.
        cbn [Str.take]. now rewrite take_unsigned.
      * rewrite (body_total K HK). cbn [starts_with].
        now rewrite (sign_char c Ec).
    + rewrite (body_total K HK). cbn [starts_with].
      destruct (Str.is_digit c) eqn:Ed; [| reflexivity].
      unfold K. cbn [option_map]. do 2 f_equal.
      replace (pos + String.length (unsigned_number (String c s1)) - pos)%nat
        with (String.length (unsigned_number (String c s1))) by lia.
      apply take_unsigned.
Qed.

Lemma span_digits (s : string) :
  starts_with Str.is_digit s = true -> digits (span Str.is_digit s) = true.
Proof.
  intros H. unfold digits. rewrite span_all, andb_true_r.
  destruct s as [| c s]; [discriminate |]. simpl in *. now rewrite H.
Qed.

Lemma fraction_shape (r : string) :
  fraction r = ""
  \/ exists fp, fraction r = String "." fp /\ digits fp = true.
Proof.
  unfold fraction. destruct r as [| c r1]; [now left |].
  destruct (is_dot c) eqn:Ec; cbn [andb]; [| now left].
  destruct (starts_with Str.is_digit r1) eqn:Es; [| now left].
  right. apply Ascii.eqb_eq in Ec. subst c.
  exists (span Str.is_digit r1). split; [reflexivity | now apply span_digits].
Qed.

Lemma unsigned_numeral (s : string) :
  starts_with Str.is_digit s = true ->
  exists ip fr,
    unsigned_number s = ip ++ fr /\ digits ip = true
    /\ (fr = "" \/ exists fp, fr = String "." fp /\ digits fp = true).
Proof.
  intros H. exists (span Str.is_digit s), (fraction (after Str.is_digit s)).
  split; [reflexivity |]. split; [now apply span_digits | apply fraction_shape].
Qed.

(** What follows the number read does not start with a digit. *)
Lemma unsigned_maximal (s : string) :
  exists b, s = unsigned_number s ++ b
            /\ starts_with Str.is_digit b = false.
Proof.
  exists (drop (String.length (fraction (after Str.is_digit s)))
               (after Str.is_digit s)).
  split; [apply unsigned_prefix |].
  pose proof (after_stops Str.is_digit s) as Hs.
  destruct (after Str.is_digit s) as [| c r1]; [reflexivity |].
  unfold fraction.
  destruct (is_dot c && starts_with Str.is_digit r1); [| exact Hs].
  cbn [String.length drop]. rewrite drop_span. apply after_stops.
Qed.

Lemma number_at_spec (s n : string) :
  number_at s = Some n ->
  numeral n
  /\ exists b, s = n ++ b /\ starts_with Str.is_digit b = false.
Proof.
  unfold number_at. destruct s as [| c s1]; [discriminate |].
  destruct (is_sign c) eqn:Ec.
  - destruct (starts_with Str.is_digit s1) eqn:Es; [| discriminate].
    intros E. injection E as <-.
    destruct (unsigned_numeral s1 Es) as (ip & fr & E & Hip & Hfr).
    destruct (unsigned_maximal s1) as (b & Eb & Hb).
    split.
    + exists (String c ""), ip, fr. repeat split; try assumption.
      * now rewrite E.
      * unfold is_sign in Ec. apply orb_true_iff in Ec.
        destruct Ec as [Ec | Ec]; apply Ascii.eqb_eq in Ec; subst c; auto.
    + exists b. split; [cbn [append]; now rewrite <- Eb | exact Hb].
  - destruct (Str.is_digit c) eqn:Ed; [| discriminate].
    intros E. injection E as <-.
    destruct (unsigned_numeral (String c s1) Ed) as (ip & fr & E & Hip & Hfr).
    destruct (unsigned_maximal (String c s1)) as (b & Eb & Hb).
    split.
    + exists "", ip, fr. repeat split; try assumption. now left.
    + exists b. split; assumption.
Qed.

Lemma number_at_none (c : ascii) (s : string) :
  number_at (String c s) = None -> Str.is_digit c = false.
Proof.
  cbn [number_at]. destruct (is_sign c) eqn:Ec.
  - intros _. now apply sign_char.
  - now destruct (Str.is_digit c).
Qed.

(** A search for the number pattern skips a digit-free stretch and returns
    what the scanner reads after it. *)
Lemma search_from_number (s : string) :
  forall pos,
    match search_from NumberRe pos s with
    | Some m =>
        exists a b,
          s = a ++ whole m ++ b
          /\ Str.existsb Str.is_digit a = false
          /\ number_at (whole m ++ b) = Some (whole m)
          /\ groups m = []
    | None => Str.existsb Str.is_digit s = false
    end.
Proof.
  induction s as [| c s IH]; intros pos.
  - cbn [search_from]. rewrite match_at_number. reflexivity.
  - cbn [search_from]. rewrite match_at_number.
    destruct (number_at (String c s)) as [n |] eqn:En.
    + cbn [option_map whole groups].
      destruct (number_at_spec _ _ En) as (_ & b & Eb & _).
      exists "", b. cbn [append]. rewrite <- Eb. repeat split. exact En.
    + cbn [option_map]. apply number_at_none in En.
      specialize (IH (S pos)).
      destruct (search_from NumberRe (S pos) s) as [m |].
      * destruct IH as (a & b & E & Ha & Hn & Hg).
        exists (String c a), b. cbn [append Str.existsb].
        rewrite En, Ha, <- E. repeat split; assumption.
      * cbn [Str.existsb]. now rewrite En, IH.
Qed.

Lemma search_number (t : string) :
  match search NumberRe t with
  | Some m =>
      exists a b,
        t = a ++ whole m ++ b
        /\ Str.existsb Str.is_digit a = false
        /\ number_at (whole m ++ b) = Some (whole m)
        /\ groups m = []
  | None => Str.existsb Str.is_digit t = false
  end.
Proof. exact (search_from_number t 0). Qed.

End ScanSpec.

Module ApplySpec.
Import Re Parser Notions MoreNotions ScanFacts ScanSpec.

Lemma number_in_spec (t : string) :
  (Mapper.number_in t = None <-> Str.existsb Str.is_digit t = false)
  /\ forall f,
      Mapper.number_in t = Some f ->
      exists a n b,
        t = a ++ n ++ b
        /\ Str.existsb Str.is_digit a = false
        /\ numeral n
        /\ number_at (n ++ b) = Some n
        /\ starts_with Str.is_digit b = false
        /\ pyfloat n = Some f.
Proof.
  unfold Mapper.number_in. pose proof (search_number t) as Hs.
  destruct (Str.truthy t) eqn:Et.
  - destruct (search NumberRe t) as [m |] eqn:Em.
    + destruct Hs as (a & b & E & Ha & Hn & _).
      destruct (number_at_spec _ _ Hn) as (Hnum & b' & Eb & Hb).
      cbn [group].
      destruct (NumberFacts.pyfloat_total _ Hnum) as (f0 & Ef).
      split.
      * rewrite Ef. split; [discriminate |].
        intros Hd. exfalso.
        assert (Hex : Str.existsb Str.is_digit t = true).
        { rewrite E, !existsb_append, (numeral_has_digit _ Hnum).
          now rewrite orb_true_r. }
        congruence.
      * intros f Hf. exists a, (whole m), b.
        apply append_inv_head in Eb. subst b'.
        repeat split; assumption.
    + split; [now split | discriminate].
  - destruct t; [| discriminate]. split; [now split | discriminate].
Qed.

(** X4. The number [apply_selectors] reads from an element's text.  A text
    without a decimal digit gives no value (None).  Any other text gives
    the float of its first numeral: the text is a digit-free stretch, then
    the numeral, then a remainder that does not start with a digit; the
    numeral is the longest one the text has at that place (the scanner
    [number_at] reads it there), so "171.0 cm" gives 171.0, neither 171 nor
    17. *)
Theorem number_in_first_number (t : string) :
  (Mapper.number_in t = None <-> Str.existsb Str.is_digit t = false)
  /\ forall f,
      Mapper.number_in t = Some f ->
      exists a n b,
        t = a ++ n ++ b
        /\ Str.existsb Str.is_digit a = false
        /\ numeral n
        /\ number_at (n ++ b) = Some n
        /\ starts_with Str.is_digit b = false
        /\ pyfloat n = Some f.
Proof. exact (number_in_spec t). Qed.

Lemma first_number_on_height_text :
  exists a n b,
    "Height 171.0 cm" = a ++ n ++ b
    /\ Str.existsb Str.is_digit a = false
    /\ numeral n
    /\ number_at (n ++ b) = Some n
    /\ starts_with Str.is_digit b = false
    /\ pyfloat n = Some 171.0%float.
Proof.
  apply (proj2 (number_in_first_number "Height 171.0 cm")).
  vm_compute. reflexivity.
Defined.

End ApplySpec.

(* ================================================================= *)
(** ** What a record of the report parser holds *)

Module LineFacts.
Import Re Parser Notions MoreNotions ScanFacts.

Lemma space_char (c : ascii) :
  Str.py_isspace c = true ->
  Str.is_digit c = false /\ is_dot c = false /\ unit_char c = false.
Proof.
  destruct c as [[] [] [] [] [] [] [] []]; intros H; vm_compute in H;
    try discriminate; repeat split; reflexivity.
Qed.

Lemma label_char_no_digit (c : ascii) :
  label_char c = true -> Str.is_digit c = false.
Proof.
  destruct c as [[] [] [] [] [] [] [] []]; intros H; vm_compute in H;
    try discriminate; reflexivity.
Qed.

Lemma forallb_no_digit (p : ascii -> bool) (w : string) :
  (forall c, p c = true -> Str.is_digit c = false) ->
  Str.forallb p w = true -> Str.existsb Str.is_digit w = false.
Proof.
  intros Hp. induction w as [| c w IH]; cbn [Str.forallb Str.existsb];
    [reflexivity |].
  intros H. apply andb_true_iff in H. destruct H as [Hc Hw].
  now rewrite (Hp c Hc), (IH Hw).
Qed.

Lemma spaces_no_digit (w : string) :
  Str.forallb Str.py_isspace w = true -> Str.existsb Str.is_digit w = false.
Proof. apply forallb_no_digit. intros c Hc. apply (space_char c Hc). Qed.

(** *** Stripping removes a run of blanks at each end *)

Lemma lstrip_split (sp : ascii -> bool) (s : string) :
  exists lead, s = lead ++ Str.lstrip sp s /\ Str.forallb sp lead = true.
Proof.
  induction s as [| c s IH]; cbn [Str.lstrip].
  - now exists "".
  - destruct (sp c) eqn:Ec.
    + destruct IH as (lead & E & Hl). exists (String c lead).
      cbn [append Str.forallb]. rewrite Ec, Hl. now rewrite <- E.
    + now exists "".
Qed.

Lemma rstrip_split (sp : ascii -> bool) (s : string) :
  exists trail, s = Str.rstrip sp s ++ trail /\ Str.forallb sp trail = true.
Proof.
  induction s as [| c s IH]; cbn [Str.rstrip].
  - now exists "".
  - destruct IH as (trail & E & Ht).
    destruct (Str.rstrip sp s) as [| a r].
    + cbn [append] in E. subst trail. destruct (sp c) eqn:Ec.
      * exists (String c s). cbn [append Str.forallb].
        rewrite Ec, Ht. now split.
      * exists s. now split.
    + exists trail. split; [| exact Ht]. cbn [append] in *. now rewrite <- E.
Qed.

Lemma strip_split (sp : ascii -> bool) (s : string) :
  exists lead trail,
    s = lead ++ Str.strip sp s ++ trail
    /\ Str.forallb sp lead = true /\ Str.forallb sp trail = true.
Proof.
  destruct (lstrip_split sp s) as (lead & E & Hl).
  destruct (rstrip_split sp (Str.lstrip sp s)) as (trail & E' & Ht).
  exists lead, trail. unfold Str.strip. now rewrite <- E', <- E.
Qed.

(** A stripped text that is not empty starts with a character that is not
    a blank. *)
Lemma strip_head (sp : ascii -> bool) (s : string) (c : ascii) (r : string) :
  Str.strip sp s = String c r -> sp c = false.
Proof.
  unfold Str.strip. destruct (Str.lstrip sp s) as [| a u] eqn:E;
    [discriminate |].
  pose proof (StrFacts.lstrip_head _ _ _ _ E) as Ha.
  destruct (StrFacts.rstrip_keeps_head sp a u Ha) as [r' Hr].
  rewrite Hr. now intros [= <- _].
Qed.

(** *** The steps of the matcher, read backwards *)

Section Steps.
Context {R : Type}.
Implicit Types (k : @cont R) (caps : captures).

Lemma run_bol pos (s : string) caps k :
  run Bol pos s caps k = if (pos =? 0)%nat then k pos s caps else None.
Proof. reflexivity. Qed.

Lemma run_group (n : nat) (r : regex) pos (s : string) caps k :
  run (Group n r) pos s caps k
  = run r pos s caps
      (fun pos' s' caps' => k pos' s' ((n, Str.take (pos' - pos) s) :: caps')).
Proof. reflexivity. Qed.

Lemma run_star (p : ascii -> bool) pos (s : string) caps k :
  run (Star p) pos s caps k = star p pos s caps k.
Proof. reflexivity. Qed.

Lemma eol_sound pos (s : string) caps k x :
  run Eol pos s caps k = Some x ->
  (s = "" \/ s = String "010" "") /\ k pos s caps = Some x.
Proof.
  cbn [run]. destruct s as [| c [| c' s']]; intros H.
  - split; [now left | exact H].
  - destruct (Ascii.eqb_spec c "010") as [-> | _]; [| discriminate].
    split; [now right | exact H].
  - discriminate.
Qed.

Lemma opt_cls_sound (p : ascii -> bool) pos (s : string) caps k x :
  run (Opt (Cls p)) pos s caps k = Some x ->
  exists w s',
    s = w ++ s' /\ Str.forallb p w = true
    /\ k (pos + String.length w)%nat s' caps = Some x.
Proof.
  rewrite NumberFacts.run_opt.
  destruct (run (Cls p) pos s caps k) as [y |] eqn:E.
  - intros [= ->]. destruct s as [| c s]; [discriminate |].
    rewrite NumberFacts.run_cls in E. destruct (p c) eqn:Ec; [| discriminate].
    exists (String c ""), s. cbn [append Str.forallb String.length].
    rewrite Ec. repeat split.
    now replace (pos + 1)%nat with (S pos) by lia.
  - intros H. exists "", s. rewrite Nat.add_0_r. now repeat split.
Qed.

End Steps.

Lemma take_add (n : nat) (w r : string) :
  Str.take (n + String.length w - n) (w ++ r) = w.
Proof.
  replace (n + String.length w - n)%nat with (String.length w) by lia.
  apply StrFacts.take_app.
Qed.

(** A match of the line pattern cuts a line into blanks, the label text,
    blanks and at most one colon, the remainder, and the line end. *)
Lemma LineRe_match (s : string) (m : match_obj) :
  rmatch LineRe s = Some m ->
  exists w0 lab mid g2 e,
    s = w0 ++ lab ++ mid ++ g2 ++ e
    /\ Str.forallb Str.py_isspace w0 = true
    /\ Str.truthy lab = true /\ Str.forallb label_char lab = true
    /\ Str.existsb Str.is_digit mid = false
    /\ Str.truthy g2 = true /\ Str.forallb any_char g2 = true
    /\ (e = "" \/ e = String "010" "")
    /\ group 1 m = lab /\ group 2 m = g2.
Proof.
  unfold rmatch, match_at, LineRe. intros H.
  rewrite NumberFacts.run_seq, run_bol in H. cbn [Nat.eqb] in H.
  rewrite NumberFacts.run_seq, run_star in H.
  apply ParserFacts.star_sound in H.
  destruct H as (w0 & s1 & -> & Hw0 & H).
  rewrite NumberFacts.run_seq, run_group in H.
  apply ParserFacts.plus_sound in H.
  destruct H as (lab & s2 & -> & Hlab1 & Hlab2 & H).
  rewrite take_add in H.
  rewrite NumberFacts.run_seq, run_star in H.
  apply ParserFacts.star_sound in H.
  destruct H as (w1 & s3 & -> & Hw1 & H).
  rewrite NumberFacts.run_seq in H.
  apply opt_cls_sound in H.
  destruct H as (col & s4 & -> & Hcol & H).
  rewrite NumberFacts.run_seq, run_star in H.
  apply ParserFacts.star_sound in H.
  destruct H as (w2 & s5 & -> & Hw2 & H).
  rewrite NumberFacts.run_seq, run_group in H.
  apply ParserFacts.plus_sound in H.
  destruct H as (g2 & e & -> & Hg1 & Hg2 & H).
  rewrite take_add in H.
  apply eol_sound in H. destruct H as (He & H).
  injection H as <-.
  exists w0, lab, (w1 ++ col ++ w2), g2, e.
  rewrite !StrFacts.append_assoc. repeat split; try assumption.
  rewrite !existsb_append, (spaces_no_digit _ Hw1), (spaces_no_digit _ Hw2).
  rewrite (forallb_no_digit is_colon col); [reflexivity | | exact Hcol].
  intros c Hc. apply Ascii.eqb_eq in Hc. now subst c.
Qed.

End LineFacts.

Module ParseSpec.
Import Re Parser Notions MoreNotions ScanFacts ScanSpec LineFacts.

Lemma starts_with_app (p : ascii -> bool) (b r : string) :
  starts_with p b = false -> starts_with p r = false ->
  starts_with p (b ++ r) = false.
Proof. destruct b; cbn [append starts_with]; auto. Qed.

Lemma spaces_start (w : string) :
  Str.forallb Str.py_isspace w = true -> starts_with Str.is_digit w = false.
Proof.
  destruct w as [| c w]; cbn [Str.forallb starts_with]; [reflexivity |].
  intros H. apply andb_true_iff in H. apply (space_char c (proj1 H)).
Qed.

Lemma line_end_blank (e : string) :
  e = "" \/ e = String "010" "" -> Str.forallb Str.py_isspace e = true.
Proof. intros [-> | ->]; reflexivity. Qed.

(** The label text starts the stripped line, so it survives stripping. *)
Lemma label_not_empty (s w0 lab r : string) (sp : ascii -> bool) :
  Str.truthy s = true ->
  (forall c u, s = String c u -> sp c = false) ->
  s = w0 ++ lab ++ r ->
  Str.forallb sp w0 = true -> Str.truthy lab = true ->
  Str.strip sp lab <> "".
Proof.
  intros Hs Hhead E Hw0 Hlab.
  destruct s as [| c u]; [discriminate |].
  specialize (Hhead c u eq_refl).
  destruct w0 as [| c0 w0].
  - destruct lab as [| c1 lab]; [discriminate |].
    cbn [append] in E. injection E as <- _.
    unfold Str.strip. cbn [Str.lstrip]. rewrite Hhead.
    destruct (StrFacts.rstrip_keeps_head sp c lab Hhead) as [r' ->].
    discriminate.
  - cbn [append] in E. injection E as <- _.
    cbn [Str.forallb] in Hw0. rewrite Hhead in Hw0. discriminate.
Qed.

Lemma parse_line_record (raw : string) (lv : LabelValue) :
  parse_line raw = Some lv ->
  (exists x y z,
      raw = x ++ label lv ++ y ++ value_str lv ++ z
      /\ Str.forallb Str.py_isspace x = true
      /\ Str.existsb Str.is_digit y = false
      /\ starts_with Str.is_digit z = false)
  /\ label lv <> ""
  /\ Str.forallb label_char (label lv) = true
  /\ Str.strip Str.py_isspace (label lv) = label lv
  /\ numeral (value_str lv)
  /\ exists f, value_float lv = Some f /\ pyfloat (value_str lv) = Some f.
Proof.
  unfold parse_line.
  destruct (strip_split Str.py_isspace raw) as (lead & trail & Eraw & Hl & Ht).
  pose proof (strip_head Str.py_isspace raw) as Hhead.
  remember (Str.strip Str.py_isspace raw) as s eqn:Es. clear Es.
  destruct (Str.truthy s) eqn:Hs; cbn [negb]; [| discriminate].
  destruct (_ || _); [discriminate |].
  destruct (Str.startswith "time/date" _); [discriminate |].
  destruct (rmatch LineRe s) as [m |] eqn:Em; [| discriminate].
  destruct (LineRe_match _ _ Em)
    as (w0 & lab & mid & g2 & e & E & Hw0 & Hlab1 & Hlab2 & Hmid
        & Hg1 & Hg2 & He & -> & ->).
  pose proof (search_number (Str.strip Str.py_isspace g2)) as Hn.
  destruct (search NumberRe (Str.strip Str.py_isspace g2)) as [mnum |];
    [| discriminate].
  destruct Hn as (a & b & Erest & Ha & Hnum & _).
  destruct (number_at_spec _ _ Hnum) as (Hnumeral & b' & Eb & Hb).
  apply append_inv_head in Eb. subst b'.
  intros [= <-]. cbn [label value_str value_float unit group].
  destruct (strip_split Str.py_isspace lab) as (l1 & l2 & Elab & Hl1 & Hl2).
  destruct (strip_split Str.py_isspace g2) as (g1 & g3 & Eg & Hg1' & Hg3).
  repeat split.
  - exists (lead ++ w0 ++ l1), (l2 ++ mid ++ g1 ++ a), (b ++ g3 ++ e ++ trail).
    repeat split.
    + rewrite Eraw, E. rewrite Elab at 1. rewrite Eg at 1.
      rewrite Erest at 1. now rewrite !StrFacts.append_assoc.
    + now rewrite !StrFacts.forallb_append, Hl, Hw0, Hl1.
    + rewrite !existsb_append, (spaces_no_digit _ Hl2), Hmid,
        (spaces_no_digit _ Hg1'), Ha. reflexivity.
    + apply starts_with_app; [exact Hb |]. apply spaces_start.
      now rewrite !StrFacts.forallb_append, Hg3, (line_end_blank _ He), Ht.
  - apply (label_not_empty s w0 lab (mid ++ g2 ++ e)); try assumption.
  - now apply BatchSpec.forallb_strip.
  - apply StrFacts.strip_idem.
  - exact Hnumeral.
  - destruct (NumberFacts.pyfloat_total _ Hnumeral) as (f & Ef).
    exists f. now split.
Qed.

Lemma In_parse_important (lines : list string) (lv : LabelValue) :
  In lv (parse_important lines) <->
  exists raw, In raw lines /\ parse_line raw = Some lv.
Proof.
  induction lines as [| raw lines IH]; cbn [parse_important In].
  - split; [tauto | now intros (raw & [] & _)].
  - destruct (parse_line raw) as [lv0 |] eqn:E; cbn [In]; rewrite ?IH.
    + split.
      * intros [<- | (r & Hr & Hp)]; [exists raw; auto | exists r; auto].
      * intros (r & [<- | Hr] & Hp); [left; congruence | right; eauto].
    + split.
      * intros (r & Hr & Hp). exists r; auto.
      * intros (r & [<- | Hr] & Hp); [congruence | eauto].
Qed.

(** X5. Every record of [parse_important] is cut out of one line of the
    report, in order: the line is blanks, the label, a stretch without any
    digit, the value text and a remainder that does not start with a digit.
    So the value text is the first number of its line.  The label is not
    empty, is made of letters, spaces and slashes and has no blank at either
    end; the value text is a numeral, and the record's float is the float of
    that numeral, never None. *)
Theorem record_of_line (lines : list string) (lv : LabelValue) :
  In lv (parse_important lines) ->
  exists raw x y z,
    In raw lines
    /\ raw = x ++ label lv ++ y ++ value_str lv ++ z
    /\ Str.forallb Str.py_isspace x = true
    /\ Str.existsb Str.is_digit y = false
    /\ starts_with Str.is_digit z = false
    /\ label lv <> ""
    /\ Str.forallb label_char (label lv) = true
    /\ Str.strip Str.py_isspace (label lv) = label lv
    /\ numeral (value_str lv)
    /\ exists f, value_float lv = Some f /\ pyfloat (value_str lv) = Some f.
Proof.
  intros H. apply In_parse_important in H. destruct H as (raw & Hin & Hp).
  destruct (parse_line_record raw lv Hp)
    as ((x & y & z & E & Hx & Hy & Hz) & H1 & H2 & H3 & H4 & H5).
  exists raw, x, y, z. repeat split; assumption.
Qed.

Lemma record_on_report_lines :
  exists raw x y z,
    In raw Samples.report_lines
    /\ raw = x ++ label Samples.weight ++ y ++ value_str Samples.weight ++ z
    /\ Str.forallb Str.py_isspace x = true
    /\ Str.existsb Str.is_digit y = false
    /\ starts_with Str.is_digit z = false
    /\ label Samples.weight <> ""
    /\ Str.forallb label_char (label Samples.weight) = true
    /\ Str.strip Str.py_isspace (label Samples.weight) = label Samples.weight
    /\ numeral (value_str Samples.weight)
    /\ exists f, value_float Samples.weight = Some f
                 /\ pyfloat (value_str Samples.weight) = Some f.
Proof.
  apply (record_of_line Samples.report_lines Samples.weight).
  vm_compute. left. reflexivity.
Defined.

End ParseSpec.

(* ================================================================= *)
(** ** Which lines yield a record *)

Module LineComplete.
Import Re Parser Notions MoreNotions LineNotions ScanFacts ScanSpec LineFacts.

Lemma take_span (p : ascii -> bool) (s : string) :
  Str.take (String.length (span p s)) s = span p s.
Proof. rewrite (span_after p s) at 2. apply StrFacts.take_app. Qed.

Lemma take_span_add (p : ascii -> bool) (n : nat) (s : string) :
  Str.take (n + String.length (span p s) - n) s = span p s.
Proof.
  replace (n + String.length (span p s) - n)%nat
    with (String.length (span p s)) by lia.
  apply take_span.
Qed.

Lemma span_full (p : ascii -> bool) (s : string) :
  Str.forallb p s = true -> span p s = s /\ after p s = "".
Proof.
  induction s as [| c s IH]; cbn [Str.forallb span after]; [now split |].
  intros H. apply andb_true_iff in H. destruct H as [Hc Hs].
  rewrite Hc. destruct (IH Hs) as [-> ->]. now split.
Qed.

Lemma after_empty (p : ascii -> bool) (s : string) :
  after p s = "" -> Str.forallb p s = true.
Proof.
  induction s as [| c s IH]; cbn [Str.forallb after]; [reflexivity |].
  destruct (p c); [exact IH | discriminate].
Qed.

Section Forward.
Context {R : Type}.
Implicit Types (k : @cont R) (caps : captures).

Lemma star_span (p : ascii -> bool) k x :
  forall s pos caps,
    k (pos + String.length (span p s))%nat (after p s) caps = Some x ->
    star p pos s caps k = Some x.
Proof.
  induction s as [| c s IH]; intros pos caps; cbn [star span after].
  - cbn [String.length]. now rewrite Nat.add_0_r.
  - destruct (p c) eqn:Ec.
    + cbn [String.length]. rewrite Nat.add_succ_r, <- Nat.add_succ_l.
      intros H. now rewrite (IH _ _ H).
    + cbn [String.length]. now rewrite Nat.add_0_r.
Qed.

Lemma plus_span (p : ascii -> bool) k x (s : string) pos caps :
  starts_with p s = true ->
  k (pos + String.length (span p s))%nat (after p s) caps = Some x ->
  run (Plus p) pos s caps k = Some x.
Proof.
  destruct s as [| c s]; [discriminate |]. cbn [starts_with run span after].
  intros ->. cbn [String.length].
  rewrite Nat.add_succ_r, <- Nat.add_succ_l. apply star_span.
Qed.

Lemma opt_cls_span (p : ascii -> bool) k x (s : string) pos caps :
  k (pos + String.length (Str.take 1 (span p s)))%nat
    (drop (String.length (Str.take 1 (span p s))) s) caps = Some x ->
  run (Opt (Cls p)) pos s caps k = Some x.
Proof.
  rewrite NumberFacts.run_opt. destruct s as [| c s].
  - cbn. now rewrite Nat.add_0_r.
  - rewrite NumberFacts.run_cls. cbn [span]. destruct (p c).
    + cbn [Str.take String.length drop].
      replace (pos + 1)%nat with (S pos) by lia. now intros ->.
    + cbn [Str.take String.length drop]. now rewrite Nat.add_0_r.
Qed.

End Forward.

Lemma existsb_after (p : ascii -> bool) (s : string) :
  (forall c, p c = true -> Str.is_digit c = false) ->
  Str.existsb Str.is_digit (after p s) = Str.existsb Str.is_digit s.
Proof.
  intros Hp. rewrite (span_after p s) at 2. rewrite existsb_append.
  now rewrite (forallb_no_digit p _ Hp (span_all p s)).
Qed.

Lemma forallb_after (q p : ascii -> bool) (s : string) :
  Str.forallb q s = true -> Str.forallb q (after p s) = true.
Proof.
  intros H. rewrite (span_after p s), StrFacts.forallb_append in H.
  now apply andb_true_iff in H.
Qed.

Lemma forallb_drop (q : ascii -> bool) (n : nat) (s : string) :
  Str.forallb q s = true -> Str.forallb q (drop n s) = true.
Proof.
  revert s. induction n as [| n IH]; intros s H; [now destruct s |].
  destruct s as [| c s]; [reflexivity |]. cbn [drop].
  cbn [Str.forallb] in H. apply andb_true_iff in H. now apply IH.
Qed.

Lemma colon_split (s : string) :
  s = Str.take 1 (span is_colon s)
      ++ drop (String.length (Str.take 1 (span is_colon s))) s
  /\ Str.existsb Str.is_digit (Str.take 1 (span is_colon s)) = false.
Proof.
  destruct s as [| c s]; [now split |]. cbn [span].
  destruct (is_colon c) eqn:Ec; cbn; [| now split].
  split; [reflexivity |]. apply Ascii.eqb_eq in Ec. now subst c.
Qed.

(** On a line without a newline that starts with a letter or a slash and
    has a digit, the line pattern matches: group 1 is the run of letters,
    spaces and slashes at the start, group 2 the text after the blanks and
    the colon that follow it. *)
Lemma LineRe_complete (s : string) :
  Str.forallb any_char s = true ->
  starts_with Str.py_isspace s = false ->
  starts_with label_char s = true ->
  Str.existsb Str.is_digit s = true ->
  exists m mid,
    rmatch LineRe s = Some m
    /\ group 1 m = span label_char s
    /\ s = span label_char s ++ mid ++ group 2 m
    /\ Str.existsb Str.is_digit mid = false.
Proof.
  intros Hany Hhead Hlab Hdig.
  set (r1 := after label_char s).
  set (r2 := after Str.py_isspace r1).
  set (col := Str.take 1 (span is_colon r2)).
  set (r3 := drop (String.length col) r2).
  set (r4 := after Str.py_isspace r3).
  assert (Hsp : forall c, Str.py_isspace c = true -> Str.is_digit c = false)
    by (intros c Hc; apply (space_char c Hc)).
  assert (D1 : Str.existsb Str.is_digit r1 = true)
    by (unfold r1; now rewrite (existsb_after _ _ label_char_no_digit)).
  assert (D2 : Str.existsb Str.is_digit r2 = true)
    by (unfold r2; now rewrite (existsb_after _ _ Hsp)).
  destruct (colon_split r2) as [E2 Hcol]. fold col in E2, Hcol. fold r3 in E2.
  assert (D3 : Str.existsb Str.is_digit r3 = true).
  { rewrite E2, existsb_append, Hcol in D2. exact D2. }
  assert (D4 : Str.existsb Str.is_digit r4 = true)
    by (unfold r4; now rewrite (existsb_after _ _ Hsp)).
  assert (A4 : Str.forallb any_char r4 = true).
  { unfold r4, r3, r2, r1.
    now apply forallb_after, forallb_drop, forallb_after, forallb_after. }
  destruct (span_full any_char r4 A4) as [S4 F4].
  assert (T4 : starts_with any_char r4 = true).
  { destruct r4 as [| c r]; [discriminate |].
    cbn [Str.forallb] in A4. now apply andb_true_iff in A4. }
  eexists.
  exists (span Str.py_isspace r1 ++ col ++ span Str.py_isspace r3).
  split; [| split; [| split]].
  - unfold rmatch, match_at, LineRe.
    rewrite NumberFacts.run_seq, run_bol. cbn [Nat.eqb].
    rewrite NumberFacts.run_seq, run_star. apply star_span.
    assert (E0 : span Str.py_isspace s = "" /\ after Str.py_isspace s = s).
    { destruct s as [| c s']; [now split |]. cbn [starts_with] in Hhead.
      cbn [span after]. now rewrite Hhead. }
    destruct E0 as [-> ->].
    rewrite NumberFacts.run_seq, run_group.
    apply plus_span; [exact Hlab |]. fold r1.
    rewrite NumberFacts.run_seq, run_star. apply star_span. fold r2.
    rewrite NumberFacts.run_seq. apply opt_cls_span. fold col. fold r3.
    rewrite NumberFacts.run_seq, run_star. apply star_span. fold r4.
    rewrite NumberFacts.run_seq, run_group.
    apply plus_span; [exact T4 |]. rewrite F4. reflexivity.
  - cbn [group groups lookup Nat.eqb]. cbn [String.length].
    rewrite Nat.add_0_l, Nat.add_0_l, Nat.sub_0_r. apply take_span.
  - cbn [group groups lookup Nat.eqb]. rewrite take_span_add.
    rewrite S4. rewrite !StrFacts.append_assoc. unfold r4.
    rewrite <- (span_after Str.py_isspace r3). rewrite <- E2.
    unfold r2. rewrite <- (span_after Str.py_isspace r1).
    unfold r1. apply span_after.
  - rewrite !existsb_append, Hcol.
    now rewrite !(forallb_no_digit _ _ Hsp (span_all _ _)).
Qed.

End LineComplete.

Module LineSpec.
Import Re Parser Notions MoreNotions LineNotions.
Import ScanFacts ScanSpec LineFacts LineComplete.

(** *** The unit pattern on a text without a newline *)

Section Eol.
Context {R : Type}.
Implicit Types (k : @cont R) (caps : captures).

Lemma eol_none (c : ascii) (s : string) pos caps k :
  any_char c = true -> run Eol pos (String c s) caps k = None.
Proof.
  unfold any_char. cbn [run]. destruct s; [| reflexivity].
  now destruct (Ascii.eqb c "010").
Qed.

Lemma star_eol (p : ascii -> bool) k :
  (forall pos s caps, k pos s caps <> None) ->
  forall s pos caps,
    Str.forallb any_char s = true ->
    star p pos s caps (fun pos' s' caps' => run Eol pos' s' caps' k)
    = if Str.forallb p s
      then k (pos + String.length s)%nat "" caps
      else None.
Proof.
  intros Hk. induction s as [| c s IH]; intros pos caps Hs.
  - cbn. now rewrite Nat.add_0_r.
  - cbn [Str.forallb] in Hs. apply andb_true_iff in Hs.
    destruct Hs as [Hc Hs]. cbn [star Str.forallb].
    destruct (p c); cbn [andb].
    + rewrite (IH _ _ Hs). destruct (Str.forallb p s).
      * cbn [String.length]. rewrite Nat.add_succ_r, <- Nat.add_succ_l.
        destruct (k (S pos + String.length s)%nat "" caps) eqn:Ek;
          [reflexivity | now apply Hk in Ek].
      * now apply eol_none.
    + now apply eol_none.
Qed.

Lemma run_plus_cons (p : ascii -> bool) (c : ascii) (s : string) pos caps k :
  run (Plus p) pos (String c s) caps k
  = if p c then star p (S pos) s caps k else None.
Proof. reflexivity. Qed.

End Eol.

Lemma take_all (s : string) : Str.take (String.length s) s = s.
Proof. induction s as [| c s IH]; cbn; [reflexivity | now rewrite IH]. Qed.

Lemma match_at_unit (pos : nat) (s : string) :
  Str.forallb any_char s = true ->
  match_at UnitRe pos s
  = if Str.truthy s && Str.forallb unit_char s
    then Some (MatchObj s []) else None.
Proof.
  intros Hs. unfold match_at, UnitRe. rewrite NumberFacts.run_seq.
  destruct s as [| c s]; [reflexivity |].
  rewrite run_plus_cons. cbn [Str.truthy Str.forallb andb].
  cbn [Str.forallb] in Hs. apply andb_true_iff in Hs. destruct Hs as [_ Hs].
  destruct (unit_char c); [| reflexivity]. cbn [andb].
  rewrite star_eol; [| intros; discriminate | exact Hs].
  destruct (Str.forallb unit_char s); [| reflexivity].
  do 2 f_equal.
  replace (S pos + String.length s - pos)%nat
    with (String.length (String c s)) by (cbn [String.length]; lia).
  apply take_all.
Qed.

(** The unit pattern finds the longest trailing run of letters and percent
    signs, when there is one. *)
Lemma search_unit (s : string) :
  forall pos,
    Str.forallb any_char s = true ->
    search_from UnitRe pos s
    = option_map (fun u => MatchObj u []) (nonempty (trailing unit_char s)).
Proof.
  induction s as [| c s IH]; intros pos Hs; [reflexivity |].
  cbn [search_from]. rewrite (match_at_unit _ _ Hs).
  cbn [Str.truthy andb trailing].
  destruct (Str.forallb unit_char (String c s)); [reflexivity |].
  apply IH. cbn [Str.forallb] in Hs. now apply andb_true_iff in Hs.
Qed.

Lemma trailing_app (p : ascii -> bool) (a b : string) :
  Str.forallb p b = false -> trailing p (a ++ b) = trailing p b.
Proof.
  intros Hb. induction a as [| c a IH]; [reflexivity |].
  cbn [append trailing Str.forallb].
  now rewrite StrFacts.forallb_append, Hb, andb_false_r, andb_false_r.
Qed.

Lemma rstrip_no_trail (sp : ascii -> bool) (t : string) :
  forall a g,
    Str.rstrip sp t = a ++ g -> Str.forallb sp g = true -> g = "".
Proof.
  induction t as [| c t IH]; intros a g; cbn [Str.rstrip].
  - destruct a; cbn [append]; [now intros <- | discriminate].
  - destruct (Str.rstrip sp t) as [| a0 r0] eqn:Er.
    + destruct (sp c) eqn:Ec.
      * destruct a; cbn [append]; [now intros <- | discriminate].
      * destruct a as [| x a]; cbn [append].
        -- intros <-. cbn [Str.forallb]. now rewrite Ec.
        -- intros [= _ E]. destruct a; cbn [append] in E;
             [now subst g | discriminate].
    + destruct a as [| x a]; cbn [append].
      * intros <- H. cbn [Str.forallb] in H. apply andb_true_iff in H.
        destruct H as [_ H]. now specialize (IH "" _ eq_refl H).
      * intros [= _ E]. now apply (IH a g).
Qed.

Lemma digit_not_all (p : ascii -> bool) (w : string) :
  (forall c, p c = true -> Str.is_digit c = false) ->
  Str.existsb Str.is_digit w = true -> Str.forallb p w = false.
Proof.
  intros Hp H. destruct (Str.forallb p w) eqn:E; [| reflexivity].
  now rewrite (forallb_no_digit p w Hp E) in H.
Qed.

Lemma existsb_strip (s : string) :
  Str.existsb Str.is_digit (Str.strip Str.py_isspace s)
  = Str.existsb Str.is_digit s.
Proof.
  destruct (strip_split Str.py_isspace s) as (lead & trail & E & Hl & Ht).
  rewrite E at 2. rewrite !existsb_append.
  rewrite (spaces_no_digit _ Hl), (spaces_no_digit _ Ht).
  now rewrite orb_false_r.
Qed.

Lemma metadata_false (s : string) :
  metadata s = false ->
  Str.startswith "name:" (Str.lower s)
  || Str.startswith "gender:" (Str.lower s) = false
  /\ Str.startswith "time/date" (Str.lower s) = false.
Proof. unfold metadata. intros H. now apply orb_false_iff in H. Qed.

(** What [parse_line] returns on a line that has what it needs. *)
Lemma parse_line_eq (raw : string) :
  Str.forallb any_char raw = true ->
  starts_with label_char (Str.strip Str.py_isspace raw) = true ->
  Str.existsb Str.is_digit raw = true ->
  metadata (Str.strip Str.py_isspace raw) = false ->
  exists v,
    parse_line raw
    = Some (mkLabelValue
              (Str.strip Str.py_isspace
                 (span label_char (Str.strip Str.py_isspace raw)))
              v (pyfloat v)
              (nonempty (trailing unit_char (Str.strip Str.py_isspace raw)))).
Proof.
  intros Hany Hlab Hdig Hmeta. unfold parse_line.
  pose proof (strip_head Str.py_isspace raw) as Hhead.
  pose proof (BatchSpec.forallb_strip any_char Str.py_isspace raw Hany) as Hs.
  rewrite <- existsb_strip in Hdig.
  pose proof (fun a g => rstrip_no_trail Str.py_isspace
                           (Str.lstrip Str.py_isspace raw) a g) as Hend.
  fold (Str.strip Str.py_isspace raw) in Hend.
  remember (Str.strip Str.py_isspace raw) as s eqn:Es. clear Es.
  destruct (metadata_false s Hmeta) as [-> ->].
  destruct s as [| c u] eqn:E0; [discriminate |]. rewrite <- E0 in *.
  assert (Hc : starts_with Str.py_isspace s = false).
  { rewrite E0. cbn [starts_with]. now apply (Hhead c u). }
  replace (Str.truthy s) with true by now rewrite E0.
  cbn [negb].
  destruct (LineRe_complete s Hs Hc Hlab Hdig) as (m & mid & -> & -> & E & Hmid).
  set (g2 := group 2 m) in *.
  destruct (strip_split Str.py_isspace g2) as (g1 & g3 & Eg & Hg1 & Hg3).
  assert (Dg : Str.existsb Str.is_digit (Str.strip Str.py_isspace g2) = true).
  { rewrite existsb_strip. rewrite E, !existsb_append, Hmid in Hdig.
    now rewrite (forallb_no_digit _ _ label_char_no_digit (span_all _ _))
      in Hdig. }
  assert (Ag : Str.forallb any_char (Str.strip Str.py_isspace g2) = true).
  { apply BatchSpec.forallb_strip. rewrite E, !StrFacts.forallb_append in Hs.
    apply andb_true_iff in Hs. destruct Hs as [_ Hs].
    now apply andb_true_iff in Hs. }
  pose proof (search_number (Str.strip Str.py_isspace g2)) as Hn.
  destruct (search NumberRe (Str.strip Str.py_isspace g2)) as [mnum |];
    [| congruence].
  exists (group 0 mnum). do 2 f_equal.
  unfold search. rewrite (search_unit _ 0 Ag).
  assert (Et : trailing unit_char s
               = trailing unit_char (Str.strip Str.py_isspace g2)).
  { assert (g3 = "") as ->.
    { apply (Hend (span label_char s ++ mid ++ g1
                   ++ Str.strip Str.py_isspace g2) g3); [| exact Hg3].
      rewrite E at 1. rewrite Eg at 1.
      now rewrite !StrFacts.append_assoc. }
    rewrite StrFacts.append_nil_r in Eg.
    rewrite E at 1. rewrite Eg at 1.
    rewrite <- !StrFacts.append_assoc. apply trailing_app.
    apply (digit_not_all unit_char); [| exact Dg].
    intros x Hx. apply (NumberFacts.unit_char_ends x Hx). }
  rewrite <- Et. unfold nonempty.
  now destruct (Str.truthy (trailing unit_char s)).
Qed.

(** What a line needs to yield a record. *)
Lemma parse_line_needs (raw : string) (lv : LabelValue) :
  parse_line raw = Some lv ->
  starts_with label_char (Str.strip Str.py_isspace raw) = true
  /\ Str.existsb Str.is_digit raw = true
  /\ metadata (Str.strip Str.py_isspace raw) = false.
Proof.
  intros H.
  destruct (ParseSpec.parse_line_record raw lv H)
    as ((x & y & z & E & _) & _ & _ & _ & Hnum & _).
  assert (Hd : Str.existsb Str.is_digit raw = true).
  { rewrite E, !existsb_append, (numeral_has_digit _ Hnum).
    now rewrite !orb_true_r. }
  revert H. unfold parse_line, metadata.
  pose proof (strip_head Str.py_isspace raw) as Hhead.
  remember (Str.strip Str.py_isspace raw) as s eqn:Es. clear Es.
  destruct (Str.truthy s) eqn:Hs; cbn [negb]; [| discriminate].
  destruct (_ || _); [discriminate |].
  destruct (Str.startswith "time/date" _); [discriminate |].
  destruct (rmatch LineRe s) as [m |] eqn:Em; [| discriminate].
  intros _. repeat split; [| exact Hd].
  destruct (LineRe_match _ _ Em)
    as (w0 & lab & mid & g2 & e & E' & Hw0 & Hlab1 & Hlab2 & _).
  destruct s as [| c u]; [discriminate |].
  specialize (Hhead c u eq_refl). cbn [starts_with].
  destruct w0 as [| c0 w0].
  - destruct lab as [| c1 lab]; [discriminate |].
    cbn [append] in E'. injection E' as -> _.
    cbn [Str.forallb] in Hlab2. now apply andb_true_iff in Hlab2.
  - cbn [append] in E'. injection E' as -> _.
    cbn [Str.forallb] in Hw0. rewrite Hhead in Hw0. discriminate.
Qed.

(** X6. Which lines of the report yield a record, and with which label and
    unit.  For a line without a newline (as [splitlines] gives them): it
    yields a record exactly when, stripped, it starts with a letter or a
    slash (a stripped line does not start with a space), it has a decimal
    digit, and it does not start with "name:", "gender:" or "time/date" in
    any letter case.  The record's label is then
    the run of letters, spaces and slashes at the start of the stripped
    line, stripped; its unit is the longest run of letters and percent signs
    at the end of the stripped line, or None when the line ends
    otherwise. *)
Theorem line_gives_record (raw : string) :
  Str.forallb any_char raw = true ->
  (parse_line raw <> None <->
     starts_with label_char (Str.strip Str.py_isspace raw) = true
     /\ Str.existsb Str.is_digit raw = true
     /\ metadata (Str.strip Str.py_isspace raw) = false)
  /\ forall lv,
      parse_line raw = Some lv ->
      label lv
      = Str.strip Str.py_isspace
          (span label_char (Str.strip Str.py_isspace raw))
      /\ unit lv
         = nonempty (trailing unit_char (Str.strip Str.py_isspace raw)).
Proof.
  intros Hany. split.
  - split.
    + destruct (parse_line raw) as [lv |] eqn:E; [| congruence].
      intros _. exact (parse_line_needs raw lv E).
    + intros (H1 & H2 & H3).
      destruct (parse_line_eq raw Hany H1 H2 H3) as (v & ->). discriminate.
  - intros lv H. destruct (parse_line_needs raw lv H) as (H1 & H2 & H3).
    destruct (parse_line_eq raw Hany H1 H2 H3) as (v & E).
    rewrite E in H. injection H as <-. now split.
Qed.

Lemma record_on_body_fat_line :
  (parse_line "  Body Fat : 20.5 %" <> None <->
     starts_with label_char
       (Str.strip Str.py_isspace "  Body Fat : 20.5 %") = true
     /\ Str.existsb Str.is_digit "  Body Fat : 20.5 %" = true
     /\ metadata (Str.strip Str.py_isspace "  Body Fat : 20.5 %") = false)
  /\ forall lv,
      parse_line "  Body Fat : 20.5 %" = Some lv ->
      label lv
      = Str.strip Str.py_isspace
          (span label_char (Str.strip Str.py_isspace "  Body Fat : 20.5 %"))
      /\ unit lv
         = nonempty
             (trailing unit_char
                (Str.strip Str.py_isspace "  Body Fat : 20.5 %")).
Proof. apply (line_gives_record "  Body Fat : 20.5 %"). reflexivity. Defined.

End LineSpec.

Module ReportSpec.
Import Parser Notions MoreNotions LineNotions LineSpec.

Lemma qualifies_iff (raw : string) :
  qualifies raw = true <->
  starts_with label_char (Str.strip Str.py_isspace raw) = true
  /\ Str.existsb Str.is_digit raw = true
  /\ metadata (Str.strip Str.py_isspace raw) = false.
Proof.
  unfold qualifies. rewrite !andb_true_iff, negb_true_iff. tauto.
Qed.

Lemma parse_line_qualifies (raw : string) :
  Str.forallb any_char raw = true ->
  if qualifies raw
  then exists lv, parse_line raw = Some lv
                  /\ label lv = label_of raw /\ unit lv = unit_of raw
  else parse_line raw = None.
Proof.
  intros Hany. destruct (qualifies raw) eqn:Eq.
  - apply qualifies_iff in Eq. destruct Eq as (H1 & H2 & H3).
    destruct (parse_line_eq raw Hany H1 H2 H3) as (v & E).
    eexists. split; [exact E |]. now split.
  - destruct (parse_line raw) as [lv |] eqn:E; [| reflexivity].
    apply parse_line_needs, qualifies_iff in E. congruence.
Qed.

Lemma linebreak_newline (l : string) :
  Str.forallb (fun c => negb (Batch.is_linebreak c)) l = true ->
  Str.forallb any_char l = true.
Proof.
  induction l as [| c l IH]; cbn [Str.forallb]; [reflexivity |].
  intros H. apply andb_true_iff in H. destruct H as [Hc Hl].
  rewrite (IH Hl), andb_true_r. unfold any_char.
  destruct (Ascii.eqb_spec c "010") as [-> | _]; [discriminate | reflexivity].
Qed.

Lemma parse_important_qualifying (lines : list string) :
  Forall (fun raw => Str.forallb any_char raw = true) lines ->
  List.map label (parse_important lines)
  = List.map label_of (filter qualifies lines)
  /\ List.map unit (parse_important lines)
     = List.map unit_of (filter qualifies lines).
Proof.
  induction 1 as [| raw lines Hraw _ IH]; [now split |].
  cbn [parse_important filter].
  pose proof (parse_line_qualifies raw Hraw) as Hq.
  destruct (qualifies raw).
  - destruct Hq as (lv & -> & El & Eu). cbn [List.map].
    destruct IH as [-> ->]. now rewrite El, Eu.
  - now rewrite Hq.
Qed.

(** X7. The records of a report text.  [parse_important] reads the text
    line by line ([splitlines]); the records it returns are, in order, those
    of the lines that qualify: lines that, stripped, start with a letter or
    a slash, are not name, gender or time/date lines, and have a decimal
    digit.  There is one record per such line; its label is the run of
    letters, spaces and slashes that starts the line, stripped, and its unit
    the letters and percent signs that end the line, if any. *)
Theorem records_of_report (text : string) :
  List.map label (parse_important (Batch.splitlines text))
  = List.map label_of (filter qualifies (Batch.splitlines text))
  /\ List.map unit (parse_important (Batch.splitlines text))
     = List.map unit_of (filter qualifies (Batch.splitlines text))
  /\ List.length (parse_important (Batch.splitlines text))
     = List.length (filter qualifies (Batch.splitlines text)).
Proof.
  assert (H : Forall (fun raw => Str.forallb any_char raw = true)
                     (Batch.splitlines text)).
  { pose proof (BatchSpec.splitlines_from_unbroken text "" eq_refl) as Hu.
    unfold Batch.splitlines. revert Hu. apply Forall_impl.
    exact linebreak_newline. }
  destruct (parse_important_qualifying _ H) as [Hl Hu].
  split; [exact Hl |]. split; [exact Hu |].
  apply (f_equal (@List.length _)) in Hl. now rewrite !length_map in Hl.
Qed.

End ReportSpec.

(* ================================================================= *)
(** ** The elements the script looks at *)

Module DomFacts.
Import Dom DomNotions.

Section WithBuiltins.
Context {B : Js.Builtins}.

(** Induction on an element with the property available for its
    children. *)
Lemma Element_children_ind (P : Element B -> Prop) :
  (forall tag ident cls vis disp r it tc cs,
      Forall P cs -> P (mkElement tag ident cls vis disp r it tc cs)) ->
  forall e, P e.
Proof.
  intros H. fix IH 1. intros [tag ident cls vis disp r it tc cs].
  apply H. induction cs as [| c cs IHcs]; constructor; [apply IH | exact IHcs].
Qed.

Lemma get_app (e : Element B) (p q : list nat) :
  get e (p ++ q)
  = match get e p with Some c => get c q | None => None end.
Proof.
  revert e. induction p as [| i p IH]; intros e; cbn [get app]; [reflexivity |].
  destruct (nth_error (children e) i) as [c |]; [apply IH | reflexivity].
Qed.

Lemma walk_In (e : Element B) :
  forall (o inb : bool) (h h' : handle),
    In h' (walk o inb h e) <->
    exists path,
      h' = (rev path ++ h)%list
      /\ get e path <> None
      /\ negb o || inb || body_above e path = true.
Proof.
  induction e as [tag ident cls vis disp r it tc cs IHcs]
    using Element_children_ind.
  intros o inb h h'. cbn [walk]. rewrite in_app_iff.
  set (inb' := inb || String.eqb (Str.lower tag) "body").
  assert (Hgo : forall i,
             In h' ((fix go (i : nat) (cs : list (Element B)) : list handle :=
                       match cs with
                       | [] => []
                       | c :: cs' =>
                           (walk o inb' (i :: h) c ++ go (S i) cs')%list
                       end) i cs)
             <-> exists j c, nth_error cs j = Some c
                             /\ In h' (walk o inb' ((i + j)%nat :: h) c)).
  { clear IHcs. induction cs as [| c cs IH]; intros i.
    - split; [intros [] | intros (j & c & Hj & _); now destruct j].
    - rewrite in_app_iff, IH. split.
      + intros [Hc | (j & c' & Hj & Hc)].
        * exists 0%nat, c. rewrite Nat.add_0_r. now split.
        * exists (S j), c'. rewrite Nat.add_succ_r. now split.
      + intros (j & c' & Hj & Hc). destruct j as [| j].
        * left. cbn [nth_error] in Hj. injection Hj as <-.
          now rewrite Nat.add_0_r in Hc.
        * right. exists j, c'. rewrite Nat.add_succ_r in Hc. now split. }
  rewrite Hgo. clear Hgo. split.
  - intros [Hown | (j & c & Hj & Hc)].
    + exists []. destruct (negb o || inb) eqn:E; [| destruct Hown].
      destruct Hown as [<- | []]. cbn [rev app get body_above].
      rewrite orb_false_r.
      split; [reflexivity | split; [discriminate | reflexivity]].
    + rewrite Forall_forall in IHcs.
      apply (IHcs c (nth_error_In _ _ Hj)) in Hc.
      destruct Hc as (path & -> & Hget & Hcond).
      exists (j :: path). cbn [rev get body_above children]. rewrite Hj.
      rewrite <- app_assoc.
      split; [reflexivity | split; [exact Hget |]].
      unfold has_tag. cbn [tagName]. unfold inb' in Hcond.
      destruct (negb o), inb, (String.eqb (Str.lower tag) "body"),
        (body_above c path); cbn in *; congruence.
  - intros (path & -> & Hget & Hcond). destruct path as [| j path].
    + left. cbn [body_above] in Hcond. rewrite orb_false_r in Hcond.
      rewrite Hcond. now left.
    + right. cbn [get body_above children] in Hget, Hcond.
      destruct (nth_error cs j) as [c |] eqn:Hj; [| congruence].
      exists j, c. split; [exact Hj |]. cbn [Nat.add].
      rewrite Forall_forall in IHcs.
      apply (IHcs c (nth_error_In _ _ Hj)).
      exists path. cbn [rev]. rewrite <- app_assoc.
      split; [reflexivity | split; [exact Hget |]].
      unfold has_tag in Hcond. cbn [tagName] in Hcond. unfold inb'.
      destruct (negb o), inb, (String.eqb (Str.lower tag) "body"),
        (body_above c path); cbn in *; congruence.
Qed.

(** [body *] selects the elements of the document that have a [body]
    ancestor. *)
Lemma body_descendants_In (doc : Document B) (h : handle) :
  In h (body_descendants doc) <->
  resolve doc h <> None /\ under_body doc h = true.
Proof.
  unfold body_descendants, resolve, under_body. rewrite walk_In. split.
  - intros (path & -> & Hget & Hcond). rewrite app_nil_r, rev_involutive.
    now split.
  - intros [Hget Hb]. exists (rev h).
    rewrite app_nil_r, rev_involutive. now repeat split.
Qed.

End WithBuiltins.
End DomFacts.

(* ================================================================= *)
(** ** What the script collects *)

Module CandidateSpec.
Import Dom Script DomNotions MoreNotions DomFacts.

Lemma prefix_iff (n s : string) :
  String.prefix n s = true <-> exists b, s = n ++ b.
Proof.
  revert s. induction n as [| c n IH]; intros s.
  - split; [intros _; now exists s | intros _; now destruct s].
  - destruct s as [| c' s]; cbn [String.prefix append].
    + split; [discriminate | now intros (b & Hb)].
    + destruct (Ascii.ascii_dec c c') as [<- | Hne].
      * rewrite IH. split; intros (b & Hb); exists b; congruence.
      * split; [discriminate | intros (b & Hb); congruence].
Qed.

Lemma includes_iff (n s : string) :
  Str.includes n s = true <-> occurs_in n s.
Proof.
  unfold occurs_in. induction s as [| c s IH]; cbn [Str.includes].
  - rewrite orb_false_r, prefix_iff. split.
    + intros (b & Hb). now exists "", b.
    + intros (a & b & E). destruct a; [| discriminate]. now exists b.
  - rewrite orb_true_iff, prefix_iff, IH. split.
    + intros [(b & Hb) | (a & b & Hb)].
      * now exists "", b.
      * exists (String c a), b. cbn [append]. now rewrite Hb.
    + intros (a & b & E). destruct a as [| c' a]; cbn [append] in E.
      * left. now exists b.
      * right. injection E as _ E. now exists a, b.
Qed.

Lemma containsNumberLike_occurs (text n unit : string) :
  containsNumberLike text n unit <> None
  <-> text <> "" /\ occurs_in n (trim text).
Proof.
  unfold containsNumberLike. destruct text as [| c text]; cbn [Str.truthy negb].
  - split; [congruence | intros [H _]; congruence].
  - set (t := trim (String c text)).
    destruct (String.eqb_spec t n) as [-> | Hn].
    { split; [intros _ | discriminate].
      split; [discriminate |]. exists "", "". cbn [append].
      now rewrite StrFacts.append_nil_r. }
    destruct (Str.truthy unit
              && (String.eqb t (n ++ unit) || String.eqb t (n ++ " " ++ unit)))
      eqn:Eu.
    { split; [intros _ | discriminate]. split; [discriminate |].
      apply andb_true_iff in Eu. destruct Eu as [_ Eu].
      apply orb_true_iff in Eu.
      destruct Eu as [Eu | Eu]; apply String.eqb_eq in Eu; rewrite Eu.
      - now exists "", unit.
      - now exists "", (" " ++ unit). }
    destruct (Str.includes n t) eqn:Ei.
    + split; [intros _ | discriminate]. split; [discriminate |].
      now apply includes_iff.
    + split; [congruence |]. intros [_ H]. apply includes_iff in H. congruence.
Qed.

(** X8. The matching test of the script.  A text is a match of some class
    (exact, exact with unit, or partial) exactly when it is not empty and,
    trimmed, contains the value text; the unit never makes a text match that
    does not contain the value text. *)
Theorem containsNumberLike_iff_occurs (text n unit : string) :
  containsNumberLike text n unit <> None
  <-> text <> "" /\ occurs_in n (trim text).
Proof. exact (containsNumberLike_occurs text n unit). Qed.

Section WithBuiltins.
Context {B : Js.Builtins}.

Lemma trim_textOf (el : Element B) : trim (textOf el) = textOf el.
Proof. unfold textOf, trim. apply StrFacts.strip_idem. Qed.

Lemma elements_In (doc : Document B) (h : handle) :
  In h (elements doc) <->
  exists el, resolve doc h = Some el /\ under_body doc h = true
             /\ children el = [].
Proof.
  unfold elements. rewrite filter_In, body_descendants_In. split.
  - intros [[_ Hb] Hl]. destruct (resolve doc h) as [el |]; [| discriminate].
    exists el. repeat split; [exact Hb |].
    apply Nat.eqb_eq in Hl. now destruct (children el).
  - intros (el & -> & Hb & Hc). rewrite Hc. now repeat split.
Qed.

(** The loop keeps an element exactly when it shows the value text. *)
Lemma candidate_of_shows (doc : Document B) (n l u : string) (h : handle) :
  under_body doc h = true ->
  (forall c,
      candidate_of doc n l u h = Some c ->
      exists el,
        resolve doc h = Some el
        /\ (children el = [] -> shows doc n h el)
        /\ elText c = textOf el /\ crect c = rect el
        /\ path c = cssPath doc h)
  /\ (forall el,
         shows doc n h el -> candidate_of doc n l u h <> None).
Proof.
  intros Hb. unfold candidate_of, shows. split.
  - intros c. destruct (resolve doc h) as [el |]; [| discriminate].
    destruct (isVisible el) eqn:Ev; cbn [negb]; [| discriminate].
    destruct (containsNumberLike (textOf el) n u) as [m |] eqn:Em;
      [| discriminate].
    intros [= <-]. exists el. cbn [elText crect path].
    repeat split; try assumption.
    + apply (containsNumberLike_occurs (textOf el) n u). congruence.
    + rewrite <- (trim_textOf el).
      apply (containsNumberLike_occurs (textOf el) n u). congruence.
  - intros el (-> & _ & _ & -> & Ht & Ho). cbn [negb].
    rewrite <- (trim_textOf el) in Ho.
    destruct (containsNumberLike (textOf el) n u) eqn:Em; [discriminate |].
    exfalso. now apply (containsNumberLike_occurs (textOf el) n u).
Qed.

Lemma In_firstn {A : Type} (n : nat) (a : A) (l : list A) :
  In a (firstn n l) -> In a l.
Proof.
  intros H. rewrite <- (firstn_skipn n l). apply in_or_app. now left.
Qed.

Lemma SELECTOR_JS_In (doc : Document B) (n l u : string) (c : Candidate) :
  In c (SELECTOR_JS doc n l u) ->
  exists h, In h (elements doc) /\ candidate_of doc n l u h = Some c.
Proof.
  unfold SELECTOR_JS. intros H. apply In_firstn in H.
  apply RankingSpec.sort_In in H. now apply RankingSpec.collect_In.
Qed.

Lemma sort_nil {A : Type} (cmp : A -> A -> Js.num B) (l : list A) :
  sort cmp l = [] <-> l = [].
Proof.
  split; [| now intros ->]. destruct l as [| a l]; [reflexivity |].
  intros H. assert (Hin : In a (sort cmp (a :: l)))
    by (apply RankingSpec.sort_In; now left).
  rewrite H in Hin. destruct Hin.
Qed.

Lemma candidate_shown (doc : Document B) (n l u : string) (c : Candidate) :
  In c (SELECTOR_JS doc n l u) ->
  exists h el,
    shows doc n h el
    /\ elText c = textOf el /\ crect c = rect el
    /\ path c = cssPath doc h.
Proof.
  intros Hc. apply SELECTOR_JS_In in Hc. destruct Hc as (h & Hh & Hc).
  apply elements_In in Hh. destruct Hh as (el & Hr & Hb & Hl).
  destruct (proj1 (candidate_of_shows doc n l u h Hb) c Hc)
    as (el' & Hr' & Hs & H1 & H2 & H3).
  assert (el' = el) as -> by congruence.
  exists h, el. repeat split; try assumption; now apply Hs.
Qed.

Lemma nothing_shown (doc : Document B) (n l u : string) :
  SELECTOR_JS doc n l u = [] <-> forall h el, ~ shows doc n h el.
Proof.
  unfold SELECTOR_JS. split.
  - intros H h el Hs.
    assert (Hc : collect doc n l u (elements doc) = []).
    { apply (sort_nil by_score).
      destruct (sort by_score (collect doc n l u (elements doc)));
        [reflexivity | discriminate]. }
    pose proof Hs as (Hr & Hb & Hl & _).
    destruct (candidate_of doc n l u h) as [c |] eqn:Ec.
    + assert (Hin : In c (collect doc n l u (elements doc))).
      { apply RankingSpec.collect_In. exists h. split; [| exact Ec].
        apply elements_In. now exists el. }
      rewrite Hc in Hin. destruct Hin.
    + now apply (proj2 (candidate_of_shows doc n l u h Hb) el Hs).
  - intros H.
    destruct (collect doc n l u (elements doc)) as [| c cs] eqn:Ec;
      [reflexivity |].
    exfalso. assert (Hin : In c (collect doc n l u (elements doc)))
      by (rewrite Ec; now left).
    apply RankingSpec.collect_In in Hin. destruct Hin as (h & Hh & Hc).
    apply elements_In in Hh. destruct Hh as (el & Hr & Hb & Hl).
    destruct (proj1 (candidate_of_shows doc n l u h Hb) c Hc)
      as (el' & Hr' & Hs & _).
    assert (el' = el) as -> by congruence.
    exact (H h el (Hs Hl)).
Qed.

Lemma length_insert {A : Type} (cmp : A -> A -> Js.num B) (a : A)
      (l : list A) :
  List.length (insert cmp a l) = S (List.length l).
Proof.
  induction l as [| b l IH]; cbn [insert]; [reflexivity |].
  destruct (Js.ltb B (Js.lit B 0) (cmp a b)); cbn [List.length];
    [now rewrite IH | reflexivity].
Qed.

Lemma length_sort {A : Type} (cmp : A -> A -> Js.num B) (l : list A) :
  List.length (sort cmp l) = List.length l.
Proof.
  induction l as [| a l IH]; cbn [sort]; [reflexivity |].
  now rewrite length_insert, IH.
Qed.

Lemma length_collect (doc : Document B) (n l u : string)
      (els : list handle) :
  List.length (collect doc n l u els)
  = List.length
      (filter (fun h => match candidate_of doc n l u h with
                        | Some _ => true
                        | None => false
                        end) els).
Proof.
  induction els as [| h els IH]; cbn [collect filter]; [reflexivity |].
  destruct (candidate_of doc n l u h); cbn [List.length]; now rewrite IH.
Qed.

(** X9. What the script returns.  Each candidate stands for a childless
    element with a [body] ancestor that is displayed and whose text, not
    empty, contains the value text; the candidate carries that element's
    trimmed text, its layout box and its path.  The script returns nothing
    exactly when the document has no such element; it returns as many
    candidates as the loop kept elements, up to five. *)
Theorem candidates_show_the_value (doc : Document B) (n l u : string) :
  (forall c,
      In c (SELECTOR_JS doc n l u) ->
      exists h el,
        shows doc n h el
        /\ elText c = textOf el /\ crect c = rect el
        /\ path c = cssPath doc h)
  /\ (SELECTOR_JS doc n l u = [] <-> forall h el, ~ shows doc n h el)
  /\ List.length (SELECTOR_JS doc n l u)
     = Nat.min 5
         (List.length
            (filter (fun h => match candidate_of doc n l u h with
                              | Some _ => true
                              | None => false
                              end) (elements doc))).
Proof.
  split; [apply candidate_shown |]. split; [apply nothing_shown |].
  unfold SELECTOR_JS. now rewrite length_firstn, length_sort, length_collect.
Qed.

End WithBuiltins.
End CandidateSpec.

(* ================================================================= *)
(** ** When learning records a miss *)

Module LearnSpec.
Import Dom Script DomNotions MoreNotions DomFacts CandidateSpec.

Lemma append_nonempty_r (a b : string) : b <> "" -> a ++ b <> "".
Proof. destruct a; cbn [append]; [trivial | discriminate]. Qed.

Lemma join_nonempty (sep : string) (pre : list string) (p : string) :
  sep <> "" -> p <> "" -> Str.join sep (pre ++ [p]) <> "".
Proof.
  intros Hsep Hp. destruct pre as [| a pre]; [exact Hp |].
  cbn [app Str.join]. destruct (pre ++ [p])%list eqn:E.
  - now destruct pre.
  - apply append_nonempty_r. destruct sep; [congruence | discriminate].
Qed.

Section WithBuiltins.
Context {B : Js.Builtins}.

Lemma cssPath_loop_extends (doc : Document B) (h : handle) :
  forall parts, exists pre, cssPath_loop doc h parts = (pre ++ parts)%list.
Proof.
  induction h as [| i ph IH]; intros parts; cbn [cssPath_loop].
  - destruct (resolve doc []); [| now exists []].
    destruct (is_body doc []); [now exists [] |].
    now exists [segment doc [] e].
  - destruct (resolve doc (i :: ph)) as [cur |]; [| now exists []].
    destruct (is_body doc (i :: ph)); [now exists [] |].
    destruct (6 <? _)%nat; [now exists [segment doc (i :: ph) cur] |].
    destruct (IH (segment doc (i :: ph) cur :: parts)) as (pre & ->).
    exists (pre ++ [segment doc (i :: ph) cur])%list.
    now rewrite <- app_assoc.
Qed.

(** [document.body] has no [body] ancestor. *)
Lemma body_not_under_body (doc : Document B) (h : handle) :
  under_body doc h = true -> is_body doc h = false.
Proof.
  unfold is_body, body, under_body.
  destruct (has_tag "html" (documentElement doc)) eqn:Hhtml; [| reflexivity].
  destruct (find_index _ 0 _) as [i |]; [| reflexivity].
  unfold handle_eqb. destruct (list_eq_dec Nat.eq_dec h [i]) as [-> | _];
    [| reflexivity].
  cbn [rev app body_above]. intros H. exfalso.
  unfold has_tag in *. apply String.eqb_eq in Hhtml. rewrite Hhtml in H.
  cbn [String.eqb Ascii.eqb] in H.
  destruct (nth_error (children (documentElement doc)) i); discriminate.
Qed.

(** The path of an element with a [body] ancestor is never empty. *)
Lemma cssPath_nonempty (doc : Document B) (h : handle) (el : Element B) :
  resolve doc h = Some el -> under_body doc h = true -> cssPath doc h <> "".
Proof.
  intros Hr Hb. unfold cssPath. rewrite Hr.
  destruct (unique_id doc el); [discriminate |].
  pose proof (body_not_under_body doc h Hb) as Hnb.
  destruct h as [| i ph]; [discriminate |].
  cbn [cssPath_loop]. rewrite Hr, Hnb. cbn [List.length Nat.ltb Nat.leb].
  destruct (cssPath_loop_extends doc ph [segment doc (i :: ph) el])
    as (pre & ->).
  apply join_nonempty; [discriminate |].
  unfold segment.
  assert (Hp : exists parent, resolve doc ph = Some parent).
  { unfold resolve in *. cbn [rev] in Hr. rewrite get_app in Hr.
    destruct (get (documentElement doc) (rev ph)) as [p |]; [| discriminate].
    now exists p. }
  destruct Hp as (parent & ->).
  apply append_nonempty_r. unfold nth_part. discriminate.
Qed.

Lemma candidate_path (doc : Document B) (n l u : string) (c : Candidate) :
  In c (SELECTOR_JS doc n l u) -> path c <> "".
Proof.
  intros Hc.
  destruct (candidate_shown doc n l u c Hc)
    as (h & el & (Hr & Hb & _) & _ & _ & ->).
  exact (cssPath_nonempty doc h el Hr Hb).
Qed.

Section WithBrowser.
Context (goto : string -> option (Mapper.Page B)).

Lemma learn_entry_selector (page : Mapper.Page B) (lv : Parser.LabelValue) :
  (Notions.found page lv = []
   /\ Dict.get "selector" (Mapper.learn_entry (Notions.found page lv) lv)
      = Some "")
  \/ (exists best rest,
         Notions.found page lv = best :: rest
         /\ path best <> ""
         /\ Dict.get "selector" (Mapper.learn_entry (Notions.found page lv) lv)
            = Some (path best)).
Proof.
  unfold Mapper.learn_entry.
  destruct (Notions.found page lv) as [| best rest] eqn:E; [now left |].
  right. exists best, rest.
  assert (Hp : path best <> "").
  { apply (candidate_path (Mapper.document page) (Parser.value_str lv)
             (Parser.label lv)
             (match Parser.unit lv with Some u => u | None => "" end)).
    unfold Notions.found in E. rewrite E. now left. }
  destruct (path best) eqn:Ep; [congruence |]. now repeat split.
Qed.

(** X10. When learning records a miss.  The model gives a map when the
    script text built for each record is the script with that record's
    three texts as constants.  In that map, the entry of a label
    holds the empty selector exactly when the page has no childless,
    displayed element under the body whose text contains the value text of
    the label's last record.  Otherwise the selector is the path of such an
    element, and it is not empty: the path of a candidate is never the
    empty string. *)
Theorem learn_miss_iff_nothing_shown
        (url : string) (labels : list Parser.LabelValue)
        (selectors : Dict.dict (Dict.dict string))
        (label : string) (meta : Dict.dict string) :
  Mapper.learn_selectors goto url labels = Outcome.Returns selectors ->
  Dict.get label selectors = Some meta ->
  exists page lv sel,
    goto url = Some page
    /\ Notions.last_with label labels = Some lv
    /\ Mapper.plain lv = true
    /\ Mapper.evaluate page lv = Outcome.Returns (Notions.found page lv)
    /\ Dict.get "selector" meta = Some sel
    /\ (sel = "" <->
        forall h el,
          ~ shows (Mapper.document page) (Parser.value_str lv) h el)
    /\ (sel <> "" ->
        exists h el,
          shows (Mapper.document page) (Parser.value_str lv) h el
          /\ sel = cssPath (Mapper.document page) h).
Proof.
  unfold Mapper.learn_selectors.
  destruct (goto url) as [page |]; [| discriminate].
  intros Hl.
  destruct (MapperSpec.learn_loop_returns page labels []) as (_ & Hr & _).
  destruct (Hr selectors Hl) as [Hplain ->]. clear Hr Hl.
  rewrite MapperSpec.learn_loop_get.
  destruct (Notions.last_with label labels) as [lv |] eqn:El;
    [| discriminate].
  intros [= <-].
  assert (Hpl : Mapper.plain lv = true).
  { rewrite Forall_forall in Hplain. apply Hplain.
    clear -El. induction labels as [| r labels IH]; [discriminate |].
    cbn [Notions.last_with] in El.
    destruct (Notions.last_with label labels) as [r' |].
    - right. now apply IH.
    - destruct (String.eqb (Parser.label r) label); [| discriminate].
      injection El as ->. now left. }
  pose proof (MapperSpec.evaluate_plain page lv Hpl) as Hev.
  destruct (learn_entry_selector page lv)
    as [[E Hs] | (best & rest & E & Hp & Hs)].
  - exists page, lv, "". repeat split; try assumption.
    + intros _. now apply (nothing_shown (Mapper.document page)
                             (Parser.value_str lv) (Parser.label lv)
                             (match Parser.unit lv with
                              | Some u => u | None => "" end)).
    + congruence.
  - exists page, lv, (path best). repeat split; try assumption.
    + congruence.
    + intros H. exfalso.
      apply (nothing_shown (Mapper.document page)
               (Parser.value_str lv) (Parser.label lv)
               (match Parser.unit lv with Some u => u | None => "" end)) in H.
      unfold Notions.found in E. congruence.
    + intros _.
      destruct (candidate_shown (Mapper.document page)
                  (Parser.value_str lv) (Parser.label lv)
                  (match Parser.unit lv with Some u => u | None => "" end)
                  best) as (h & el & Hsh & _ & _ & Hpath).
      { unfold Notions.found in E. rewrite E. now left. }
      now exists h, el.
Qed.

End WithBrowser.
End WithBuiltins.
End LearnSpec.

(* ================================================================= *)
(** ** Date keys *)

Module DateKeySpec.
Import Records Notions DateNotions.
Local Open Scope Z_scope.

Lemma digits_value_of_uint (d : Decimal.uint) :
  forall acc : nat,
    Parser.digits_value (Z.of_nat acc) (NilEmpty.string_of_uint d)
    = Some (Z.of_nat (Nat.of_uint_acc d acc)).
Proof.
  induction d as [| d IH | d IH | d IH | d IH | d IH | d IH | d IH | d IH
                  | d IH | d IH]; intros acc;
    cbn [NilEmpty.string_of_uint Nat.of_uint_acc Parser.digits_value];
    [reflexivity | ..];
    (change (Str.is_digit _) with true; cbv beta iota;
     rewrite Nat.tail_mul_spec, <- IH; f_equal;
     match goal with
     | |- context [Str.code ?c] =>
         let v := eval vm_compute in (Str.code c) in
         change (Str.code c) with v
     end; lia).
Qed.

Lemma digits_value_of_nat (n : nat) :
  Parser.digits_value 0 (Str.of_nat n) = Some (Z.of_nat n).
Proof.
  unfold Str.of_nat, NilZero.string_of_uint.
  rewrite <- (DecimalNat.Unsigned.of_to n) at 2. unfold Nat.of_uint.
  destruct (Nat.to_uint n) eqn:E;
    try (rewrite <- E; exact (digits_value_of_uint _ 0%nat)).
  reflexivity.
Qed.

Lemma digits_value_repeat0 (k : nat) (s : string) :
  Parser.digits_value 0 (repeat0 k ++ s) = Parser.digits_value 0 s.
Proof. induction k as [| k IH]; [reflexivity | exact IH]. Qed.

Lemma digits_value_zero_pad (w : nat) (z : Z) :
  0 <= z -> Parser.digits_value 0 (zero_pad w z) = Some z.
Proof.
  intros Hz. unfold zero_pad.
  rewrite digits_value_repeat0, digits_value_of_nat. f_equal. lia.
Qed.

Lemma digits_value_digits (s : string) :
  forall acc v,
    Parser.digits_value acc s = Some v -> Str.forallb Str.is_digit s = true.
Proof.
  induction s as [| c s IH]; intros acc v; cbn [Parser.digits_value Str.forallb];
    [reflexivity |].
  destruct (Str.is_digit c); [apply IH | discriminate].
Qed.

Lemma zero_pad_digits (w : nat) (z : Z) :
  0 <= z -> Str.forallb Str.is_digit (zero_pad w z) = true.
Proof.
  intros Hz. exact (digits_value_digits _ _ _ (digits_value_zero_pad w z Hz)).
Qed.

(** A text is cut at its first dash in one way only. *)
Lemma dash_split (a a' r r' : string) :
  Str.forallb Str.is_digit a = true ->
  Str.forallb Str.is_digit a' = true ->
  (a ++ String "-" r = a' ++ String "-" r')%string ->
  a = a' /\ r = r'.
Proof.
  revert a'. induction a as [| c a IH]; intros a' Ha Ha' E.
  - destruct a' as [| c' a']; cbn [append] in E.
    + now injection E as <-.
    + injection E as <- _. discriminate.
  - destruct a' as [| c' a']; cbn [append] in E.
    + injection E as -> _. discriminate.
    + injection E as <- E. cbn [Str.forallb] in Ha, Ha'.
      apply andb_true_iff in Ha, Ha'.
      destruct (IH a' (proj2 Ha) (proj2 Ha') E) as [-> ->]. now split.
Qed.

(** Two dates with the same ISO text are the same date. *)
Lemma isoformat_inj (d1 d2 : date) :
  0 <= year d1 -> 0 <= month d1 -> 0 <= day d1 ->
  0 <= year d2 -> 0 <= month d2 -> 0 <= day d2 ->
  isoformat d1 = isoformat d2 -> d1 = d2.
Proof.
  destruct d1 as [y1 m1 x1], d2 as [y2 m2 x2]. cbn [year month day].
  intros Hy1 Hm1 Hx1 Hy2 Hm2 Hx2. unfold isoformat. cbn [year month day].
  intros E.
  apply dash_split in E; try now apply zero_pad_digits.
  destruct E as [Ey E].
  apply dash_split in E; try now apply zero_pad_digits.
  destruct E as [Em Ex].
  apply (f_equal (Parser.digits_value 0)) in Ey, Em, Ex.
  rewrite !digits_value_zero_pad in Ey, Em, Ex by assumption.
  congruence.
Qed.

Lemma isoformat_not_unknown (d : date) : isoformat d <> "unknown"%string.
Proof.
  unfold isoformat. intros E.
  apply (f_equal (Str.existsb (fun c => Ascii.eqb c "-"))) in E.
  rewrite !ScanFacts.existsb_append in E. cbn in E.
  rewrite orb_true_r in E. discriminate.
Qed.

Lemma valid_date_fields (d : date) :
  valid_date d = true -> 1 <= month d <= 12 /\ 1 <= day d <= 31.
Proof.
  unfold valid_date, days_in_month. intros H.
  repeat (apply andb_true_iff in H; destruct H as [H ?]).
  destruct (month d =? 2); [destruct (is_leap (year d)) |];
    [| | destruct (_ || _)]; lia.
Qed.

Lemma date_from_timestamp (url : string) (ts : Z) :
  timestamp url = Some ts ->
  _date_from_url url
  = Outcome.Returns (match utc_date ts with
                     | Some d => isoformat d
                     | None => "unknown"%string
                     end).
Proof.
  unfold timestamp, _date_from_url, date_of_values.
  destruct (url_query url) as [query | |]; try discriminate.
  destruct (parse_qs query) as [qs |]; [| discriminate].
  destruct (Dict.get "t" qs) as [[| t0 more] |]; try discriminate.
  intros ->. now destruct (utc_date ts).
Qed.

End DateKeySpec.

Module DateShape.
Import Records Notions DateNotions DateKeySpec.
Local Open Scope Z_scope.

Lemma digits_value_lower (s : string) :
  forall acc v,
    0 <= acc -> Parser.digits_value acc s = Some v ->
    acc * 10 ^ Z.of_nat (String.length s) <= v.
Proof.
  induction s as [| c s IH]; intros acc v Hacc;
    cbn [Parser.digits_value String.length].
  - intros [= <-]. cbn. lia.
  - destruct (Str.is_digit c); [| discriminate]. intros H.
    apply IH in H; [| lia].
    rewrite Nat2Z.inj_succ, Z.pow_succ_r by lia. nia.
Qed.

Lemma nzhead_head (d : Decimal.uint) :
  match Decimal.nzhead d with Decimal.D0 _ => False | _ => True end.
Proof. induction d; cbn [Decimal.nzhead]; trivial. Qed.

(** The decimal rendering of a number has no leading zero, "0" apart. *)
Lemma of_nat_head (n : nat) :
  Str.of_nat n = "0"%string
  \/ exists c s,
      Str.of_nat n = String c s
      /\ forall acc, Parser.digits_value acc (String c s)
                     = Parser.digits_value
                         (10 * acc + Z.of_nat (Str.code c - 48)) s
                     /\ 1 <= Z.of_nat (Str.code c - 48).
Proof.
  unfold Str.of_nat, NilZero.string_of_uint.
  pose proof (DecimalNat.Unsigned.to_of (Nat.to_uint n)) as E.
  rewrite DecimalNat.Unsigned.of_to in E. unfold Decimal.unorm in E.
  pose proof (nzhead_head (Nat.to_uint n)) as Hh.
  destruct (Decimal.nzhead (Nat.to_uint n)) as [| d | d | d | d | d | d | d | d
                                                | d | d] eqn:Ez;
    rewrite E; try (now left); try contradiction;
    right; cbn [NilEmpty.string_of_uint]; eexists; eexists;
    (split; [reflexivity | intros acc; split; [reflexivity | now vm_compute]]).
Qed.

Lemma of_nat_length (k n : nat) :
  (1 <= k)%nat -> Z.of_nat n < 10 ^ Z.of_nat k ->
  (String.length (Str.of_nat n) <= k)%nat.
Proof.
  intros Hk Hn. pose proof (digits_value_of_nat n) as Hv.
  destruct (of_nat_head n) as [-> | (c & s & E & Hc)]; [cbn; lia |].
  rewrite E in *. destruct (Hc 0) as [Hd H1]. rewrite Hd in Hv.
  apply digits_value_lower in Hv; [| lia].
  cbn [String.length].
  assert (H : 10 ^ Z.of_nat (String.length s) < 10 ^ Z.of_nat k) by nia.
  apply Z.pow_lt_mono_r_iff in H; lia.
Qed.

Lemma length_repeat0 (k : nat) : String.length (repeat0 k) = k.
Proof. induction k as [| k IH]; cbn; [reflexivity | now rewrite IH]. Qed.

Lemma zero_pad_field (w : nat) (z : Z) :
  (1 <= w)%nat -> 0 <= z < 10 ^ Z.of_nat w -> digit_field w (zero_pad w z).
Proof.
  intros Hw Hz. split; [| apply zero_pad_digits; lia].
  unfold zero_pad. rewrite StrFacts.length_append, length_repeat0.
  pose proof (of_nat_length w (Z.to_nat z) Hw). lia.
Qed.

End DateShape.

Module DateSpec.
Import Records Notions DateNotions DateKeySpec DateShape.
Local Open Scope Z_scope.

Lemma dated_key (url : string) (ts : Z) :
  timestamp url = Some ts -> representable ts ->
  exists d,
    _date_from_url url = Outcome.Returns (isoformat d)
    /\ utc_date ts = Some d
    /\ valid_date d = true /\ 1 <= year d <= 9999
    /\ ymd2ord d - epoch_ordinal = ts / 86400.
Proof.
  intros Ht Hr. rewrite (date_from_timestamp url ts Ht).
  destruct (proj1 (RecordsSpec.utc_date_correct ts) Hr)
    as (d & E & Hv & Hy & Ho).
  exists d. rewrite E. now repeat split.
Qed.

(** X11. How timestamps become date keys.  For a URL whose first [t]
    parameter is an integer that [datetime] can represent, [_date_from_url]
    returns a key of the form YYYY-MM-DD: four digits, a dash, two digits, a
    dash, two digits; it is never "unknown".  Two such URLs get the same key
    exactly when their timestamps fall on the same UTC day, that is when the
    timestamps divided by 86400 (rounding down) agree. *)
Theorem same_day_same_key (u1 u2 : string) (ts1 ts2 : Z) :
  timestamp u1 = Some ts1 -> timestamp u2 = Some ts2 ->
  representable ts1 -> representable ts2 ->
  (exists Y M D,
      _date_from_url u1 = Outcome.Returns (Y ++ "-" ++ M ++ "-" ++ D)%string
      /\ digit_field 4 Y /\ digit_field 2 M /\ digit_field 2 D)
  /\ _date_from_url u1 <> Outcome.Returns "unknown"%string
  /\ (_date_from_url u1 = _date_from_url u2
      <-> ts1 / 86400 = ts2 / 86400).
Proof.
  intros H1 H2 R1 R2.
  destruct (dated_key u1 ts1 H1 R1) as (d1 & E1 & U1 & V1 & Y1 & O1).
  destruct (dated_key u2 ts2 H2 R2) as (d2 & E2 & U2 & V2 & Y2 & O2).
  pose proof (valid_date_fields d1 V1) as [M1 D1].
  pose proof (valid_date_fields d2 V2) as [M2 D2].
  split; [| split].
  - exists (zero_pad 4 (year d1)), (zero_pad 2 (month d1)),
      (zero_pad 2 (day d1)).
    split; [exact E1 |].
    repeat split; try (apply zero_pad_digits; lia);
      apply zero_pad_field; cbn; lia.
  - rewrite E1. intros [= E]. now apply isoformat_not_unknown in E.
  - rewrite E1, E2. split.
    + intros [= E]. apply isoformat_inj in E; try lia. subst d2. lia.
    + intros E. unfold utc_date in U1, U2. rewrite E in U1. congruence.
Qed.

Lemma same_day_on_two_urls :
  (exists Y M D,
      _date_from_url "https://example.org/report?id=1&t=1758251593"
      = Outcome.Returns (Y ++ "-" ++ M ++ "-" ++ D)%string
      /\ digit_field 4 Y /\ digit_field 2 M /\ digit_field 2 D)
  /\ _date_from_url "https://example.org/report?id=1&t=1758251593"
     <> Outcome.Returns "unknown"%string
  /\ (_date_from_url "https://example.org/report?id=1&t=1758251593"
      = _date_from_url "https://example.org/report?t=1758240000"
      <-> 1758251593 / 86400 = 1758240000 / 86400).
Proof.
  apply (same_day_same_key
           "https://example.org/report?id=1&t=1758251593"
           "https://example.org/report?t=1758240000"
           1758251593 1758240000);
    first [ reflexivity | unfold representable; lia ].
Defined.

End DateSpec.

(* ================================================================= *)
(** ** The order of the labels *)

Module OrderSpec.
Import Outcome Dict Parser Mapper Notions MoreNotions.

Section WithBrowser.
Context {B : Js.Builtins} (goto : string -> option (Page B)).

Lemma learn_loop_order (page : Page B) (labels : list LabelValue) :
  forall d,
    keys (learnt page labels d)
    = (keys d ++ first_occurrences (keys d) (List.map label labels))%list.
Proof.
  induction labels as [| lv labels IH]; intros d;
    cbn [learnt List.map first_occurrences].
  - now rewrite app_nil_r.
  - rewrite IH.
    destruct (List.existsb (String.eqb (label lv)) (keys d)) eqn:E.
    + apply BatchSpec.existsb_eqb_In in E.
      now rewrite DictFacts.keys_set_present.
    + assert (Hn : ~ In (label lv) (keys d)).
      { intros Hin. apply BatchSpec.existsb_eqb_In in Hin. congruence. }
      rewrite DictFacts.keys_set_absent by assumption.
      now rewrite <- app_assoc.
Qed.

(** X12. The order of the labels.  The map [learn_selectors] returns lists
    the labels in the order in which they first occur in the report, each
    once; and whatever page the map is then applied to, the result lists
    the labels in that same order. *)
Theorem labels_in_report_order
        (url : string) (labels : list LabelValue)
        (selectors : dict (dict string)) :
  learn_selectors goto url labels = Returns selectors ->
  keys selectors = first_occurrences [] (List.map label labels)
  /\ forall url' results,
      apply_selectors goto url' selectors = Some results ->
      keys results = first_occurrences [] (List.map label labels).
Proof.
  unfold learn_selectors. destruct (goto url) as [page |]; [| discriminate].
  intros Hl.
  destruct (MapperSpec.learn_loop_returns page labels []) as (_ & Hr & _).
  destruct (Hr selectors Hl) as [_ ->]. clear Hr Hl.
  assert (Hk : keys (learnt page labels [])
               = first_occurrences [] (List.map label labels))
    by now rewrite learn_loop_order.
  split; [exact Hk |].
  intros url' results. unfold apply_selectors, apply_run.
  destruct (goto url') as [page' |]; [| discriminate].
  cbn [option_map]. intros [= <-].
  rewrite MapperSpec.apply_loop_keys; [exact Hk |].
  cbn [keys List.map app].
  apply (MapperSpec.learn_loop_keys page labels []). constructor.
Qed.

End WithBrowser.
End OrderSpec.

(* ================================================================= *)
(** ** When applying a map gives null *)

Module NullSpec.
Import Dict Parser Mapper Notions MoreNotions.

Section WithBrowser.
Context {B : Js.Builtins} (goto : string -> option (Page B)).

Lemma apply_entry_value (page : Page B) (meta : dict string) :
  fst (apply_entry page meta)
  = if Str.truthy (selector_of meta)
    then match eval_on_selector page (selector_of meta) with
         | Some t => number_in t
         | None => None
         end
    else None.
Proof.
  unfold apply_entry, selector_of.
  destruct (Str.truthy _); [| reflexivity].
  now destruct (eval_on_selector page _).
Qed.

(** X13. When applying a map gives null.  For a label of the map, the
    result is null exactly when the entry has no selector or an empty one,
    or the selector fails to resolve on the page, or the text it resolves
    to has no decimal digit.  In every other case the result is the float
    of the first numeral of that text: what precedes the numeral has no
    digit, and what follows it does not start with one. *)
Theorem null_iff_no_number
        (url : string) (page : Page B) (selectors : dict (dict string))
        (label : string) (meta : dict string) :
  goto url = Some page ->
  NoDup (keys selectors) ->
  get label selectors = Some meta ->
  exists results,
    apply_selectors goto url selectors = Some results
    /\ (get label results = Some None
        <-> selector_of meta = ""
            \/ eval_on_selector page (selector_of meta) = None
            \/ exists t,
                eval_on_selector page (selector_of meta) = Some t
                /\ Str.existsb Str.is_digit t = false)
    /\ (forall f,
           get label results = Some (Some f) ->
           exists t a n b,
             selector_of meta <> ""
             /\ eval_on_selector page (selector_of meta) = Some t
             /\ t = a ++ n ++ b
             /\ Str.existsb Str.is_digit a = false
             /\ numeral n
             /\ starts_with Str.is_digit b = false
             /\ pyfloat n = Some f).
Proof.
  intros Hgo Hnd Hget. unfold apply_selectors, apply_run. rewrite Hgo.
  cbn [option_map]. eexists. split; [reflexivity |].
  rewrite (MapperSpec.apply_loop_get page label selectors Hnd), Hget.
  rewrite apply_entry_value.
  destruct (selector_of meta) as [| c s] eqn:Es; cbn [Str.truthy].
  - split; [split; [now left | reflexivity] | discriminate].
  - destruct (eval_on_selector page (String c s)) as [t |] eqn:Et.
    + destruct (ApplySpec.number_in_spec t) as [Hnone Hsome]. split.
      * split.
        -- intros [= H]. right. right. exists t. split; [reflexivity |].
           now apply Hnone.
        -- intros [H | [H | (t' & [= <-] & H)]]; try discriminate.
           f_equal. now apply Hnone.
      * intros f [= H]. destruct (Hsome f H) as (a & n & b & E & Ha & Hn & _ & Hb & Hf).
        exists t, a, n, b. repeat split; try assumption. discriminate.
    + split; [split; [now right; left | reflexivity] | discriminate].
Qed.

End WithBrowser.
End NullSpec.

(* ================================================================= *)
(** ** From the report text to the labels of the map *)

Module PipelineSpec.
Import Outcome Dict Parser Mapper Notions MoreNotions LineNotions.

Lemma forallb_weaken (p q : ascii -> bool) (s : string) :
  (forall c, p c = true -> q c = true) ->
  Str.forallb p s = true -> Str.forallb q s = true.
Proof.
  intros Hpq. induction s as [| c s IH]; cbn [Str.forallb]; [reflexivity |].
  intros H. apply andb_true_iff in H. destruct H as [Hc Hs].
  now rewrite (Hpq c Hc), IH.
Qed.

(** A text does not hold a text whose first character it does not have. *)
Lemma includes_without_head (p : ascii -> bool) (a : ascii) (n s : string) :
  Str.forallb p s = true -> p a = false ->
  Str.includes (String a n) s = false.
Proof.
  intros Hs Ha. induction s as [| c s IH]; [reflexivity |].
  cbn [Str.forallb] in Hs. apply andb_true_iff in Hs. destruct Hs as [Hc Hs].
  cbn [Str.includes String.prefix].
  destruct (ascii_dec a c) as [-> | _]; [congruence |].
  cbn [orb]. now apply IH.
Qed.

Lemma numeral_chars (n : string) :
  numeral n -> Str.forallb numeral_char n = true.
Proof.
  assert (Hd : forall s, Str.forallb Str.is_digit s = true ->
                         Str.forallb numeral_char s = true).
  { intros s. apply forallb_weaken. intros c Hc. unfold numeral_char.
    now rewrite Hc, orb_true_r. }
  intros (sg & ip & fr & -> & Hsg & Hip & Hfr).
  unfold digits in Hip. apply andb_true_iff in Hip. destruct Hip as [_ Hip].
  rewrite !StrFacts.forallb_append, (Hd ip Hip).
  assert (Es : Str.forallb numeral_char sg = true)
    by (destruct Hsg as [-> | [-> | ->]]; reflexivity).
  rewrite Es. cbn [andb].
  destruct Hfr as [-> | (fp & -> & Hfp)]; [reflexivity |].
  unfold digits in Hfp. apply andb_true_iff in Hfp.
  cbn [Str.forallb]. now rewrite (Hd fp (proj2 Hfp)).
Qed.

(** A record of a line of the report holds no placeholder of the script. *)
Lemma parse_line_plain (raw : string) (lv : LabelValue) :
  Str.forallb any_char raw = true ->
  parse_line raw = Some lv -> plain lv = true.
Proof.
  intros Hany E.
  pose proof (ParserFacts.parse_line_well_formed raw lv E) as [Hnum _].
  pose proof (numeral_chars _ Hnum) as Hv.
  assert (Hl : Str.forallb label_char (label lv) = true).
  { pose proof (ReportSpec.parse_line_qualifies raw Hany) as Hq.
    destruct (qualifies raw).
    - destruct Hq as (lv' & E' & El & _).
      rewrite E in E'. injection E' as <-. rewrite El.
      unfold label_of. apply BatchSpec.forallb_strip, ScanFacts.span_all.
    - congruence. }
  unfold plain.
  rewrite (includes_without_head numeral_char "_" _ _ Hv eq_refl).
  rewrite (includes_without_head numeral_char "_" _ _ Hv eq_refl).
  now rewrite (includes_without_head label_char "_" _ _ Hl eq_refl).
Qed.

Lemma parse_important_plain (lines : list string) :
  Forall (fun raw => Str.forallb any_char raw = true) lines ->
  Forall (fun lv => plain lv = true) (parse_important lines).
Proof.
  induction 1 as [| raw lines Hraw _ IH]; cbn [parse_important];
    [constructor |].
  destruct (parse_line raw) as [lv |] eqn:E; [| exact IH].
  constructor; [exact (parse_line_plain raw lv Hraw E) | exact IH].
Qed.

Section WithBrowser.
Context {B : Js.Builtins} (goto : string -> option (Page B)).

(** X14. From the report text to the map.  When the labels are read from a
    report text and selectors are learnt for them, the map lists, in order
    of first occurrence and each once, the labels of the qualifying lines
    of the text (lines that, stripped, start with a letter or a slash, are
    not metadata lines and have a digit); no other line contributes a
    label, and a page that fails to load gives no map at all.  No record
    read from a report text holds a placeholder of the script, so learning
    returns a map whenever the page loads. *)
Theorem map_labels_of_text
        (url text : string) (selectors : dict (dict string)) :
  learn_selectors goto url (parse_important (Batch.splitlines text))
  = Returns selectors ->
  goto url <> None
  /\ keys selectors
     = first_occurrences []
         (List.map label_of (filter qualifies (Batch.splitlines text)))
  /\ (forall k,
         get k selectors <> None
         <-> exists raw,
             In raw (Batch.splitlines text)
             /\ qualifies raw = true /\ label_of raw = k)
  /\ (forall url',
         goto url' <> None ->
         exists m,
           learn_selectors goto url' (parse_important (Batch.splitlines text))
           = Returns m).
Proof.
  assert (Hany : Forall (fun raw => Str.forallb any_char raw = true)
                        (Batch.splitlines text)).
  { pose proof (BatchSpec.splitlines_from_unbroken text "" eq_refl) as Hu.
    unfold Batch.splitlines. revert Hu. apply Forall_impl.
    exact ReportSpec.linebreak_newline. }
  pose proof (parse_important_plain _ Hany) as Hplain.
  assert (Hret : forall url',
             goto url' <> None ->
             exists m,
               learn_selectors goto url'
                 (parse_important (Batch.splitlines text)) = Returns m).
  { intros url' Hgo. unfold learn_selectors.
    destruct (goto url') as [page' |]; [| congruence].
    eexists. now apply MapperSpec.learn_loop_returns. }
  unfold learn_selectors at 1.
  destruct (goto url) as [page |]; [| discriminate].
  intros Hl.
  destruct (MapperSpec.learn_loop_returns
              page (parse_important (Batch.splitlines text)) [])
    as (_ & Hr & _).
  destruct (Hr selectors Hl) as [_ ->]. clear Hr Hl.
  destruct (ReportSpec.parse_important_qualifying _ Hany) as [Hl _].
  split; [discriminate |]. split; [| split; [| exact Hret]].
  - rewrite OrderSpec.learn_loop_order. cbn [keys List.map app].
    now rewrite Hl.
  - intros k.
    destruct (MapperSpec.learn_loop_keys
                page (parse_important (Batch.splitlines text)) [])
      as [_ Hk]; [constructor |].
    specialize (Hk k). cbn [keys List.map In] in Hk. rewrite Hl in Hk.
    split.
    + intros Hg.
      assert (Hin : In k (keys (learnt
                                  page
                                  (parse_important (Batch.splitlines text))
                                  []))).
      { destruct (in_dec string_dec k
                    (keys (learnt
                             page
                             (parse_important (Batch.splitlines text)) [])))
          as [Hin | Hn]; [exact Hin |].
        now apply DictFacts.get_none in Hn. }
      apply Hk in Hin. destruct Hin as [[] | Hin].
      apply in_map_iff in Hin. destruct Hin as (raw & E & Hraw).
      apply filter_In in Hraw. now exists raw.
    + intros (raw & Hin & Hq & E) Hg. apply DictFacts.get_none in Hg.
      apply Hg, Hk. right. apply in_map_iff. exists raw.
      split; [exact E |]. now apply filter_In.
Qed.

End WithBrowser.
End PipelineSpec.

(* ================================================================= *)
(** ** The further properties on the samples *)

Module MoreOnSamples.
Import Samples MoreSamples Notions MoreNotions DomNotions.

(** X2 on the URLs registered in [records.py]: three dated reports and one
    without timestamp. *)
Lemma registry_on_registered :
  ((exists m, Registry.add_all [] Registry.registered = Outcome.Returns m)
   <-> Forall has_key Registry.registered)
  /\ (exists m,
         Registry.get_records = Outcome.Returns m
         /\ NoDup (Dict.keys m)
         /\ Dict.keys m
            = ["2025-09-19"; "2025-09-16"; "2025-09-13"; "unknown"]%string
         /\ Dict.keys m
            = first_occurrences [] (List.map date_key Registry.registered)
         /\ forall d, Dict.get d m
                      = match filter (dated d) Registry.registered with
                        | [] => None
                        | l => Some l
                        end).
Proof.
  destruct (BatchSpec.registry_groups_by_date Registry.registered)
    as (Hiff & _ & Hm).
  split; [exact Hiff |].
  assert (Hk : Forall has_key Registry.registered).
  { repeat constructor; eexists; vm_compute; reflexivity. }
  destruct (proj2 Hiff Hk) as [m Em]. exists m.
  destruct (Hm m Em) as (H1 & H2 & H3).
  split; [exact Em |]. split; [exact H1 |].
  split; [rewrite H2; vm_compute; reflexivity |].
  split; [exact H2 | exact H3].
Defined.

(** X10 on the sample report: the weight is shown, so its selector is not
    empty. *)
Lemma learn_miss_on_report :
  exists page lv sel,
    report_goto FB report_url = Some page
    /\ last_with "Weight" [weight] = Some lv
    /\ Mapper.plain lv = true
    /\ Mapper.evaluate page lv = Outcome.Returns (found page lv)
    /\ Dict.get "selector"
         (Mapper.entry "div.row:nth-of-type(1) > span.value:nth-of-type(2)"
                       "62.5") = Some sel
    /\ (sel = "" <->
        forall h el,
          ~ shows (Mapper.document page) (Parser.value_str lv) h el)
    /\ (sel <> "" ->
        exists h el,
          shows (Mapper.document page) (Parser.value_str lv) h el
          /\ sel = Script.cssPath (Mapper.document page) h).
Proof.
  apply (LearnSpec.learn_miss_iff_nothing_shown
           (report_goto FB) report_url [weight]
           [("Weight",
             Mapper.entry "div.row:nth-of-type(1) > span.value:nth-of-type(2)"
                          "62.5")]
           "Weight");
    vm_compute; reflexivity.
Defined.

(** X12 on the sample report, with the weight line read twice. *)
Lemma label_order_on_report :
  Dict.keys
    [("Weight",
      Mapper.entry "div.row:nth-of-type(1) > span.value:nth-of-type(2)"
                   "62.5")]
  = first_occurrences [] (List.map Parser.label [weight; weight])
  /\ forall url' results,
      Mapper.apply_selectors (report_goto FB) url'
        [("Weight",
          Mapper.entry "div.row:nth-of-type(1) > span.value:nth-of-type(2)"
                       "62.5")] = Some results ->
      Dict.keys results
      = first_occurrences [] (List.map Parser.label [weight; weight]).
Proof.
  apply (OrderSpec.labels_in_report_order
           (report_goto FB) report_url [weight; weight]).
  vm_compute. reflexivity.
Defined.

(** X13 on the sample report: the stored miss for the height gives null. *)
Lemma null_on_report :
  exists results,
    Mapper.apply_selectors (report_goto FB) report_url stored = Some results
    /\ (Dict.get "Height" results = Some None
        <-> selector_of (Mapper.entry "" "171.0") = ""
            \/ Mapper.eval_on_selector (report_page FB)
                 (selector_of (Mapper.entry "" "171.0")) = None
            \/ exists t,
                Mapper.eval_on_selector (report_page FB)
                  (selector_of (Mapper.entry "" "171.0")) = Some t
                /\ Str.existsb Str.is_digit t = false)
    /\ (forall f,
           Dict.get "Height" results = Some (Some f) ->
           exists t a n b,
             selector_of (Mapper.entry "" "171.0") <> ""
             /\ Mapper.eval_on_selector (report_page FB)
                  (selector_of (Mapper.entry "" "171.0")) = Some t
             /\ t = a ++ n ++ b
             /\ Str.existsb Str.is_digit a = false
             /\ numeral n
             /\ starts_with Str.is_digit b = false
             /\ Parser.pyfloat n = Some f).
Proof.
  apply (NullSpec.null_iff_no_number (report_goto FB) report_url
           (report_page FB) stored "Height" (Mapper.entry "" "171.0")).
  - reflexivity.
  - repeat constructor; cbn; intuition discriminate.
  - reflexivity.
Defined.

(** X14 on a report of two lines, the first one a name line. *)
Lemma map_labels_on_report :
  report_goto FB report_url <> None
  /\ Dict.keys
       [("Weight",
         Mapper.entry "div.row:nth-of-type(1) > span.value:nth-of-type(2)"
                      "62.5")]
     = first_occurrences []
         (List.map LineNotions.label_of
            (filter LineNotions.qualifies
               (Batch.splitlines two_lines)))
  /\ (forall k,
      Dict.get k
        [("Weight",
          Mapper.entry "div.row:nth-of-type(1) > span.value:nth-of-type(2)"
                       "62.5")] <> None
      <-> exists raw,
          In raw (Batch.splitlines two_lines)
          /\ LineNotions.qualifies raw = true
          /\ LineNotions.label_of raw = k)
  /\ (forall url',
         report_goto FB url' <> None ->
         exists m,
           Mapper.learn_selectors (report_goto FB) url'
             (Parser.parse_important (Batch.splitlines two_lines))
           = Outcome.Returns m).
Proof.
  apply (PipelineSpec.map_labels_of_text (report_goto FB) report_url).
  vm_compute. reflexivity.
Defined.

End MoreOnSamples.
